(** * libkmod-module: a shallow embedding of [src/libkmod/libkmod-module.c]

    The module object (a reference-counted handle living in a heap), the
    path-to-name canonicaliser, the dependency-line parser working in place
    on the caller's character buffer, the alias lookup orchestrator, the
    insert/remove adapters and the sysfs readers are rendered as executable
    Rocq functions over an explicit program state, and the properties the
    specification states about them are proved or refuted.  A second part
    proves further properties read off the code: what is written into the
    caller's arrays, the outcomes under every allocation failure, round
    trips of construction, acquisition and enumeration, and the accessors;
    the reference-counting protocol (C2) and the state of the caller's
    array after a parse (C10) are stated there, after the lemmas on the
    release of dependency lists and on the writes they rest on. *)

From Stdlib Require Import ZArith Ascii String List Lia Bool.
From stdpp Require Import base option list gmap strings.

Local Open Scope Z_scope.

(** ** Error numbers and integer width

    [errno.h] and [limits.h] are system headers; the values are those of
    Linux.  The functions return the negated number. *)

Definition ENOENT : Z := 2.
Definition EACCES : Z := 13.
Definition ENOMEM : Z := 12.
Definition EINVAL : Z := 22.
Definition EMFILE : Z := 24.
Definition ENOSYS : Z := 38.

Definition INT_MAX : Z := 2147483647.
Definition INT_MIN : Z := -2147483648.
Definition PATH_MAX : nat := 4096.

(** A C [int] after an arithmetic step, with two's-complement wrap-around. *)
Definition wrap_int (z : Z) : Z := (z - INT_MIN) mod 4294967296 + INT_MIN.

(** ** C strings

    A character array is a [list ascii]; a [char *] into it is the array
    together with an offset, and the string a pointer designates runs up to
    the first NUL at or after the offset.  Reading past the end of the
    list yields NUL: the arrays the code works on are NUL-terminated, so
    such a read stands for the terminator. *)

Module CStr.

Definition NUL : ascii := Ascii.zero.

Definition is_nul (c : ascii) : bool := Ascii.eqb c NUL.

Definition char_at (buf : list ascii) (i : nat) : ascii := nth i buf NUL.

(** The string designated by a pointer to the head of [s]. *)
Fixpoint cstr (s : list ascii) : list ascii :=
  match s with
  | [] => []
  | c :: s' => if is_nul c then [] else c :: cstr s'
  end.

Definition strlen (s : list ascii) : nat := length (cstr s).

(** [strchr s c]: offset of the first [c] in the string at [s]. *)
Fixpoint strchr (s : list ascii) (c : ascii) : option nat :=
  match s with
  | [] => None
  | x :: s' =>
      if is_nul x then None
      else if Ascii.eqb x c then Some O
      else option_map S (strchr s' c)
  end.

(** [strrchr s c]: offset of the last [c] in the string at [s]. *)
Fixpoint strrchr (s : list ascii) (c : ascii) : option nat :=
  match s with
  | [] => None
  | x :: s' =>
      if is_nul x then None
      else match strrchr s' c with
           | Some i => Some (S i)
           | None => if Ascii.eqb x c then Some O else None
           end
  end.

(** GNU [basename] (the one [string.h] declares): the offset just after the
    last ['/'], or 0 when there is none; the argument is not modified. *)
Definition basename (s : list ascii) : nat :=
  match strrchr s "/"%char with
  | Some i => S i
  | None => O
  end.

(** [strspn s delim] and [strcspn s delim]: length of the leading run of
    characters of the string at [s] that are (are not) in [delim]. *)
Definition is_delim (delim : list ascii) (c : ascii) : bool :=
  existsb (Ascii.eqb c) delim.
Global Arguments is_delim : simpl never.

Fixpoint strspn (s : list ascii) (delim : list ascii) : nat :=
  match s with
  | [] => O
  | c :: s' =>
      if is_nul c then O
      else if is_delim delim c then S (strspn s' delim) else O
  end.

Fixpoint strcspn (s : list ascii) (delim : list ascii) : nat :=
  match s with
  | [] => O
  | c :: s' =>
      if is_nul c then O
      else if is_delim delim c then O else S (strcspn s' delim)
  end.

(** [strtok_r] of glibc on the array [buf]; [s] is the offset the scan starts
    from (the first argument on the first call, [*save_ptr] afterwards).
    Returns the token's offset (or [None] for NULL), the array after the
    separator that ends the token has been overwritten, and the new
    [*save_ptr]. *)
Definition strtok_r (buf : list ascii) (s : nat) (delim : list ascii)
  : option nat * list ascii * nat :=
  if is_nul (char_at buf s) then (None, buf, s)
  else
    let s1 := (s + strspn (drop s buf) delim)%nat in
    if is_nul (char_at buf s1) then (None, buf, s1)
    else
      let e := (s1 + strcspn (drop s1 buf) delim)%nat in
      if is_nul (char_at buf e) then (Some s1, buf, e)
      else (Some s1, <[e := NUL]> buf, S e).

End CStr.

Import CStr.

(** Literals of the source, as character lists. *)
Definition cs (s : string) : list ascii := list_ascii_of_string s.

(** ** [path_to_modname] (lines 56-75) *)

(** The loop [for (c = modname; *c != '\0' && *c != '.'; c++)] with the
    final [*c = '\0'], on the array from [modname] on: every ['-'] met
    becomes ['_'] and the first ['.'] (or the terminator) becomes NUL. *)
Fixpoint modname_scan (s : list ascii) : list ascii :=
  match s with
  | [] => []
  | c :: s' =>
      if is_nul c then NUL :: s'
      else if Ascii.eqb c "."%char then NUL :: s'
      else (if Ascii.eqb c "-"%char then "_"%char else c) :: modname_scan s'
  end.

(** [path_to_modname(path, alloc)] where [path] points at offset [path] of
    [buf].  The result is the name returned ([None] for NULL) and the array
    afterwards: with [alloc] the name is a modified copy and the array is
    unchanged, without it the name is rewritten in the array itself. *)
Definition path_to_modname (buf : list ascii) (path : nat) (alloc : bool)
  : option (list ascii) * list ascii :=
  let modname := (path + basename (drop path buf))%nat in
  if is_nul (char_at buf modname) then (None, buf)
  else if alloc then
    (Some (cstr (modname_scan (cstr (drop modname buf) ++ [NUL]))), buf)
  else
    let buf' := take modname buf ++ modname_scan (drop modname buf) in
    (Some (cstr (drop modname buf')), buf').

(** The canonical name of a path given as a string value. *)
Definition modname_of_path (p : list ascii) : option (list ascii) :=
  fst (path_to_modname (p ++ [NUL]) 0 true).

(** The canonical form of a final path component given as a string value:
    cut at the first ['.'], every ['-'] before it turned into ['_']. *)
Fixpoint canon (t : list ascii) : list ascii :=
  match t with
  | [] => []
  | c :: t' =>
      if Ascii.eqb c "."%char then []
      else (if Ascii.eqb c "-"%char then "_"%char else c) :: canon t'
  end.

(** The name [path_to_modname] computes from a path whose string is [t]:
    none when the final component is empty, its canonical form otherwise. *)
Definition modname_spec (t : list ascii) : option (list ascii) :=
  match drop (basename t) t with
  | [] => None
  | b => Some (canon b)
  end.

(** ** Program state

    Module handles live in a heap indexed by their address; the strings a
    handle owns ([strdup]) live in a heap of their own.  The context, whose
    code is outside this file, is represented by its reference count.  Open
    file descriptors and live memory mappings are tracked as sets.  [oom]
    lists the outcomes of the allocations to come ([true]: the allocation
    fails); once the list is exhausted allocations succeed. *)

Abbreviation ptr := positive.

Record kmod_module := KmodModule {
  mod_ctx : ptr;                 (* struct kmod_ctx *ctx *)
  mod_path : option ptr;         (* const char *path *)
  mod_name : option ptr;         (* const char *name *)
  mod_dep : list ptr;            (* struct kmod_list *dep; NULL is [] *)
  mod_refcount : Z;              (* int refcount *)
  mod_init_dep : bool            (* init.dep *)
}.

Record world := World {
  mods : gmap positive kmod_module;
  strs : gmap positive (list ascii);
  ctxs : gmap positive Z;
  fds : gset positive;
  maps : gmap positive Z;
  oom : list bool
}.

Definition set_mods (f : gmap positive kmod_module → gmap positive kmod_module)
  (w : world) : world :=
  World (f (mods w)) (strs w) (ctxs w) (fds w) (maps w) (oom w).
Definition set_strs (f : gmap positive (list ascii) → gmap positive (list ascii))
  (w : world) : world :=
  World (mods w) (f (strs w)) (ctxs w) (fds w) (maps w) (oom w).
Definition set_ctxs (f : gmap positive Z → gmap positive Z) (w : world) : world :=
  World (mods w) (strs w) (f (ctxs w)) (fds w) (maps w) (oom w).
Definition set_fds (f : gset positive → gset positive) (w : world) : world :=
  World (mods w) (strs w) (ctxs w) (f (fds w)) (maps w) (oom w).
Definition set_maps (f : gmap positive Z → gmap positive Z) (w : world) : world :=
  World (mods w) (strs w) (ctxs w) (fds w) (f (maps w)) (oom w).
Definition set_oom (f : list bool → list bool) (w : world) : world :=
  World (mods w) (strs w) (ctxs w) (fds w) (maps w) (f (oom w)).

Definition set_refcount (r : Z) (m : kmod_module) : kmod_module :=
  KmodModule (mod_ctx m) (mod_path m) (mod_name m) (mod_dep m) r (mod_init_dep m).
Definition set_dep (l : list ptr) (m : kmod_module) : kmod_module :=
  KmodModule (mod_ctx m) (mod_path m) (mod_name m) l (mod_refcount m) (mod_init_dep m).
Definition set_init_dep (b : bool) (m : kmod_module) : kmod_module :=
  KmodModule (mod_ctx m) (mod_path m) (mod_name m) (mod_dep m) (mod_refcount m) b.
Definition set_name (n : option ptr) (m : kmod_module) : kmod_module :=
  KmodModule (mod_ctx m) (mod_path m) n (mod_dep m) (mod_refcount m) (mod_init_dep m).

(** What C leaves undefined, or aborts on. *)
Inductive fault :=
  | UseAfterFree      (* access through a pointer that is not live *)
  | NullDeref         (* access through NULL *)
  | OutOfBounds       (* write outside an array *)
  | AssertionFailed   (* assert() *)
  | OutOfFuel.        (* the recursion did not end within its bound *)

Inductive result (A : Type) :=
  | Ok (a : A) (w : world)
  | Crash (f : fault).
Arguments Ok {A} a w.
Arguments Crash {A} f.

Definition M (A : Type) : Type := world → result A.

Definition ret {A} (a : A) : M A := λ w, Ok a w.
Definition bind {A B} (c : M A) (k : A → M B) : M B :=
  λ w, match c w with
       | Ok a w' => k a w'
       | Crash f => Crash f
       end.
Definition crash {A} (f : fault) : M A := λ _, Crash f.
Definition modify (f : world → world) : M unit := λ w, Ok tt (f w).

Notation "'do' x <- c ; k" := (bind c (λ x, k))
  (at level 10, x name, c at level 100, k at level 200).
Notation "c ;; k" := (bind c (λ _, k))
  (at level 100, k at level 200, right associativity).

(** *** Allocation *)

(** Outcome of the next allocation. *)
Definition alloc_fails : M bool :=
  λ w, Ok (hd false (oom w)) (set_oom (drop 1) w).

(** [strdup]: a fresh string cell holding a copy, or NULL. *)
Definition strdup (s : list ascii) : M (option ptr) :=
  do b <- alloc_fails;
  if (b : bool) then ret None
  else λ w, let q := fresh (dom (strs w)) in
            Ok (Some q) (set_strs <[q := s]> w).

(** [free] of a string; [free(NULL)] does nothing. *)
Definition free_str (q : option ptr) : M unit :=
  match q with
  | None => ret tt
  | Some q => λ w, match strs w !! q with
                   | Some _ => Ok tt (set_strs (delete q) w)
                   | None => Crash UseAfterFree
                   end
  end.

(** [calloc(1, sizeof(struct kmod_module))]: the address of a fresh cell,
    or NULL.  The cell is entered in the heap by [store_mod] once its
    fields are set. *)
Definition calloc_mod : M (option ptr) :=
  do b <- alloc_fails;
  if (b : bool) then ret None
  else λ w, Ok (Some (fresh (dom (mods w)))) w.

Definition load_mod (p : ptr) : M kmod_module :=
  λ w, match mods w !! p with
       | Some m => Ok m w
       | None => Crash UseAfterFree
       end.

Definition store_mod (p : ptr) (m : kmod_module) : M unit :=
  modify (set_mods <[p := m]>).

Definition free_mod (p : ptr) : M unit := modify (set_mods (delete p)).

(** *** The context's reference count

    Modelled from the spec: [kmod_ref] and [kmod_unref] belong to
    [libkmod.c], which is not part of the sources at hand; the spec says of
    the context that it is reference-counted independently of the handles.
    A context that is absent from [ctxs] has count 0. *)
Definition ctx_count (w : world) (c : ptr) : Z := default 0 (ctxs w !! c).

Definition kmod_ref (c : ptr) : M ptr :=
  λ w, Ok c (set_ctxs <[c := ctx_count w c + 1]> w).

Definition kmod_unref (c : ptr) : M unit :=
  λ w, let r := ctx_count w c - 1 in
       if 0 <? r then Ok tt (set_ctxs <[c := r]> w)
       else Ok tt (set_ctxs (delete c) w).

(** *** The list container

    Modelled from the spec: [kmod_list_append] belongs to [libkmod-list.c],
    which is not part of the sources at hand.  The spec describes an ordered
    container with FIFO iteration and a stable head pointer; the callers at
    lines 485-491 and 561-567 test its result against NULL and report
    "out of memory", so the node allocation can fail, and then the result
    is NULL whatever the list was. *)
Definition kmod_list_append {A} (l : list A) (x : A) : M (option (list A)) :=
  do b <- alloc_fails;
  if (b : bool) then ret None else ret (Some (l ++ [x])).

(** ** Construction and reference counting (lines 130-210, 258-264) *)

Definition kmod_module_new_from_name (ctx : option ptr) (name : option (list ascii))
  : M (Z * option ptr) :=
  match ctx, name with
  | Some c, Some n =>
      do m <- calloc_mod;
      match m with
      | None => ret (- ENOMEM, None)
      | Some m =>
          do c' <- kmod_ref c;
          do s <- strdup n;
          store_mod m (KmodModule c' None s [] 1 false);;
          ret (0, Some m)
      end
  | _, _ => ret (- ENOENT, None)
  end.

(** [stat(path, &st)] is the environment's: [None] when it succeeds,
    [Some e] when it fails with [errno = e]. *)
Definition kmod_module_new_from_path (stat : list ascii → option Z)
  (ctx : option ptr) (path : option (list ascii)) : M (Z * option ptr) :=
  match ctx, path with
  | Some c, Some p =>
      match stat p with
      | Some e => ret (- e, None)
      | None =>
          do m <- calloc_mod;
          match m with
          | None => ret (- ENOMEM, None)
          | Some m =>
              do c' <- kmod_ref c;
              do s <- strdup p;
              store_mod m (KmodModule c' s None [] 1 false);;
              ret (0, Some m)
          end
      end
  | _, _ => ret (- ENOENT, None)
  end.

(** [kmod_module_unref_list], over the function that releases one handle. *)
Fixpoint unref_list_with (unref : ptr → M (option ptr)) (l : list ptr) : M Z :=
  match l with
  | [] => ret 0
  | d :: l' => unref d;; unref_list_with unref l'
  end.

(** [kmod_module_unref] on a non-NULL handle.  The function and
    [kmod_module_unref_list] call each other; [fuel] bounds the depth of
    that recursion. *)
Fixpoint unref_fuel (fuel : nat) (p : ptr) : M (option ptr) :=
  match fuel with
  | O => crash OutOfFuel
  | S fuel' =>
      do m <- load_mod p;
      let r := wrap_int (mod_refcount m - 1) in
      store_mod p (set_refcount r m);;
      if 0 <? r then ret (Some p)
      else
        unref_list_with (unref_fuel fuel') (mod_dep m);;
        kmod_unref (mod_ctx m);;
        free_str (mod_path m);;
        free_str (mod_name m);;
        free_mod p;;
        ret None
  end.

(** A chain of nested destructions runs through handles that are live and
    pairwise different, unless a handle is reached again while it is being
    destroyed, in which case the C recursion does not end either.  Its
    length is therefore at most the number of live handles, which is the
    bound given to the release of a list; the release of one handle has one
    more round for the handle itself. *)
Definition unref_depth (w : world) : nat := size (mods w).

Definition kmod_module_unref (md : option ptr) : M (option ptr) :=
  match md with
  | None => ret None
  | Some p => λ w, unref_fuel (S (unref_depth w)) p w
  end.

Definition kmod_module_unref_list (l : list ptr) : M Z :=
  λ w, unref_list_with (unref_fuel (unref_depth w)) l w.

Definition kmod_module_ref (md : option ptr) : M (option ptr) :=
  match md with
  | None => ret None
  | Some p =>
      do m <- load_mod p;
      store_mod p (set_refcount (wrap_int (mod_refcount m + 1)) m);;
      ret (Some p)
  end.

(** ** [kmod_module_parse_dep] (lines 85-128) *)

(** The separators handed to [strtok_r]: space and tab. *)
Definition dep_delim : list ascii := [" "%char; "009"%char].

(** How the token loop is left: through its end, with the list built and
    the count, or through [goto fail], with the error and the list built so
    far. *)
Inductive loop_exit :=
  | LoopDone (lst : list ptr) (n : Z)
  | LoopFail (err : Z) (lst : list ptr).

(** The [for] loop over the tokens.  [save] is [saveptr] (on entry the
    pointer just after the colon), [lst] and [n] the locals [list] and [n]; the array is threaded through because [strtok_r] and the
    non-allocating [path_to_modname] write into it.  Every round moves
    [save] forward, so [fuel] above the array's length is never used up. *)
Fixpoint parse_dep_loop (fuel : nat) (ctx : ptr) (buf : list ascii) (save : nat)
  (lst : list ptr) (n : Z) : M (loop_exit * list ascii) :=
  match fuel with
  | O => crash OutOfFuel
  | S fuel' =>
      let '(p, buf1, save1) := strtok_r buf save dep_delim in
      match p with
      | None => ret (LoopDone lst n, buf1)
      | Some p =>
          let '(modname, buf2) := path_to_modname buf1 p false in
          do r <- kmod_module_new_from_name (Some ctx) modname;
          if fst r <? 0 then ret (LoopFail (fst r) lst, buf2)
          else
            match snd r with
            | None => crash NullDeref
            | Some depmod =>
                do l <- kmod_list_append lst depmod;
                parse_dep_loop fuel' ctx buf2 save1 (default [] l) (wrap_int (n + 1))
            end
      end
  end.

Definition kmod_module_parse_dep (md : ptr) (line : list ascii) : M (Z * list ascii) :=
  do m <- load_mod md;
  if mod_init_dep m || negb (bool_decide (mod_dep m = [])) then crash AssertionFailed
  else
    store_mod md (set_init_dep true m);;
    match strchr line ":"%char with
    | None => ret (0, line)
    | Some i =>
        do r <- parse_dep_loop (S (length line)) (mod_ctx m) line (S i) [] 0;
        match r with
        | (LoopDone lst n, buf) =>
            do m' <- load_mod md;
            store_mod md (set_dep lst m');;
            ret (n, buf)
        | (LoopFail err lst, buf) =>
            kmod_module_unref_list lst;;
            do m' <- load_mod md;
            store_mod md (set_init_dep false m');;
            ret (err, buf)
        end
    end.

(** The name a handle carries, read through the two heaps. *)
Definition handle_name (w : world) (h : ptr) : option (list ascii) :=
  m ← mods w !! h; q ← mod_name m; strs w !! q.

(** *** The dependency line as the specification describes it

    The text after the first colon, cut at spaces and tabs, empty pieces
    dropped.  [tokens_from acc l] has [acc] as the piece being read. *)
Fixpoint tokens_from (acc : list ascii) (l : list ascii) : list (list ascii) :=
  match l with
  | [] => match acc with [] => [] | _ => [acc] end
  | c :: l' =>
      if is_delim dep_delim c
      then match acc with
           | [] => tokens_from [] l'
           | _ => acc :: tokens_from [] l'
           end
      else tokens_from (acc ++ [c]) l'
  end.

Definition tokens (l : list ascii) : list (list ascii) := tokens_from [] l.

(** The text after the first colon of a line, when there is one. *)
Fixpoint after_colon (l : list ascii) : option (list ascii) :=
  match l with
  | [] => None
  | c :: l' => if Ascii.eqb c ":"%char then Some l' else after_colon l'
  end.

(** ** [kmod_module_new_from_lookup] (lines 212-254) *)

Inductive lookup_source := FromConfig | FromModdep | FromSymbols | FromAliases.

Definition is_nil {A} (l : list A) : bool :=
  match l with [] => true | _ => false end.

Section Lookup.

(** The four [kmod_lookup_alias_from_*] functions live in [libkmod.c] and
    are taken as given: [source s ctx alias l] is the call of source [s]
    with [*list = l]; it returns [err] and the new [*list], and may change
    the state.  Handles it creates are entered in the heap. *)
Variable source : lookup_source → ptr → list ascii → list ptr → M (Z * list ptr).

(** The locals once the lookup returns: what it returns, [*list], and the
    sources that were called, in the order of their calls. *)
Definition lookup_outcome : Type := Z * list ptr * list lookup_source.

(** The macro [CHECK_ERR_AND_FINISH] applied to the result [r] of the
    source called last; [called] are the sources called so far and [next]
    is the code that follows the macro. *)
Definition CHECK_ERR_AND_FINISH (r : Z * list ptr) (called : list lookup_source)
  (next : M lookup_outcome) : M lookup_outcome :=
  if fst r <? 0 then
    (* fail: *)
    kmod_module_unref_list (snd r);;
    ret (fst r, [], called)
  else if negb (is_nil (snd r)) then
    (* finish: *)
    ret (fst r, snd r, called)
  else next.

(** [list] is [None] for a NULL [struct kmod_list **], [Some l] when it
    points to a list variable holding [l]. *)
Definition kmod_module_new_from_lookup (ctx : option ptr)
  (alias : option (list ascii)) (lst : option (list ptr)) : M lookup_outcome :=
  match ctx, alias with
  | Some c, Some a =>
      match lst with
      | Some [] =>
          do r1 <- source FromConfig c a [];
          CHECK_ERR_AND_FINISH r1 [FromConfig] (
          do r2 <- source FromModdep c a (snd r1);
          CHECK_ERR_AND_FINISH r2 [FromConfig; FromModdep] (
          do r3 <- source FromSymbols c a (snd r2);
          CHECK_ERR_AND_FINISH r3 [FromConfig; FromModdep; FromSymbols] (
          do r4 <- source FromAliases c a (snd r3);
          CHECK_ERR_AND_FINISH r4 [FromConfig; FromModdep; FromSymbols; FromAliases] (
          (* finish: *)
          ret (fst r4, snd r4, [FromConfig; FromModdep; FromSymbols; FromAliases])))))
      | _ => ret (- ENOSYS, default [] lst, [])
      end
  | _, _ => ret (- ENOENT, default [] lst, [])
  end.

End Lookup.

(** ** [get_modname], [kmod_module_remove_module], [kmod_module_insert_module]
    (lines 77-83, 297-363) *)

Definition load_str (q : ptr) : M (list ascii) :=
  λ w, match strs w !! q with
       | Some s => Ok s w
       | None => Crash UseAfterFree
       end.

(** The name as a string value, [None] for NULL. *)
Definition get_modname (md : ptr) : M (option (list ascii)) :=
  do m <- load_mod md;
  match mod_name m with
  | Some q => do s <- load_str q; ret (Some s)
  | None =>
      match mod_path m with
      | None => crash NullDeref            (* basename(NULL) *)
      | Some pq =>
          do path <- load_str pq;
          match fst (path_to_modname (path ++ [NUL]) 0 true) with
          | None => ret None
          | Some n =>
              (* the strdup inside path_to_modname; its result is written
                 through without a test *)
              do q <- strdup n;
              match q with
              | None => crash NullDeref
              | Some q =>
                  store_mod md (set_name (Some q) m);;
                  ret (Some n)
              end
          end
      end
  end.

Section Kernel.

(** Modelled from the spec: [KMOD_REMOVE_FORCE] and [KMOD_REMOVE_NOWAIT]
    are declared in [libkmod.h], which is not part of the sources at hand;
    the spec calls them the recognized force and no-wait bits. *)
Variables KMOD_REMOVE_FORCE KMOD_REMOVE_NOWAIT : Z.

(** The [delete_module] system call, on a name ([None] for NULL) and the
    flags. *)
Variable delete_module : option (list ascii) → Z → Z.

Definition kmod_module_remove_module (md : option ptr) (flags : Z) : M Z :=
  match md with
  | None => ret (- ENOENT)
  | Some p =>
      let flags := Z.land flags (Z.lor KMOD_REMOVE_FORCE KMOD_REMOVE_NOWAIT) in
      do modname <- get_modname p;
      let err := wrap_int (delete_module modname flags) in
      if negb (err =? 0) then ret err else ret 0
  end.

(** What the system answers during one [kmod_module_insert_module]:
    [open] ([None]: a descriptor; [Some e]: failure with [errno = e]),
    the size [fstat] reports, [mmap] likewise, and what [init_module]
    returns for the mapped image. *)
Record insert_env := InsertEnv {
  open_errno : option Z;
  st_size : Z;
  mmap_errno : option Z;
  init_module : Z
}.

Definition sys_open : M ptr :=
  λ w, let fd := fresh (fds w) in Ok fd (set_fds (λ s, {[fd]} ∪ s) w).
Definition sys_close (fd : ptr) : M unit :=
  modify (set_fds (λ s, s ∖ {[fd]})).
Definition sys_mmap (len : Z) : M ptr :=
  λ w, let a := fresh (dom (maps w)) in Ok a (set_maps <[a := len]> w).
Definition sys_munmap (a : ptr) (len : Z) : M unit :=
  λ w, match maps w !! a with
       | Some l => if l =? len then Ok tt (set_maps (delete a) w) else Ok tt w
       | None => Ok tt w
       end.

Definition kmod_module_insert_module (env : insert_env) (md : option ptr)
  (flags : Z) : M Z :=
  match md with
  | None => ret (- ENOENT)
  | Some p =>
      do m <- load_mod p;
      match mod_path m with
      | None => ret (- ENOSYS)
      | Some pq =>
          do path <- load_str pq;
          match open_errno env with
          | Some e => ret (- e)
          | None =>
              do fd <- sys_open;
              match mmap_errno env with
              | Some e => sys_close fd;; ret (- e)
              | None =>
                  do mmaped_file <- sys_mmap (st_size env);
                  let err := wrap_int (init_module env) in
                  sys_munmap mmaped_file (st_size env);;
                  sys_close fd;;
                  ret err
              end
          end
      end
  end.

End Kernel.

(** ** The sysfs readers (lines 365-573) *)

(** Modelled from the spec: [enum kmod_module_initstate] is declared in
    [libkmod.h], which is not part of the sources at hand.  The spec names
    the four states; they are numbered from 0 in the order in which
    [kmod_module_initstate_str] (lines 365-379) lists them. *)
Inductive kmod_module_initstate :=
  | KMOD_MODULE_BUILTIN
  | KMOD_MODULE_LIVE
  | KMOD_MODULE_COMING
  | KMOD_MODULE_GOING.

Definition initstate_code (s : kmod_module_initstate) : Z :=
  match s with
  | KMOD_MODULE_BUILTIN => 0
  | KMOD_MODULE_LIVE => 1
  | KMOD_MODULE_COMING => 2
  | KMOD_MODULE_GOING => 3
  end.

Definition kmod_module_initstate_str (state : Z) : option (list ascii) :=
  if state =? initstate_code KMOD_MODULE_BUILTIN then Some (cs "builtin")
  else if state =? initstate_code KMOD_MODULE_LIVE then Some (cs "live")
  else if state =? initstate_code KMOD_MODULE_COMING then Some (cs "coming")
  else if state =? initstate_code KMOD_MODULE_GOING then Some (cs "going")
  else None.

(** What one section file gives: [openat] fails, or the file is opened and
    [read_str_ulong] returns [err] and, when [err] is not negative, leaves
    [address] in its output. *)
Inductive section_read :=
  | SectionOpenFails (errno : Z)
  | SectionOpened (err : Z) (address : Z).

Definition LF : ascii := "010"%char.

(** The file system under [/sys/module] as the calls see it.
    - [fs_open p]: [open(p, O_RDONLY)]; [None] for a descriptor, [Some e]
      for a failure with [errno = e].
    - [fs_read_str p]: what [read_str_safe] (of [libkmod-util.c], taken as
      given) returns on the open file and the characters it leaves in [buf].
    - [fs_stat p]: [None] when [stat] fails, else whether [S_ISDIR] holds.
    - [fs_opendir p]: [None] when [opendir] fails, else the names [readdir]
      returns, in its order.
    - [fs_section d e]: [openat] and [read_str_ulong] (also taken as given)
      on entry [e] of directory [d]. *)
Record sysfs := Sysfs {
  fs_open : list ascii → option Z;
  fs_read_str : list ascii → Z * list ascii;
  fs_stat : list ascii → option bool;
  fs_opendir : list ascii → option (list (list ascii));
  fs_section : list ascii → list ascii → section_read
}.

(** [snprintf(buf, PATH_MAX, "/sys/module/%s/<entry>", name)]: the length it
    returns and the string it leaves in the array. *)
Definition sysfs_path (name : list ascii) (entry : string) : nat * list ascii :=
  let full := cs "/sys/module/" ++ name ++ cs entry in
  (length full, take (PATH_MAX - 1) full).

(** [mod->name] as the [%s] argument.  A NULL pointer there is undefined in
    C; it is a fault here. *)
Definition name_arg (m : kmod_module) : M (list ascii) :=
  match mod_name m with
  | None => crash NullDeref
  | Some q => load_str q
  end.

Definition kmod_module_get_initstate (fs : sysfs) (md : ptr) : M Z :=
  do m <- load_mod md;
  do name <- name_arg m;
  let '(pathlen, path) := sysfs_path name "/initstate" in
  match fs_open fs path with
  | Some errno =>
      let err := - errno in
      let suffix := length (cs "/initstate") in
      let builtin_check (path : list ascii) : M Z :=
        match fs_stat fs path with
        | Some true => ret (initstate_code KMOD_MODULE_BUILTIN)
        | _ => ret err
        end in
      if (suffix <? pathlen)%nat then
        let i := (pathlen - suffix)%nat in
        if (PATH_MAX <=? i)%nat then crash OutOfBounds
        else builtin_check (cstr (<[i := NUL]> (path ++ [NUL])))
      else ret err
  | None =>
      do fd <- sys_open;
      let '(err, buf) := fs_read_str fs path in
      sys_close fd;;
      if err <? 0 then ret err
      else if bool_decide (cstr buf = cs "live" ++ [LF])
      then ret (initstate_code KMOD_MODULE_LIVE)
      else if bool_decide (cstr buf = cs "coming" ++ [LF])
      then ret (initstate_code KMOD_MODULE_COMING)
      else if bool_decide (cstr buf = cs "going" ++ [LF])
      then ret (initstate_code KMOD_MODULE_GOING)
      else ret (- EINVAL)
  end.

(** The test on [de->d_name] that skips ["."] and [".."]. *)
Definition is_dot_entry (d_name : list ascii) : bool :=
  Ascii.eqb (char_at d_name 0) "."%char &&
  (is_nul (char_at d_name 1) ||
   (Ascii.eqb (char_at d_name 1) "."%char && is_nul (char_at d_name 2))).

(** The [while ((de = readdir(d)) != NULL)] loop of
    [kmod_module_get_holders], over the entries still to come. *)
Fixpoint holders_loop (ctx : ptr) (entries : list (list ascii)) (lst : list ptr)
  : M (list ptr) :=
  match entries with
  | [] => ret lst
  | d_name :: rest =>
      if is_dot_entry d_name then holders_loop ctx rest lst
      else
        do r <- kmod_module_new_from_name (Some ctx) (Some d_name);
        if fst r <? 0 then holders_loop ctx rest lst
        else
          match snd r with
          | None => crash NullDeref
          | Some holder =>
              do node <- kmod_list_append lst holder;
              match node with
              | Some l' => holders_loop ctx rest l'
              | None => kmod_module_unref (Some holder);; holders_loop ctx rest lst
              end
          end
  end.

Definition kmod_module_get_holders (fs : sysfs) (md : option ptr) : M (list ptr) :=
  match md with
  | None => ret []
  | Some p =>
      do m <- load_mod p;
      do name <- name_arg m;
      let dname := snd (sysfs_path name "/holders") in
      match fs_opendir fs dname with
      | None => ret []
      | Some entries =>
          do d <- sys_open;
          do l <- holders_loop (mod_ctx m) entries [];
          sys_close d;;
          ret l
      end
  end.

Record kmod_module_section := KmodSection {
  sec_address : Z;               (* unsigned long address *)
  sec_name : list ascii          (* char name[] *)
}.

(** [malloc] for a section; NULL is written through without a test. *)
Definition malloc_section (address : Z) (name : list ascii) : M kmod_module_section :=
  do b <- alloc_fails;
  if (b : bool) then crash NullDeref else ret (KmodSection address name).

Fixpoint sections_loop (fs : sysfs) (dname : list ascii) (entries : list (list ascii))
  (lst : list kmod_module_section) : M (list kmod_module_section) :=
  match entries with
  | [] => ret lst
  | d_name :: rest =>
      if is_dot_entry d_name then sections_loop fs dname rest lst
      else
        match fs_section fs dname d_name with
        | SectionOpenFails _ => sections_loop fs dname rest lst
        | SectionOpened err address =>
            do fd <- sys_open;
            if err <? 0 then sys_close fd;; sections_loop fs dname rest lst
            else
              do section <- malloc_section address d_name;
              do node <- kmod_list_append lst section;
              sys_close fd;;
              sections_loop fs dname rest (default lst node)
        end
  end.

Definition kmod_module_get_sections (fs : sysfs) (md : option ptr)
  : M (list kmod_module_section) :=
  match md with
  | None => ret []
  | Some p =>
      do m <- load_mod p;
      do name <- name_arg m;
      let dname := snd (sysfs_path name "/sections") in
      match fs_opendir fs dname with
      | None => ret []
      | Some entries =>
          do d <- sys_open;
          do l <- sections_loop fs dname entries [];
          sys_close d;;
          ret l
      end
  end.

(** ** Sample states and environments *)

(** One context, at address 1 with count 2, and one handle, at address 10,
    named ["mod"], with count 1; [plan] lists the allocation outcomes. *)
Definition sample_world (plan : list bool) : world :=
  World {[10%positive := KmodModule 1 None (Some 5%positive) [] 1 false]}
        {[5%positive := cs "mod"]}
        {[1%positive := 2]} ∅ ∅ plan.

(** The next [k] allocations succeed. *)
Definition allocs_ok (k : nat) (w : world) : Prop :=
  forallb negb (take k (oom w)) = true.

(** ** The lookup as the specification describes it *)

(** The order in which the sources are consulted. *)
Definition lookup_order : list lookup_source :=
  [FromConfig; FromModdep; FromSymbols; FromAliases].

(** [sources_empty source c a srcs w w']: called one after the other from
    state [w], every source of [srcs] returns without error and without an
    entry, and the state is then [w']. *)
Inductive sources_empty (source : lookup_source → ptr → list ascii → list ptr → M (Z * list ptr))
  (c : ptr) (a : list ascii) : list lookup_source → world → world → Prop :=
  | sources_empty_nil w : sources_empty source c a [] w w
  | sources_empty_cons s rest w e w1 w2 :
      source s c a [] w = Ok (e, []) w1 →
      0 ≤ e →
      sources_empty source c a rest w1 w2 →
      sources_empty source c a (s :: rest) w w2.

(** A sample set of sources: the symbols file knows the alias and yields one
    handle of that name, the others yield nothing. *)
Definition sample_source (s : lookup_source) (c : ptr) (alias : list ascii)
  (l : list ptr) : M (Z * list ptr) :=
  match s with
  | FromSymbols =>
      do r <- kmod_module_new_from_name (Some c) (Some alias);
      match snd r with
      | Some h => ret (0, l ++ [h])
      | None => ret (fst r, l)
      end
  | _ => ret (0, l)
  end.

(** A set of sources whose second one fails after it has put a handle in
    the list, and a set of sources that know nothing. *)
Definition failing_source (s : lookup_source) (c : ptr) (alias : list ascii)
  (l : list ptr) : M (Z * list ptr) :=
  match s with
  | FromConfig => ret (0, l)
  | _ =>
      do r <- kmod_module_new_from_name (Some c) (Some alias);
      match snd r with
      | Some h => ret (- ENOMEM, l ++ [h])
      | None => ret (fst r, l)
      end
  end.

Definition empty_source (s : lookup_source) (c : ptr) (alias : list ascii)
  (l : list ptr) : M (Z * list ptr) := ret (0, l).

(** A file system in which every [open] is refused with [EACCES] (the files
    are there but may not be read) and every path is a directory; and one in
    which the [initstate] file reads ["live\n"]. *)
Definition eacces_fs : sysfs :=
  Sysfs (λ _, Some EACCES) (λ _, (0, [])) (λ _, Some true) (λ _, None)
        (λ _ _, SectionOpenFails EACCES).

Definition live_fs : sysfs :=
  Sysfs (λ _, None) (λ _, (5, cs "live" ++ [LF; NUL])) (λ _, Some true) (λ _, None)
        (λ _ _, SectionOpenFails EACCES).

(** A handle made from a path, and an image the kernel refuses. *)
Definition sample_path_world : world :=
  World {[10%positive := KmodModule 1 (Some 5%positive) None [] 1 false]}
        {[5%positive := cs "/lib/modules/foo-bar.ko"]}
        {[1%positive := 2]} {[1%positive]} ∅ [].

Definition refusing_kernel : insert_env := InsertEnv None 4096 None (- 8).

(** The state after a successful [kmod_module_new_from_name (Some c) (Some n)]:
    a handle at a fresh address, its name in a fresh string cell, one more
    reference on the context, two allocations used up. *)
Definition add_handle (c : ptr) (n : list ascii) (w : world) : world :=
  World (<[fresh (dom (mods w)) :=
             KmodModule c None (Some (fresh (dom (strs w)))) [] 1 false]> (mods w))
        (<[fresh (dom (strs w)) := n]> (strs w))
        (<[c := ctx_count w c + 1]> (ctxs w))
        (fds w) (maps w) (drop 2 (oom w)).

(** ** Handles that a list owns alone *)

(** [releasable lst ms ss]: in the heaps [ms] and [ss], the handles of [lst]
    can be released one after the other, each being live with count 1,
    without dependencies or path, and with a name that is NULL or live at
    the time the handle is reached. *)
Fixpoint releasable (lst : list ptr) (ms : gmap positive kmod_module)
  (ss : gmap positive (list ascii)) : Prop :=
  match lst with
  | [] => True
  | h :: l =>
      ∃ m, ms !! h = Some m ∧ mod_refcount m = 1 ∧ mod_dep m = [] ∧
           mod_path m = None ∧
           (∀ q, mod_name m = Some q → is_Some (ss !! q)) ∧
           releasable l (delete h ms) (from_option delete id (mod_name m) ss)
  end.

(** The list a loop exit carries. *)
Definition exit_list (e : loop_exit) : list ptr :=
  match e with
  | LoopDone lst _ => lst
  | LoopFail _ lst => lst
  end.

(** ** The enumerations as the specification describes them *)

(** The entries an enumeration looks at: all but ["."] and [".."]. *)
Definition real_entries (entries : list (list ascii)) : list (list ascii) :=
  filter (λ e, is_dot_entry e = false) entries.

(** The section an entry gives, if its file opens and its contents parse. *)
Definition section_of (fs : sysfs) (dname d_name : list ascii)
  : option kmod_module_section :=
  if is_dot_entry d_name then None
  else match fs_section fs dname d_name with
       | SectionOpenFails _ => None
       | SectionOpened err address =>
           if err <? 0 then None else Some (KmodSection address d_name)
       end.

(** A directory of three entries, besides ["."] and [".."], of which the
    second cannot be read. *)
Definition three_entries : list (list ascii) :=
  [cs "."; cs ".."; cs ".text"; cs ".data"; cs ".bss"].

Definition sample_sections_fs : sysfs :=
  Sysfs (λ _, Some ENOENT) (λ _, (0, []))
        (λ _, None)
        (λ _, Some three_entries)
        (λ _ e, if bool_decide (e = cs ".data") then SectionOpened (- EINVAL) 0
                else if bool_decide (e = cs ".text") then SectionOpened 0 4096
                else SectionOpened 0 8192).

Definition no_dir_fs : sysfs :=
  Sysfs (λ _, Some ENOENT) (λ _, (0, [])) (λ _, None) (λ _, None)
        (λ _ _, SectionOpenFails ENOENT).

(** [owned c lst qs ms ss]: the handles of [lst] are as
    [kmod_module_new_from_name] makes them for the context [c], with their
    names in the string cells [qs], and can be released one after the
    other. *)
Fixpoint owned (c : ptr) (lst qs : list ptr) (ms : gmap positive kmod_module)
  (ss : gmap positive (list ascii)) : Prop :=
  match lst, qs with
  | [], [] => True
  | h :: l, q :: qs' =>
      ms !! h = Some (KmodModule c None (Some q) [] 1 false) ∧
      is_Some (ss !! q) ∧
      owned c l qs' (delete h ms) (delete q ss)
  | _, _ => False
  end.

(** ** The accessors (lines 266-292) and [kmod_module_get_refcnt]
    (lines 423-447) *)

(** [kmod_module_get_dependency]: the handle's own list; no count is raised
    ("We don't increase the refcount"). *)
Definition kmod_module_get_dependency (md : ptr) : M (list ptr) :=
  do m <- load_mod md; ret (mod_dep m).

(** A list entry is [None] for NULL, and else stands for the handle in
    [entry->data]. *)
Definition kmod_module_get_module (entry : option ptr) : M (option ptr) :=
  match entry with
  | None => ret None
  | Some d => kmod_module_ref (Some d)
  end.

(** The two string accessors return the pointers the handle holds. *)
Definition kmod_module_get_name (md : ptr) : M (option ptr) :=
  do m <- load_mod md; ret (mod_name m).

Definition kmod_module_get_path (md : ptr) : M (option ptr) :=
  do m <- load_mod md; ret (mod_path m).

(** [read_str_long] belongs to [libkmod-util.c] and is taken as given:
    [read_long p] is what it returns on the open file [p] and the value it
    leaves in [refcnt].  The final [(int)refcnt] keeps the low 32 bits. *)
Definition kmod_module_get_refcnt (fs : sysfs) (read_long : list ascii → Z * Z)
  (md : ptr) : M Z :=
  do m <- load_mod md;
  do name <- name_arg m;
  let path := snd (sysfs_path name "/refcnt") in
  match fs_open fs path with
  | Some errno => ret (- errno)
  | None =>
      do fd <- sys_open;
      let '(err, refcnt) := read_long path in
      sys_close fd;;
      if err <? 0 then ret err else ret (wrap_int refcnt)
  end.

(** A handle, at address 10, whose dependency list holds the handle at
    address 11, on which someone else holds a reference as well. *)
Definition shared_dep_world : world :=
  World {[10%positive := KmodModule 1 None (Some 5%positive) [11%positive] 1 true;
          11%positive := KmodModule 1 None (Some 6%positive) [] 2 false]}
        {[5%positive := cs "mod"; 6%positive := cs "dep"]}
        {[1%positive := 3]} ∅ ∅ [].

(** The same two handles when the dependency is held by the list alone, as
    [kmod_module_parse_dep] leaves it. *)
Definition owned_dep_world : world :=
  World {[10%positive := KmodModule 1 None (Some 5%positive) [11%positive] 1 true;
          11%positive := KmodModule 1 None (Some 6%positive) [] 1 false]}
        {[5%positive := cs "mod"; 6%positive := cs "dep"]}
        {[1%positive := 3]} ∅ ∅ [].

(** A handle whose name has [PATH_MAX - 12] characters. *)
Definition long_name_world : world :=
  World {[10%positive := KmodModule 1 None (Some 5%positive) [] 1 false]}
        {[5%positive := replicate (PATH_MAX - 12) "a"%char]}
        {[1%positive := 2]} ∅ ∅ [].

(** ** What an enumeration of holders has made

    [made_by_loop c w l w']: between the states [w] and [w'] the handles of
    [l], and nothing else, have been made for the context [c]: they are new
    and pairwise different, each has count 1 and a name that is NULL or a
    new string; every other handle and every string of [w] is as it was;
    every new string is the name of one of them; the context has one more
    reference per handle; descriptors and mappings are as they were. *)
Definition made_by_loop (c : ptr) (w : world) (l : list ptr) (w' : world) : Prop :=
  NoDup l ∧
  (∀ h, h ∈ l →
     mods w !! h = None ∧
     ∃ nm, mods w' !! h = Some (KmodModule c None nm [] 1 false) ∧
           ∀ q, nm = Some q → strs w !! q = None ∧ is_Some (strs w' !! q)) ∧
  (∀ h, h ∉ l → mods w' !! h = mods w !! h) ∧
  (∀ q s, strs w !! q = Some s → strs w' !! q = Some s) ∧
  (∀ q, strs w !! q = None → is_Some (strs w' !! q) →
     ∃ h, h ∈ l ∧ mod_name <$> mods w' !! h = Some (Some q)) ∧
  ctx_count w' c = ctx_count w c + Z.of_nat (length l) ∧
  (∀ c', c' ≠ c → ctxs w' !! c' = ctxs w !! c') ∧
  fds w' = fds w ∧ maps w' = maps w.

(** ** What the parser may write

    [written_over c c']: the character [c] of the caller's array is found as
    [c'] afterwards: unchanged, or a separator or a ['.'] overwritten with
    NUL, or a ['-'] turned into ['_']. *)
Definition written_over (c c' : ascii) : Prop :=
  c = c' ∨
  (c' = NUL ∧ (c = "."%char ∨ is_delim dep_delim c = true)) ∨
  (c = "-"%char ∧ c' = "_"%char).

(** ** The section accessors (lines 575-591)

    A list entry is [None] for NULL, and else stands for the section in
    [entry->data].  [ULONG_MAX] is the value of [(unsigned long)-1], which
    depends on the width of [unsigned long]. *)
Definition kmod_module_section_get_name (entry : option kmod_module_section)
  : option (list ascii) :=
  match entry with
  | None => None
  | Some section => Some (sec_name section)
  end.

Definition kmod_module_section_get_address (ULONG_MAX : Z)
  (entry : option kmod_module_section) : Z :=
  match entry with
  | None => ULONG_MAX
  | Some section => sec_address section
  end.

(** A file system in which the one file [/sys/module/mod/initstate] opens
    and reads ["live\n"], and nothing else exists. *)
Definition mod_live_fs : sysfs :=
  Sysfs (λ p, if bool_decide (p = cs "/sys/module/mod/initstate") then None
              else Some ENOENT)
        (λ p, if bool_decide (p = cs "/sys/module/mod/initstate")
              then (5, cs "live" ++ [LF; NUL]) else (- EINVAL, []))
        (λ _, None) (λ _, None) (λ _ _, SectionOpenFails ENOENT).

(** ** Dependencies at the last release

    A handle of a dependency list is shared when someone else holds a
    reference on it as well; the list holds it alone when the list's
    reference is the only one and the handle is as
    [kmod_module_parse_dep] makes them for the context [c]: no dependencies
    of its own, no path, and a name that is NULL or a live string. *)
Definition dep_shared (x : kmod_module) : Prop := 1 < mod_refcount x ≤ INT_MAX.

Definition dep_alone (c : ptr) (w : world) (x : kmod_module) : Prop :=
  mod_refcount x = 1 ∧ mod_ctx x = c ∧ mod_dep x = [] ∧ mod_path x = None ∧
  ∀ q, mod_name x = Some q → is_Some (strs w !! q).

(** No two handles of [l] that the list holds alone have the same name
    string. *)
Definition names_apart (w : world) (l : list ptr) : Prop :=
  ∀ h1 h2 x1 x2 q,
    h1 ∈ l → h2 ∈ l → h1 ≠ h2 →
    mods w !! h1 = Some x1 → mods w !! h2 = Some x2 →
    mod_refcount x1 = 1 → mod_refcount x2 = 1 →
    mod_name x1 = Some q → mod_name x2 ≠ Some q.

(** The string [q] is not the name of a handle of [l] that the list holds
    alone. *)
Definition not_a_name (w : world) (l : list ptr) (q : ptr) : Prop :=
  ∀ h x, h ∈ l → mods w !! h = Some x → mod_refcount x = 1 → mod_name x ≠ Some q.

(** A handle, at address 10, with two dependencies: the handle at 11, on
    which someone else holds a reference, and the handle at 12, which the
    list holds alone. *)
Definition mixed_dep_world : world :=
  World {[10%positive := KmodModule 1 None (Some 5%positive) [11%positive; 12%positive] 1 true;
          11%positive := KmodModule 1 None (Some 6%positive) [] 2 false;
          12%positive := KmodModule 1 None (Some 7%positive) [] 1 false]}
        {[5%positive := cs "mod"; 6%positive := cs "a"; 7%positive := cs "b"]}
        {[1%positive := 5]} ∅ ∅ [].

(** The state [kmod_module_parse_dep] leaves for the line ["mod: a b"]: the
    handle at 10 with two dependencies that the list holds alone. *)
Definition two_dep_world : world :=
  World {[10%positive := KmodModule 1 None (Some 5%positive) [11%positive; 12%positive] 1 true;
          11%positive := KmodModule 1 None (Some 6%positive) [] 1 false;
          12%positive := KmodModule 1 None (Some 7%positive) [] 1 false]}
        {[5%positive := cs "mod"; 6%positive := cs "a"; 7%positive := cs "b"]}
        {[1%positive := 4]} ∅ ∅ [].

(** *** The module name of a token as the specification describes it

    "Take the final path component": what follows the last ['/'] of the
    path, all of it when it has none.  Written on the string value, without
    [basename]; the name the specification gives a token is [canon] of it. *)
Fixpoint final_component (t : list ascii) : list ascii :=
  match t with
  | [] => []
  | c :: t' =>
      if bool_decide ("/"%char ∈ t') then final_component t'
      else if Ascii.eqb c "/"%char then t' else c :: t'
  end.

(** * Properties *)

(** ** Facts about C strings *)

Lemma is_nul_true c : is_nul c = true ↔ c = NUL.
Proof. unfold is_nul. apply Ascii.eqb_eq. Qed.

Lemma is_nul_false c : is_nul c = false ↔ c ≠ NUL.
Proof. unfold is_nul. apply Ascii.eqb_neq. Qed.

Lemma not_elem_of_cons_inv {A} (x y : A) l : x ∉ y :: l → x ≠ y ∧ x ∉ l.
Proof. intros H. split; intros ?; apply H; subst; constructor; done. Qed.

Ltac no_nul_head H :=
  let H1 := fresh "Hc" in
  let H2 := fresh "Hnn" in
  apply not_elem_of_cons_inv in H as [H1 H2];
  apply not_eq_sym in H1; apply is_nul_false in H1.

Lemma cstr_no_nul s : NUL ∉ cstr s.
Proof.
  induction s as [|c s IH]; simpl; [apply not_elem_of_nil|].
  destruct (is_nul c) eqn:E; [apply not_elem_of_nil|].
  apply not_elem_of_cons. split; [|done].
  apply is_nul_false in E. congruence.
Qed.

Lemma cstr_app_nul t r : NUL ∉ t → cstr (t ++ NUL :: r) = t.
Proof.
  induction t as [|c t IH]; intros H; simpl; [done|].
  no_nul_head H. rewrite Hc. f_equal. auto.
Qed.

Lemma cstr_id t : NUL ∉ t → cstr t = t.
Proof.
  induction t as [|c t IH]; intros H; simpl; [done|].
  no_nul_head H. rewrite Hc. f_equal. auto.
Qed.

Lemma strrchr_app_nul t r c : NUL ∉ t → strrchr (t ++ NUL :: r) c = strrchr t c.
Proof.
  induction t as [|x t IH]; intros H; simpl; [done|].
  no_nul_head H. rewrite Hc, IH; done.
Qed.

Lemma basename_app_nul t r : NUL ∉ t → basename (t ++ NUL :: r) = basename t.
Proof. intros H. unfold basename. by rewrite strrchr_app_nul. Qed.

Lemma strrchr_bound s c i : strrchr s c = Some i → (i < length s)%nat.
Proof.
  revert i. induction s as [|x s IH]; intros i; simpl; [done|].
  destruct (is_nul x); [done|].
  destruct (strrchr s c) as [j|].
  - intros [= <-]. specialize (IH j eq_refl). lia.
  - destruct (Ascii.eqb x c); [|done]. intros [= <-]. lia.
Qed.

Lemma strrchr_none t c : NUL ∉ t → strrchr t c = None → c ∉ t.
Proof.
  induction t as [|x t IH]; intros H; simpl; [intros; apply not_elem_of_nil|].
  no_nul_head H. rewrite Hc.
  destruct (strrchr t c); [done|].
  destruct (Ascii.eqb x c) eqn:E; [done|]. intros _.
  apply Ascii.eqb_neq in E. apply not_elem_of_cons. split; [congruence|auto].
Qed.

Lemma strrchr_last t c i : NUL ∉ t → strrchr t c = Some i → c ∉ drop (S i) t.
Proof.
  revert i. induction t as [|x t IH]; intros i H; simpl; [done|].
  no_nul_head H. rewrite Hc.
  destruct (strrchr t c) as [j|] eqn:E.
  - intros [= <-]. apply IH; done.
  - destruct (Ascii.eqb x c); [|done]. intros [= <-].
    rewrite drop_0. by apply strrchr_none.
Qed.

Lemma basename_le t : (basename t ≤ length t)%nat.
Proof.
  unfold basename. destruct (strrchr t "/"%char) eqn:E; [|lia].
  apply strrchr_bound in E. lia.
Qed.

Lemma basename_no_slash t : NUL ∉ t → "/"%char ∉ drop (basename t) t.
Proof.
  intros H. unfold basename. destruct (strrchr t "/"%char) eqn:E.
  - by apply strrchr_last.
  - rewrite drop_0. by apply strrchr_none.
Qed.

Lemma strrchr_absent t c : c ∉ t → strrchr t c = None.
Proof.
  induction t as [|x t IH]; intros H; simpl; [done|].
  apply not_elem_of_cons_inv in H as [H1 H2].
  destruct (is_nul x); [done|]. rewrite IH by done.
  destruct (Ascii.eqb x c) eqn:E; [|done].
  apply Ascii.eqb_eq in E. congruence.
Qed.

Lemma modname_scan_length s : length (modname_scan s) = length s.
Proof.
  induction s as [|c s IH]; simpl; [done|].
  destruct (is_nul c); [done|]. destruct (Ascii.eqb c "."%char); [done|].
  simpl. by rewrite IH.
Qed.

Lemma modname_scan_app_nul t r :
  NUL ∉ t → modname_scan (t ++ NUL :: r) = modname_scan t ++ NUL :: r.
Proof.
  induction t as [|c t IH]; intros H; simpl; [done|].
  no_nul_head H. rewrite Hc.
  destruct (Ascii.eqb c "."%char); [done|]. simpl. f_equal. auto.
Qed.

Lemma cstr_modname_scan t r :
  NUL ∉ t → cstr (modname_scan t ++ NUL :: r) = canon t.
Proof.
  induction t as [|c t IH]; intros H; simpl; [done|].
  no_nul_head H. rewrite Hc.
  destruct (Ascii.eqb c "."%char) eqn:E; [done|].
  simpl. destruct (Ascii.eqb c "-"%char) eqn:E'.
  - simpl. f_equal. auto.
  - rewrite Hc. f_equal. auto.
Qed.

Lemma canon_no_dash t : "-"%char ∉ canon t.
Proof.
  induction t as [|c t IH]; simpl; [apply not_elem_of_nil|].
  destruct (Ascii.eqb c "."%char); [apply not_elem_of_nil|].
  apply not_elem_of_cons. split; [|done].
  destruct (Ascii.eqb c "-"%char) eqn:E; [done|].
  apply Ascii.eqb_neq in E. congruence.
Qed.

Lemma canon_no_dot t : "."%char ∉ canon t.
Proof.
  induction t as [|c t IH]; simpl; [apply not_elem_of_nil|].
  destruct (Ascii.eqb c "."%char) eqn:E; [apply not_elem_of_nil|].
  apply not_elem_of_cons. split; [|done].
  destruct (Ascii.eqb c "-"%char) eqn:E'; [done|].
  apply Ascii.eqb_neq in E. congruence.
Qed.

Lemma canon_preserves_absent x t :
  x ≠ "_"%char → x ∉ t → x ∉ canon t.
Proof.
  intros Hx. induction t as [|c t IH]; simpl; intros H; [done|].
  apply not_elem_of_cons_inv in H as [H1 H2].
  destruct (Ascii.eqb c "."%char); [apply not_elem_of_nil|].
  apply not_elem_of_cons. split; [|auto].
  destruct (Ascii.eqb c "-"%char); done.
Qed.

Lemma canon_fixed t : "-"%char ∉ t → "."%char ∉ t → canon t = t.
Proof.
  induction t as [|c t IH]; simpl; intros H1 H2; [done|].
  apply not_elem_of_cons_inv in H1 as [H1 H1'].
  apply not_elem_of_cons_inv in H2 as [H2 H2'].
  apply not_eq_sym, Ascii.eqb_neq in H1. apply not_eq_sym, Ascii.eqb_neq in H2.
  rewrite H1, H2. f_equal. auto.
Qed.

Lemma char_at_app pre s i : char_at (pre ++ s) (length pre + i) = char_at s i.
Proof. unfold char_at. apply app_nth2_plus. Qed.

Lemma char_at_app_0 pre s : char_at (pre ++ s) (length pre) = char_at s 0.
Proof. rewrite <- (Nat.add_0_r (length pre)) at 1. apply char_at_app. Qed.

Lemma char_at_end t r : char_at (t ++ NUL :: r) (length t) = NUL.
Proof. by rewrite char_at_app_0. Qed.

Lemma drop_app_plus {A} (pre s : list A) i : drop (length pre + i) (pre ++ s) = drop i s.
Proof. by rewrite drop_app_add. Qed.

Lemma basename_split pre t r :
  NUL ∉ t →
  (NUL ∉ drop (basename t) t) ∧
  char_at (pre ++ t ++ NUL :: r) (length pre + basename t)
  = char_at (drop (basename t) t ++ NUL :: r) 0 ∧
  drop (length pre + basename t) (pre ++ t ++ NUL :: r)
  = drop (basename t) t ++ NUL :: r ∧
  take (length pre + basename t) (pre ++ t ++ NUL :: r) = pre ++ take (basename t) t.
Proof.
  intros H. pose proof (basename_le t) as Hb. set (b := basename t) in *.
  assert (Hl : length (take b t) = b) by (rewrite length_take; lia).
  assert (Hsplit : pre ++ t ++ NUL :: r = (pre ++ take b t) ++ drop b t ++ NUL :: r).
  { rewrite <- (take_drop b t) at 1. by rewrite <- !app_assoc. }
  assert (Hlen : (length pre + b)%nat = length (pre ++ take b t))
    by (rewrite length_app; lia).
  split_and!.
  - intros Hin. apply H. rewrite <- (take_drop b t). apply elem_of_app. by right.
  - by rewrite Hsplit, Hlen, char_at_app_0.
  - by rewrite Hsplit, Hlen, drop_app_length.
  - by rewrite Hsplit, Hlen, take_app_length.
Qed.

Lemma path_to_modname_alloc pre t r :
  NUL ∉ t →
  path_to_modname (pre ++ t ++ NUL :: r) (length pre) true
  = (modname_spec t, pre ++ t ++ NUL :: r).
Proof.
  intros H. unfold path_to_modname, modname_spec.
  rewrite drop_app_length, basename_app_nul by done.
  destruct (basename_split pre t r H) as (Hd & E1 & E2 & E3).
  rewrite E1, E2. clear E1 E2 E3.
  destruct (drop (basename t) t) as [|c d] eqn:E.
  - done.
  - unfold char_at; simpl nth.
    assert (Hcd := Hd). no_nul_head Hd. rewrite Hc.
    rewrite cstr_app_nul, modname_scan_app_nul by done.
    by rewrite cstr_modname_scan.
Qed.

Lemma path_to_modname_inplace pre t r :
  NUL ∉ t →
  path_to_modname (pre ++ t ++ NUL :: r) (length pre) false
  = (modname_spec t,
     match modname_spec t with
     | None => pre ++ t ++ NUL :: r
     | Some _ =>
         pre ++ take (basename t) t ++ modname_scan (drop (basename t) t) ++ NUL :: r
     end).
Proof.
  intros H. unfold path_to_modname, modname_spec.
  rewrite drop_app_length, basename_app_nul by done.
  destruct (basename_split pre t r H) as (Hd & E1 & E2 & E3).
  rewrite E1, E2, E3. clear E1 E2 E3.
  assert (Hlen : (length pre + basename t)%nat = length (pre ++ take (basename t) t)).
  { pose proof (basename_le t). rewrite length_app, length_take. lia. }
  rewrite Hlen, drop_app_length, modname_scan_app_nul by done.
  destruct (drop (basename t) t) as [|c d] eqn:E.
  - done.
  - unfold char_at; simpl nth.
    assert (Hcd := Hd). no_nul_head Hd. rewrite Hc.
    rewrite cstr_modname_scan by done.
    by rewrite <- !app_assoc.
Qed.

Lemma modname_of_path_spec p : modname_of_path p = modname_spec (cstr p).
Proof.
  unfold modname_of_path.
  assert (Hp : p ++ [NUL] = [] ++ cstr p ++ NUL :: drop (S (length (cstr p))) (p ++ [NUL])).
  { simpl. induction p as [|c p IH]; simpl; [done|].
    destruct (is_nul c) eqn:E; simpl.
    - apply is_nul_true in E. subst. by rewrite drop_0.
    - f_equal. apply IH. }
  rewrite Hp at 1.
  change 0%nat with (length (@nil ascii)).
  rewrite path_to_modname_alloc by apply cstr_no_nul. done.
Qed.

Lemma cstr_split p :
  p ++ [NUL] = cstr p ++ NUL :: drop (S (length (cstr p))) (p ++ [NUL]).
Proof.
  induction p as [|c p IH]; simpl; [done|].
  destruct (is_nul c) eqn:E; simpl.
  - apply is_nul_true in E. subst. by rewrite drop_0.
  - f_equal. apply IH.
Qed.

Lemma path_to_modname_name p alloc :
  fst (path_to_modname (p ++ [NUL]) 0 alloc) = modname_spec (cstr p).
Proof.
  rewrite (cstr_split p) at 1.
  change 0%nat with (length (@nil ascii)).
  change (cstr p ++ ?x) with ([] ++ cstr p ++ x).
  destruct alloc.
  - by rewrite path_to_modname_alloc by apply cstr_no_nul.
  - by rewrite path_to_modname_inplace by apply cstr_no_nul.
Qed.

Lemma modname_spec_canon t m : modname_spec t = Some m → ∃ b, m = canon b.
Proof.
  unfold modname_spec. destruct (drop _ _) as [|c d]; [done|].
  intros [= <-]. by exists (c :: d).
Qed.

Lemma modname_spec_fixed t b :
  NUL ∉ t → modname_spec t = Some b →
  b ≠ [] → modname_spec b = Some b ∧ NUL ∉ b.
Proof.
  unfold modname_spec. intros Hn Hb Hne.
  pose proof (basename_no_slash t Hn) as Hs.
  assert (Hd : NUL ∉ drop (basename t) t).
  { intros Hin. apply Hn. rewrite <- (take_drop (basename t) t).
    apply elem_of_app. by right. }
  destruct (drop (basename t) t) as [|c d] eqn:E; [done|].
  remember (c :: d) as cd eqn:Ecd. clear Ecd E.
  injection Hb as <-.
  assert (Hnul : NUL ∉ canon cd) by (by apply canon_preserves_absent).
  assert (Hsl : "/"%char ∉ canon cd) by (by apply canon_preserves_absent).
  split; [|done].
  unfold basename. rewrite strrchr_absent by done. rewrite drop_0.
  pose proof (canon_no_dash cd) as Hdash.
  pose proof (canon_no_dot cd) as Hdot.
  destruct (canon cd) as [|x y]; [done|].
  f_equal. by apply canon_fixed.
Qed.

(** ** The canonicaliser (C9) *)

(** C9, as amended.  Whenever [path_to_modname] returns a name for a path
    (that is, whenever the final path component is not empty), in either
    mode, the name contains neither ['-'] nor ['.'], and if the name is not
    empty, [path_to_modname] applied to it returns it unchanged. *)
Theorem path_to_modname_canonical (p m : list ascii) (alloc : bool) :
  fst (path_to_modname (p ++ [NUL]) 0 alloc) = Some m →
  ("-"%char ∉ m) ∧ ("."%char ∉ m) ∧
  (m ≠ [] → fst (path_to_modname (m ++ [NUL]) 0 alloc) = Some m).
Proof.
  rewrite !path_to_modname_name. intros H.
  split_and!.
  - destruct (modname_spec_canon _ _ H) as [b ->]. apply canon_no_dash.
  - destruct (modname_spec_canon _ _ H) as [b ->]. apply canon_no_dot.
  - intros Hne.
    destruct (modname_spec_fixed (cstr p) m (cstr_no_nul p) H Hne) as [Hm Hn].
    by rewrite cstr_id.
Qed.

Lemma path_to_modname_canonical_witness :
  ("-"%char ∉ cs "foo_bar") ∧ ("."%char ∉ cs "foo_bar") ∧
  (cs "foo_bar" ≠ [] →
   fst (path_to_modname (cs "foo_bar" ++ [NUL]) 0 false) = Some (cs "foo_bar")).
Proof.
  apply (path_to_modname_canonical (cs "/lib/modules/foo-bar.ko") (cs "foo_bar") false).
  reflexivity.
Defined.

(** C9 as stated fails: the path [".ko"] has a non-empty final component,
    its canonical name is the empty string, and on the empty string
    [path_to_modname] returns NULL instead of the same name. *)
Lemma path_to_modname_not_idempotent :
  modname_of_path (cs ".ko") = Some [] ∧
  modname_of_path [] = None ∧
  ¬ (∀ p m, modname_of_path p = Some m → modname_of_path m = Some m).
Proof.
  split_and!; [reflexivity | reflexivity |].
  intros H. specialize (H (cs ".ko") [] eq_refl). discriminate H.
Qed.

(** The examples of the specification. *)
Example path_to_modname_examples :
  modname_of_path (cs "/lib/modules/foo-bar.ko") = Some (cs "foo_bar") ∧
  modname_of_path (cs "/a/b/net-core.ko.xz") = Some (cs "net_core").
Proof. split; reflexivity. Qed.

(** ** Facts about the state monad and the heaps *)

Lemma bind_Ok {A B} (c : M A) (k : A → M B) w a w1 :
  c w = Ok a w1 → bind c k w = k a w1.
Proof. unfold bind. by intros ->. Qed.

Lemma bind_Ok_inv {A B} (c : M A) (k : A → M B) w b w' :
  bind c k w = Ok b w' → ∃ a w1, c w = Ok a w1 ∧ k a w1 = Ok b w'.
Proof. unfold bind. destruct (c w) as [a w1|]; [eauto|done]. Qed.

Lemma load_mod_Ok w p m : mods w !! p = Some m → load_mod p w = Ok m w.
Proof. unfold load_mod. by intros ->. Qed.

Lemma wrap_int_id z : INT_MIN ≤ z ≤ INT_MAX → wrap_int z = z.
Proof.
  unfold wrap_int, INT_MIN, INT_MAX. intros H.
  rewrite Z.mod_small by lia. lia.
Qed.

Lemma allocs_ok_S k w :
  allocs_ok (S k) w → hd false (oom w) = false ∧ allocs_ok k (set_oom (drop 1) w).
Proof.
  unfold allocs_ok. simpl. destruct (oom w) as [|b o]; simpl.
  - by rewrite take_nil.
  - rewrite drop_0. intros H. apply andb_prop in H as [H1 H2].
    split; [by destruct b|done].
Qed.

Lemma allocs_ok_nil k w : oom w = [] → allocs_ok k w.
Proof. unfold allocs_ok. intros ->. by rewrite take_nil. Qed.

(** ** Null arguments (C1) *)

(** C1, as amended.  With a NULL context or a NULL name
    [kmod_module_new_from_name] returns [-ENOENT], with a NULL context or a
    NULL path so does [kmod_module_new_from_path], and with a NULL handle so
    do [kmod_module_remove_module] and [kmod_module_insert_module]; in each
    case nothing is allocated and the state is left as it was. *)
Theorem null_arguments_give_ENOENT
  (w : world) (ctx : option ptr) (s : option (list ascii))
  (stat : list ascii → option Z) (force nowait : Z)
  (delete_module : option (list ascii) → Z → Z) (env : insert_env) (flags : Z) :
  kmod_module_new_from_name None s w = Ok (- ENOENT, None) w ∧
  kmod_module_new_from_name ctx None w = Ok (- ENOENT, None) w ∧
  kmod_module_new_from_path stat None s w = Ok (- ENOENT, None) w ∧
  kmod_module_new_from_path stat ctx None w = Ok (- ENOENT, None) w ∧
  kmod_module_remove_module force nowait delete_module None flags w = Ok (- ENOENT) w ∧
  kmod_module_insert_module env None flags w = Ok (- ENOENT) w.
Proof. split_and!; try done; by destruct ctx. Qed.

(** C1 as stated fails: the code these calls return is [-ENOENT] (-2), which
    is not [-EINVAL] (-22), the number of the "Invalid argument" error. *)
Lemma null_arguments_not_EINVAL :
  kmod_module_new_from_name None (Some (cs "snd")) (sample_world [])
  = Ok (-2, None) (sample_world []) ∧
  kmod_module_remove_module 512 2048 (λ _ _, 0) None 0 (sample_world [])
  = Ok (-2) (sample_world []) ∧
  -2 ≠ - EINVAL.
Proof. split_and!; done. Qed.

(** ** Reference counting: construction, acquisition and release *)

Lemma new_from_name_result w c n :
  hd false (oom w) = false →
  ∃ q w',
    kmod_module_new_from_name (Some c) (Some n) w
    = Ok (0, Some (fresh (dom (mods w)))) w' ∧
    mods w' = <[fresh (dom (mods w)) := KmodModule c None q [] 1 false]> (mods w) ∧
    ctxs w' = <[c := ctx_count w c + 1]> (ctxs w).
Proof.
  intros H. unfold kmod_module_new_from_name, calloc_mod, bind, alloc_fails.
  rewrite H. simpl. unfold strdup, bind, alloc_fails. simpl.
  destruct (hd false (drop 1 (oom w))); simpl; eexists _, _; split_and!; done.
Qed.

Lemma new_from_path_result stat w c p :
  stat p = None →
  hd false (oom w) = false →
  ∃ q w',
    kmod_module_new_from_path stat (Some c) (Some p) w
    = Ok (0, Some (fresh (dom (mods w)))) w' ∧
    mods w' = <[fresh (dom (mods w)) := KmodModule c q None [] 1 false]> (mods w) ∧
    ctxs w' = <[c := ctx_count w c + 1]> (ctxs w).
Proof.
  intros Hs H. unfold kmod_module_new_from_path, calloc_mod, bind, alloc_fails.
  rewrite Hs, H. simpl. unfold strdup, bind, alloc_fails. simpl.
  destruct (hd false (drop 1 (oom w))); simpl; eexists _, _; split_and!; done.
Qed.

Lemma fresh_mod_None w : mods w !! fresh (dom (mods w)) = None.
Proof. apply not_elem_of_dom, is_fresh. Qed.

Lemma fresh_str_None w : strs w !! fresh (dom (strs w)) = None.
Proof. apply not_elem_of_dom, is_fresh. Qed.

Lemma unref_depth_store w p m m' :
  mods w !! p = Some m → unref_depth (set_mods <[p := m']> w) = unref_depth w.
Proof. intros H. unfold unref_depth. simpl. by eapply map_size_insert_Some. Qed.

(** The last release: the handle's count goes to 0 and the handle is
    destroyed, which here is spelt out step by step. *)
Lemma unref_last w p m :
  mods w !! p = Some m → mod_refcount m = 1 →
  kmod_module_unref (Some p) w
  = (kmod_module_unref_list (mod_dep m);;
     kmod_unref (mod_ctx m);;
     free_str (mod_path m);;
     free_str (mod_name m);;
     free_mod p;;
     ret None) (set_mods <[p := set_refcount 0 m]> w).
Proof.
  intros Hm Hr. unfold kmod_module_unref. cbn [unref_fuel].
  rewrite (bind_Ok _ _ _ _ _ (load_mod_Ok _ _ _ Hm)). rewrite Hr.
  change (wrap_int (1 - 1)) with 0.
  unfold store_mod at 1. unfold modify, bind at 1. cbn [Z.ltb Z.compare].
  unfold kmod_module_unref_list.
  unfold bind at 1 6.
  by rewrite (unref_depth_store _ _ _ _ Hm).
Qed.

Lemma unref_not_last w p m :
  mods w !! p = Some m → 1 < mod_refcount m ≤ INT_MAX →
  kmod_module_unref (Some p) w
  = Ok (Some p) (set_mods <[p := set_refcount (mod_refcount m - 1) m]> w).
Proof.
  intros Hm Hr. unfold kmod_module_unref. cbn [unref_fuel].
  rewrite (bind_Ok _ _ _ _ _ (load_mod_Ok _ _ _ Hm)).
  rewrite wrap_int_id by (unfold INT_MIN, INT_MAX in *; lia).
  unfold store_mod, modify, bind.
  destruct (0 <? mod_refcount m - 1) eqn:E; [done|].
  apply Z.ltb_ge in E. lia.
Qed.

Lemma ref_result w p m :
  mods w !! p = Some m → INT_MIN ≤ mod_refcount m < INT_MAX →
  kmod_module_ref (Some p) w
  = Ok (Some p) (set_mods <[p := set_refcount (mod_refcount m + 1) m]> w).
Proof.
  intros Hm Hr. unfold kmod_module_ref.
  rewrite (bind_Ok _ _ _ _ _ (load_mod_Ok _ _ _ Hm)).
  rewrite wrap_int_id by (unfold INT_MIN, INT_MAX in *; lia).
  done.
Qed.

(** The last release of a handle that has no dependency list, for any
    bound on the recursion. *)
Lemma unref_fuel_leaf f w p m :
  mods w !! p = Some m → mod_refcount m = 1 → mod_dep m = [] →
  (∀ q, mod_path m = Some q → is_Some (strs w !! q)) →
  (∀ q, mod_name m = Some q → is_Some (strs w !! q)) →
  (∀ q, mod_path m = Some q → mod_name m ≠ Some q) →
  ∃ w',
    unref_fuel (S f) p w = Ok None w' ∧
    mods w' = delete p (mods w) ∧
    strs w' = from_option delete id (mod_name m) (from_option delete id (mod_path m) (strs w)) ∧
    ctx_count w' (mod_ctx m) = Z.max 0 (ctx_count w (mod_ctx m) - 1) ∧
    (∀ c, c ≠ mod_ctx m → ctxs w' !! c = ctxs w !! c) ∧
    fds w' = fds w ∧ maps w' = maps w ∧ oom w' = oom w.
Proof.
  intros Hm Hr Hd Hp Hn Hpn. cbn [unref_fuel].
  rewrite (bind_Ok _ _ _ _ _ (load_mod_Ok _ _ _ Hm)). rewrite Hr, Hd.
  change (wrap_int (1 - 1)) with 0.
  unfold store_mod at 1. unfold modify, bind at 1. cbn [Z.ltb Z.compare].
  cbn [unref_list_with]. unfold ret at 1. unfold bind at 1.
  unfold kmod_unref, bind at 1. cbn [set_mods ctxs mods strs fds maps oom].
  set (c := mod_ctx m). set (r := ctx_count _ c - 1).
  assert (Hr' : r = ctx_count w c - 1) by done. clearbody r.
  assert (Hfree : ∀ w1 : world, strs w1 = strs w →
    ∃ w2, (free_str (mod_path m);; free_str (mod_name m);; free_mod p;;
           ret (@None ptr)) w1 = Ok None w2 ∧
          mods w2 = delete p (mods w1) ∧
          strs w2 = from_option delete id (mod_name m)
                      (from_option delete id (mod_path m) (strs w)) ∧
          ctxs w2 = ctxs w1 ∧ fds w2 = fds w1 ∧ maps w2 = maps w1 ∧ oom w2 = oom w1).
  { intros w1 Hs. rewrite <- Hs in Hp, Hn |- *. clear Hs.
    destruct (mod_path m) as [qp|] eqn:Ep, (mod_name m) as [qn|] eqn:En;
      unfold free_str, bind, free_mod, modify, ret; simpl.
    - destruct (Hp qp eq_refl) as [sp Hsp]. destruct (Hn qn eq_refl) as [sn Hsn].
      rewrite Hsp. simpl. rewrite lookup_delete_ne by (intros ->; by eapply Hpn).
      rewrite Hsn. eexists. split_and!; done.
    - destruct (Hp qp eq_refl) as [sp Hsp]. rewrite Hsp.
      eexists. split_and!; done.
    - destruct (Hn qn eq_refl) as [sn Hsn]. rewrite Hsn.
      eexists. split_and!; done.
    - eexists. split_and!; done. }
  destruct (0 <? r) eqn:E.
  - edestruct Hfree as (w2 & -> & Hm2 & Hs2 & Hc2 & Hf2 & Hmp2 & Ho2); [|].
    2:{ eexists. split; [done|]. rewrite Hm2, Hs2, Hf2, Hmp2, Ho2. simpl.
        split_and!; try done.
        - by rewrite delete_insert_eq.
        - unfold ctx_count at 1. rewrite Hc2. simpl. rewrite lookup_insert_eq. simpl.
          apply Z.ltb_lt in E. lia.
        - intros c' Hc'. rewrite Hc2. simpl. by rewrite lookup_insert_ne. }
    done.
  - edestruct Hfree as (w2 & -> & Hm2 & Hs2 & Hc2 & Hf2 & Hmp2 & Ho2); [|].
    2:{ eexists. split; [done|]. rewrite Hm2, Hs2, Hf2, Hmp2, Ho2. simpl.
        split_and!; try done.
        - by rewrite delete_insert_eq.
        - unfold ctx_count at 1. rewrite Hc2. simpl. rewrite lookup_delete_eq. simpl.
          apply Z.ltb_ge in E. lia.
        - intros c' Hc'. rewrite Hc2. simpl. by rewrite lookup_delete_ne. }
    done.
Qed.

Lemma unref_last_leaf w p m :
  mods w !! p = Some m → mod_refcount m = 1 → mod_dep m = [] →
  (∀ q, mod_path m = Some q → is_Some (strs w !! q)) →
  (∀ q, mod_name m = Some q → is_Some (strs w !! q)) →
  (∀ q, mod_path m = Some q → mod_name m ≠ Some q) →
  ∃ w',
    kmod_module_unref (Some p) w = Ok None w' ∧
    mods w' = delete p (mods w) ∧
    strs w' = from_option delete id (mod_name m) (from_option delete id (mod_path m) (strs w)) ∧
    ctx_count w' (mod_ctx m) = Z.max 0 (ctx_count w (mod_ctx m) - 1) ∧
    (∀ c, c ≠ mod_ctx m → ctxs w' !! c = ctxs w !! c) ∧
    fds w' = fds w ∧ maps w' = maps w ∧ oom w' = oom w.
Proof. unfold kmod_module_unref. apply unref_fuel_leaf. Qed.

Lemma unref_destroys_iff w p m r w' :
  mods w !! p = Some m → 1 ≤ mod_refcount m ≤ INT_MAX →
  kmod_module_unref (Some p) w = Ok r w' →
  (mods w' !! p = None ↔ mod_refcount m = 1).
Proof.
  intros Hm Hr H.
  destruct (decide (mod_refcount m = 1)) as [E|E].
  - split; [done|intros _].
    rewrite (unref_last _ _ _ Hm E) in H.
    apply bind_Ok_inv in H as (? & w1 & _ & H).
    apply bind_Ok_inv in H as (? & w2 & _ & H).
    apply bind_Ok_inv in H as (? & w3 & _ & H).
    apply bind_Ok_inv in H as (? & w4 & _ & H).
    apply bind_Ok_inv in H as (? & w5 & H5 & H).
    injection H as _ <-. injection H5 as _ <-. simpl. apply lookup_delete_eq.
  - rewrite (unref_not_last _ _ _ Hm) in H by lia. injection H as _ <-.
    simpl. rewrite lookup_insert_eq. split; [done|]. intros; done.
Qed.

(** A handle with dependencies: after the line ["mod: a b"] is parsed the
    handle owns two new handles; its last release destroys the three of them
    and gives back the three references on the context. *)
Example unref_releases_dependencies :
  match kmod_module_parse_dep 10 (cs "mod: a b" ++ [NUL]) (sample_world []) with
  | Ok (n, _) w1 =>
      n = 2 ∧ size (mods w1) = 3%nat ∧ ctx_count w1 1 = 4 ∧
      match kmod_module_unref (Some 10%positive) w1 with
      | Ok r w2 => r = None ∧ mods w2 = ∅ ∧ strs w2 = ∅ ∧ ctx_count w2 1 = 1
      | Crash _ => False
      end
  | Crash _ => False
  end.
Proof. vm_compute. split_and!; reflexivity. Qed.

(** ** The alias lookup (C5) *)

Lemma lookup_order_split pre s post :
  lookup_order = pre ++ s :: post →
  (pre = [] ∧ s = FromConfig) ∨
  (pre = [FromConfig] ∧ s = FromModdep) ∨
  (pre = [FromConfig; FromModdep] ∧ s = FromSymbols) ∨
  (pre = [FromConfig; FromModdep; FromSymbols] ∧ s = FromAliases).
Proof.
  unfold lookup_order. intros H.
  destruct pre as [|s1 [|s2 [|s3 [|s4 [|s5 pre]]]]]; simplify_eq/=; auto.
Qed.

Ltac invert_empties :=
  repeat match goal with
  | H : sources_empty _ _ _ (_ :: _) _ _ |- _ => inversion H; clear H; subst
  | H : sources_empty _ _ _ [] _ _ |- _ => inversion H; clear H; subst
  end.

Ltac step_source :=
  match goal with
  | H : ?source ?s ?c ?a [] ?w = Ok _ _ |- context [bind (?source ?s ?c ?a []) _ ?w] =>
      rewrite (bind_Ok _ _ _ _ _ H); unfold CHECK_ERR_AND_FINISH; cbn [fst snd is_nil negb]
  end.

Ltac nonneg_test :=
  match goal with
  | H : 0 ≤ ?e |- context [?e <? 0] =>
      replace (e <? 0) with false by (symmetry; apply Z.ltb_ge; exact H)
  end.

(** C5.  With a context and an alias, and an empty output list, the lookup
    consults the sources in the order config, moddep, symbols, aliases.
    - Whatever it returns, the sources it has called form a non-empty
      initial part of that order.
    - When the sources before [s] return without error and without entry and
      [s] returns a non-empty list without error, the lookup returns what
      [s] returned, with that list, and has called no source after [s].
    - When the sources before [s] return likewise and [s] returns an error,
      the list [s] left is released, the output is empty, the error is
      returned and no source after [s] has been called.
    - When all four return without error and without entry, the output is
      empty and the status is the last source's, which is not negative.
    - With a non-empty output list, or none, the lookup returns [-ENOSYS]
      and calls no source. *)
Theorem lookup_first_match_wins
  (source : lookup_source → ptr → list ascii → list ptr → M (Z * list ptr))
  (c : ptr) (a : list ascii) (w : world) :
  (∀ err l called w',
     kmod_module_new_from_lookup source (Some c) (Some a) (Some []) w
     = Ok (err, l, called) w' →
     called `prefix_of` lookup_order ∧ called ≠ []) ∧
  (∀ pre s post w1 e l w2,
     lookup_order = pre ++ s :: post →
     sources_empty source c a pre w w1 →
     source s c a [] w1 = Ok (e, l) w2 →
     0 ≤ e → l ≠ [] →
     kmod_module_new_from_lookup source (Some c) (Some a) (Some []) w
     = Ok (e, l, pre ++ [s]) w2) ∧
  (∀ pre s post w1 e l w2,
     lookup_order = pre ++ s :: post →
     sources_empty source c a pre w w1 →
     source s c a [] w1 = Ok (e, l) w2 →
     e < 0 →
     kmod_module_new_from_lookup source (Some c) (Some a) (Some []) w
     = (kmod_module_unref_list l;; ret (e, [], pre ++ [s])) w2) ∧
  (∀ w3 e w4,
     sources_empty source c a [FromConfig; FromModdep; FromSymbols] w w3 →
     source FromAliases c a [] w3 = Ok (e, []) w4 →
     0 ≤ e →
     kmod_module_new_from_lookup source (Some c) (Some a) (Some []) w
     = Ok (e, [], lookup_order) w4) ∧
  (∀ l, l ≠ Some [] →
     kmod_module_new_from_lookup source (Some c) (Some a) l w
     = Ok (- ENOSYS, default [] l, []) w).
Proof.
  split_and!.
  - intros err l called w'. unfold kmod_module_new_from_lookup, CHECK_ERR_AND_FINISH.
    intros H.
    repeat match type of H with
    | bind (source ?s c a ?x) _ ?w0 = _ =>
        let r := fresh "r" in let w1 := fresh "w" in let Hs := fresh "Hs" in
        apply bind_Ok_inv in H as (r & w1 & Hs & H)
    | (if ?b then _ else _) _ = _ => destruct b
    | bind (kmod_module_unref_list _) _ _ = _ =>
        apply bind_Ok_inv in H as (? & ? & _ & H)
    end;
    injection H as <- <- <- <-; (split; [|done]); unfold lookup_order.
    all: try (by eexists [_; _; _]).
    all: try (by eexists [_; _]).
    all: try (by eexists [_]).
    all: by exists [].
  - intros pre s post w1 e l w2 Hord Hpre Hs He Hl.
    unfold kmod_module_new_from_lookup.
    destruct (lookup_order_split _ _ _ Hord) as [[-> ->]|[[-> ->]|[[-> ->]|[-> ->]]]];
      invert_empties; repeat (step_source; try nonneg_test);
      destruct l; done.
  - intros pre s post w1 e l w2 Hord Hpre Hs He.
    unfold kmod_module_new_from_lookup.
    destruct (lookup_order_split _ _ _ Hord) as [[-> ->]|[[-> ->]|[[-> ->]|[-> ->]]]];
      invert_empties; repeat (step_source; try nonneg_test);
      apply Z.ltb_lt in He; rewrite He; done.
  - intros w3 e w4 Hpre Hs He. unfold kmod_module_new_from_lookup.
    invert_empties. repeat (step_source; try nonneg_test). done.
  - intros l Hl. unfold kmod_module_new_from_lookup.
    destruct l as [[|x l]|]; done.
Qed.

Lemma lookup_first_match_wins_witness :
  (∃ w2, kmod_module_new_from_lookup sample_source (Some 1%positive) (Some (cs "snd"))
           (Some []) (sample_world [])
         = Ok (0, [11%positive], [FromConfig; FromModdep; FromSymbols]) w2) ∧
  kmod_module_new_from_lookup failing_source (Some 1%positive) (Some (cs "snd"))
    (Some []) (sample_world [])
  = Ok (- ENOMEM, [], [FromConfig; FromModdep]) (sample_world []) ∧
  kmod_module_new_from_lookup empty_source (Some 1%positive) (Some (cs "snd"))
    (Some []) (sample_world [])
  = Ok (0, [], lookup_order) (sample_world []).
Proof.
  split_and!.
  - destruct (lookup_first_match_wins sample_source 1 (cs "snd") (sample_world []))
      as (_ & H & _).
    eexists.
    apply (H [FromConfig; FromModdep] FromSymbols [FromAliases]
             (sample_world []) 0 [11%positive]).
    + reflexivity.
    + eapply sources_empty_cons; [reflexivity|done|].
      eapply sources_empty_cons; [reflexivity|done|].
      apply sources_empty_nil.
    + vm_compute. reflexivity.
    + done.
    + done.
  - destruct (lookup_first_match_wins failing_source 1 (cs "snd") (sample_world []))
      as (_ & _ & H & _).
    rewrite (H [FromConfig] FromModdep [FromSymbols; FromAliases]
               (sample_world []) (- ENOMEM) [11%positive]
               (World (<[11%positive := KmodModule 1 None (Some 6%positive) [] 1 false]>
                        (mods (sample_world [])))
                      (<[6%positive := cs "snd"]> (strs (sample_world [])))
                      {[1%positive := 3]} ∅ ∅ [])).
    + vm_compute. reflexivity.
    + reflexivity.
    + eapply sources_empty_cons; [reflexivity|done|]. apply sources_empty_nil.
    + vm_compute. reflexivity.
    + done.
  - destruct (lookup_first_match_wins empty_source 1 (cs "snd") (sample_world []))
      as (_ & _ & _ & H & _).
    apply (H (sample_world []) 0 (sample_world [])).
    + repeat (eapply sources_empty_cons; [reflexivity|done|]). apply sources_empty_nil.
    + reflexivity.
    + done.
Defined.

(** ** Insertion (C6) *)

Lemma open_close_fds (s : gset positive) : ({[fresh s]} ∪ s) ∖ {[fresh s]} = s.
Proof.
  pose proof (is_fresh s) as Hf. apply set_eq. intros x.
  rewrite elem_of_difference, elem_of_union, !elem_of_singleton.
  split; [intros [[->|Hx] Hne]; done|].
  intros Hx. split; [by right|]. intros ->. done.
Qed.

Lemma world_eta w :
  World (mods w) (strs w) (ctxs w) (fds w) (maps w) (oom w) = w.
Proof. by destruct w. Qed.

(** A descriptor that is opened and then closed leaves the state as it was. *)
Lemma sys_open_close {A} (k : M A) w :
  (do fd <- sys_open; sys_close fd;; k) w = k w.
Proof.
  unfold sys_open, sys_close, modify, bind, set_fds. simpl.
  by rewrite open_close_fds, world_eta.
Qed.

(** C6.  For a live handle that has a path, [kmod_module_insert_module]
    returns, whatever [open], [fstat], [mmap] and [init_module] answer:
    the negated [errno] of a failed [open] or [mmap], else what
    [init_module] returned; and the state after the call is the state
    before it: the descriptor it opened is closed again and the mapping it
    made is unmapped again, also when [init_module] fails. *)
Theorem insert_retains_nothing (env : insert_env) (w : world) (p : ptr)
  (m : kmod_module) (pq : ptr) (path : list ascii) (flags : Z) :
  mods w !! p = Some m → mod_path m = Some pq → strs w !! pq = Some path →
  kmod_module_insert_module env (Some p) flags w
  = Ok (match open_errno env, mmap_errno env with
        | Some e, _ => - e
        | None, Some e => - e
        | None, None => wrap_int (init_module env)
        end) w.
Proof.
  intros Hm Hp Hs. unfold kmod_module_insert_module.
  rewrite (bind_Ok _ _ _ _ _ (load_mod_Ok _ _ _ Hm)), Hp.
  unfold load_str, bind at 1. rewrite Hs.
  destruct (open_errno env) as [e|]; [done|].
  destruct (mmap_errno env) as [e|].
  - fold (@sys_open). by rewrite sys_open_close.
  - unfold sys_mmap, sys_munmap, sys_close, modify, bind, ret, set_fds, set_maps.
    simpl. rewrite lookup_insert_eq, Z.eqb_refl. simpl.
    rewrite open_close_fds, delete_insert_eq, delete_id
      by apply not_elem_of_dom, is_fresh.
    by rewrite world_eta.
Qed.

Lemma insert_retains_nothing_witness :
  kmod_module_insert_module refusing_kernel (Some 10%positive) 0 sample_path_world
  = Ok (- 8) sample_path_world.
Proof.
  apply (insert_retains_nothing refusing_kernel sample_path_world 10
           (KmodModule 1 (Some 5%positive) None [] 1 false) 5
           (cs "/lib/modules/foo-bar.ko") 0); reflexivity.
Defined.

(** ** The state of a module (C7) *)

Lemma sysfs_path_short name entry :
  (length (cs "/sys/module/" ++ name ++ cs entry) < PATH_MAX)%nat →
  sysfs_path name entry
  = (length (cs "/sys/module/" ++ name ++ cs entry), cs "/sys/module/" ++ name ++ cs entry).
Proof.
  intros H. unfold sysfs_path. f_equal. apply take_ge. lia.
Qed.

Lemma truncate_initstate dir :
  NUL ∉ dir →
  cstr (<[length dir := NUL]> ((dir ++ cs "/initstate") ++ [NUL])) = dir.
Proof.
  intros H. rewrite <- app_assoc.
  rewrite <- (Nat.add_0_r (length dir)), insert_app_r. simpl.
  by apply cstr_app_nul.
Qed.

Lemma sysfs_dir_no_nul name : NUL ∉ name → NUL ∉ cs "/sys/module/" ++ name.
Proof.
  intros H Hin. apply elem_of_app in Hin as [Hin|Hin]; [|done].
  vm_compute in Hin. repeat (apply elem_of_cons in Hin as [Hin|Hin]; [discriminate|]).
  by apply elem_of_nil in Hin.
Qed.

(** C7, as amended.  For a live handle with a name that fits the path
    array, [kmod_module_get_initstate] returns and leaves the state as it
    was.  When [open] on [/sys/module/<name>/initstate] fails with some
    [errno], whichever it is, the result is Builtin if [/sys/module/<name>]
    is a directory and [-errno] otherwise.  When the file opens, a negative
    result of the read is returned as it is; else the contents ["live\n"],
    ["coming\n"] and ["going\n"] give Live, Coming and Going, and any other
    contents give [-EINVAL].  As every [errno] is positive, Builtin is
    reported exactly when the open fails and the directory exists. *)
Theorem initstate_report (fs : sysfs) (w : world) (p : ptr) (m : kmod_module)
  (q : ptr) (name : list ascii) :
  mods w !! p = Some m → mod_name m = Some q → strs w !! q = Some name →
  NUL ∉ name → (length name + 22 < PATH_MAX)%nat →
  ∃ r,
    kmod_module_get_initstate fs p w = Ok r w ∧
    match fs_open fs (cs "/sys/module/" ++ name ++ cs "/initstate") with
    | Some errno =>
        r = match fs_stat fs (cs "/sys/module/" ++ name) with
            | Some true => initstate_code KMOD_MODULE_BUILTIN
            | _ => - errno
            end
    | None =>
        let err := fst (fs_read_str fs (cs "/sys/module/" ++ name ++ cs "/initstate")) in
        let buf := snd (fs_read_str fs (cs "/sys/module/" ++ name ++ cs "/initstate")) in
        r = if err <? 0 then err
            else if bool_decide (cstr buf = cs "live" ++ [LF])
            then initstate_code KMOD_MODULE_LIVE
            else if bool_decide (cstr buf = cs "coming" ++ [LF])
            then initstate_code KMOD_MODULE_COMING
            else if bool_decide (cstr buf = cs "going" ++ [LF])
            then initstate_code KMOD_MODULE_GOING
            else - EINVAL
    end ∧
    ((∀ path e, fs_open fs path = Some e → 0 < e) →
     (r = initstate_code KMOD_MODULE_BUILTIN ↔
      is_Some (fs_open fs (cs "/sys/module/" ++ name ++ cs "/initstate")) ∧
      fs_stat fs (cs "/sys/module/" ++ name) = Some true)).
Proof.
  intros Hm Hn Hs Hnul Hlen.
  assert (Hl : length (cs "/sys/module/" ++ name ++ cs "/initstate")
               = (length name + 22)%nat).
  { rewrite !length_app. simpl. lia. }
  unfold kmod_module_get_initstate.
  rewrite (bind_Ok _ _ _ _ _ (load_mod_Ok _ _ _ Hm)).
  unfold name_arg. rewrite Hn. unfold load_str, bind at 1. rewrite Hs.
  rewrite sysfs_path_short by (rewrite Hl; done).
  rewrite Hl.
  set (path := cs "/sys/module/" ++ name ++ cs "/initstate").
  destruct (fs_open fs path) as [e|] eqn:Eo.
  - replace (length (cs "/initstate") <? length name + 22)%nat with true
      by (symmetry; apply Nat.ltb_lt; simpl; lia).
    replace (length name + 22 - length (cs "/initstate"))%nat
      with (length (cs "/sys/module/" ++ name)) by (rewrite length_app; simpl; lia).
    replace (PATH_MAX <=? length (cs "/sys/module/" ++ name))%nat with false
      by (symmetry; apply Nat.leb_gt; rewrite length_app; simpl length; lia).
    unfold path. rewrite (app_assoc _ name).
    rewrite truncate_initstate by by apply sysfs_dir_no_nul.
    destruct (fs_stat fs (cs "/sys/module/" ++ name)) as [[|]|] eqn:Es.
    + eexists. split_and!; [done|done|]. intros _. split; [|done].
      intros _. by split.
    + eexists. split_and!; [done|done|]. intros Hpos. specialize (Hpos _ _ Eo).
      simpl. split; [lia|]. by intros [_ ?].
    + eexists. split_and!; [done|done|]. intros Hpos. specialize (Hpos _ _ Eo).
      simpl. split; [lia|]. by intros [_ ?].
  - destruct (fs_read_str fs path) as [err buf] eqn:Er.
    rewrite sys_open_close. cbn [fst snd].
    exists (if err <? 0 then err
            else if bool_decide (cstr buf = cs "live" ++ [LF])
            then initstate_code KMOD_MODULE_LIVE
            else if bool_decide (cstr buf = cs "coming" ++ [LF])
            then initstate_code KMOD_MODULE_COMING
            else if bool_decide (cstr buf = cs "going" ++ [LF])
            then initstate_code KMOD_MODULE_GOING
            else - EINVAL).
    split_and!.
    + destruct (err <? 0); [done|]. repeat case_bool_decide; done.
    + done.
    + intros _. split; [|by intros [[? [=]] _]].
      destruct (err <? 0) eqn:E.
      * apply Z.ltb_lt in E. simpl. lia.
      * repeat case_bool_decide; done.
Qed.

Lemma initstate_report_witness :
  kmod_module_get_initstate live_fs 10 (sample_world [])
  = Ok (initstate_code KMOD_MODULE_LIVE) (sample_world []) ∧
  kmod_module_get_initstate eacces_fs 10 (sample_world [])
  = Ok (initstate_code KMOD_MODULE_BUILTIN) (sample_world []).
Proof.
  assert (Hnul : NUL ∉ cs "mod").
  { intros Hin. repeat (apply elem_of_cons in Hin as [Hin|Hin]; [discriminate|]).
    by apply elem_of_nil in Hin. }
  assert (Hlen : (length (cs "mod") + 22 < PATH_MAX)%nat) by (unfold PATH_MAX; simpl; lia).
  split.
  - destruct (initstate_report live_fs (sample_world []) 10
                (KmodModule 1 None (Some 5%positive) [] 1 false) 5 (cs "mod")
                eq_refl eq_refl eq_refl Hnul Hlen) as (r & H1 & H2 & _).
    rewrite H1. simpl in H2. by rewrite H2.
  - destruct (initstate_report eacces_fs (sample_world []) 10
                (KmodModule 1 None (Some 5%positive) [] 1 false) 5 (cs "mod")
                eq_refl eq_refl eq_refl Hnul Hlen) as (r & H1 & H2 & _).
    rewrite H1. simpl in H2. by rewrite H2.
Defined.

(** C7 as stated fails: when the [initstate] file exists but [open] is
    refused ([EACCES], not [ENOENT]) and [/sys/module/<name>] is a
    directory, the module is reported Builtin. *)
Lemma builtin_reported_when_open_is_refused :
  fs_open eacces_fs (cs "/sys/module/mod/initstate") = Some EACCES ∧
  EACCES ≠ ENOENT ∧
  kmod_module_get_initstate eacces_fs 10 (sample_world [])
  = Ok (initstate_code KMOD_MODULE_BUILTIN) (sample_world []).
Proof. split_and!; [reflexivity|discriminate|vm_compute; reflexivity]. Qed.

(** Contents other than the three words are a data error. *)
Example initstate_unknown_contents :
  kmod_module_get_initstate
    (Sysfs (λ _, None) (λ _, (5, cs "live")) (λ _, None) (λ _, None)
           (λ _ _, SectionOpenFails ENOENT))
    10 (sample_world [])
  = Ok (- EINVAL) (sample_world []).
Proof. vm_compute. reflexivity. Qed.

(** ** Tokens: [strtok_r] against the cut at spaces and tabs *)

Lemma is_delim_not_nul c : is_delim dep_delim c = true → c ≠ NUL.
Proof.
  unfold is_delim, dep_delim. simpl. intros H ->. discriminate H.
Qed.

Lemma strspn_app_nul t r d : NUL ∉ t → strspn (t ++ NUL :: r) d = strspn t d.
Proof.
  induction t as [|c t IH]; intros H; simpl; [done|].
  no_nul_head H. rewrite Hc. destruct (is_delim d c); [|done]. f_equal. auto.
Qed.

Lemma strcspn_app_nul t r d : NUL ∉ t → strcspn (t ++ NUL :: r) d = strcspn t d.
Proof.
  induction t as [|c t IH]; intros H; simpl; [done|].
  no_nul_head H. rewrite Hc. destruct (is_delim d c); [done|]. f_equal. auto.
Qed.

Lemma strspn_le t d : (strspn t d ≤ length t)%nat.
Proof.
  induction t as [|c t IH]; simpl; [lia|].
  destruct (is_nul c); [lia|]. destruct (is_delim d c); lia.
Qed.

Lemma strcspn_le t d : (strcspn t d ≤ length t)%nat.
Proof.
  induction t as [|c t IH]; simpl; [lia|].
  destruct (is_nul c); [lia|]. destruct (is_delim d c); lia.
Qed.

(** After the leading separators comes the end or a character that is not
    a separator. *)
Lemma strspn_stop t :
  NUL ∉ t →
  match drop (strspn t dep_delim) t with
  | [] => True
  | c :: _ => is_delim dep_delim c = false
  end.
Proof.
  induction t as [|c t IH]; intros H; simpl; [done|].
  no_nul_head H. rewrite Hc. destruct (is_delim dep_delim c) eqn:E.
  - cbn [drop]. by apply IH.
  - by rewrite drop_0.
Qed.

(** A token ends at the end or at a separator. *)
Lemma strcspn_stop t :
  NUL ∉ t →
  match drop (strcspn t dep_delim) t with
  | [] => True
  | c :: _ => is_delim dep_delim c = true
  end.
Proof.
  induction t as [|c t IH]; intros H; simpl; [done|].
  no_nul_head H. rewrite Hc. destruct (is_delim dep_delim c) eqn:E.
  - by rewrite drop_0.
  - cbn [drop]. by apply IH.
Qed.

Lemma strcspn_pos c t :
  c ≠ NUL → is_delim dep_delim c = false → (0 < strcspn (c :: t) dep_delim)%nat.
Proof.
  intros Hc Hd. simpl. apply is_nul_false in Hc. rewrite Hc, Hd. lia.
Qed.

Lemma tokens_from_skip t :
  NUL ∉ t → tokens_from [] t = tokens_from [] (drop (strspn t dep_delim) t).
Proof.
  induction t as [|c t IH]; intros H; simpl; [done|].
  no_nul_head H. rewrite Hc. destruct (is_delim dep_delim c) eqn:E; simpl.
  - auto.
  - by rewrite E.
Qed.

Lemma tokens_from_token acc t :
  NUL ∉ t →
  tokens_from acc t
  = tokens_from (acc ++ take (strcspn t dep_delim) t) (drop (strcspn t dep_delim) t).
Proof.
  revert acc. induction t as [|c t IH]; intros acc H; simpl.
  - by rewrite app_nil_r.
  - no_nul_head H. rewrite Hc. destruct (is_delim dep_delim c) eqn:E; simpl.
    + rewrite app_nil_r, E. done.
    + rewrite IH by done. by rewrite <- app_assoc.
Qed.

(** The first token of a text and the text left after it. *)
Lemma tokens_unfold t :
  NUL ∉ t →
  tokens t
  = match drop (strspn t dep_delim) t with
    | [] => []
    | r1 =>
        take (strcspn r1 dep_delim) r1
        :: tokens (drop 1 (drop (strcspn r1 dep_delim) r1))
    end.
Proof.
  intros H. unfold tokens. rewrite tokens_from_skip by done.
  pose proof (strspn_stop t H) as Hstop.
  assert (Hr : NUL ∉ drop (strspn t dep_delim) t).
  { intros Hin. apply H. rewrite <- (take_drop (strspn t dep_delim) t).
    apply elem_of_app. by right. }
  destruct (drop (strspn t dep_delim) t) as [|c r1] eqn:E; [done|].
  rewrite tokens_from_token by done. rewrite app_nil_l.
  pose proof (strcspn_stop (c :: r1) Hr) as Hstop2.
  assert (Hpos : (0 < strcspn (c :: r1) dep_delim)%nat).
  { apply strcspn_pos; [|done]. intros ->. apply Hr. constructor. }
  destruct (take (strcspn (c :: r1) dep_delim) (c :: r1)) as [|x tok] eqn:Et.
  { apply (f_equal length) in Et. rewrite length_take in Et.
    cbn [length] in Et. lia. }
  destruct (drop (strcspn (c :: r1) dep_delim) (c :: r1)) as [|d r2]; simpl.
  - done.
  - rewrite Hstop2. by rewrite drop_0.
Qed.

Lemma char_at_head_not_nul c t r : c ≠ NUL → is_nul (char_at ((c :: t) ++ r) 0) = false.
Proof. intros H. unfold char_at. simpl. by apply is_nul_false. Qed.

(** [strtok_r] on an array whose unread part is [ws ++ tok ++ r2]: leading
    separators [ws], then the token [tok], then the end or a separator. *)
Lemma strtok_r_token pre ws tok r2 tl :
  NUL ∉ ws → NUL ∉ tok → tok ≠ [] →
  strspn (ws ++ tok ++ r2 ++ NUL :: tl) dep_delim = length ws →
  strcspn (tok ++ r2 ++ NUL :: tl) dep_delim = length tok →
  match r2 with [] => True | d :: _ => d ≠ NUL end →
  strtok_r (pre ++ ws ++ tok ++ r2 ++ NUL :: tl) (length pre) dep_delim
  = (Some (length (pre ++ ws)),
     (pre ++ ws) ++ tok ++ NUL :: match r2 with [] => tl | _ :: r3 => r3 ++ NUL :: tl end,
     match r2 with
     | [] => length (pre ++ ws ++ tok)
     | _ => S (length (pre ++ ws ++ tok))
     end).
Proof.
  intros Hws Htok Hne Ha Hb Hd. unfold strtok_r.
  destruct tok as [|c tok]; [done|]. clear Hne.
  assert (Hc : c ≠ NUL) by (intros ->; apply Htok; constructor).
  (* the scan does not start on the terminator *)
  rewrite char_at_app_0.
  assert (H0 : is_nul (char_at (ws ++ (c :: tok) ++ r2 ++ NUL :: tl) 0) = false).
  { destruct ws as [|x ws]; [by apply char_at_head_not_nul|].
    apply char_at_head_not_nul. intros ->. apply Hws. constructor. }
  rewrite H0. rewrite drop_app_length, Ha.
  (* the token starts after the separators *)
  replace (length pre + length ws)%nat with (length (pre ++ ws)) by (by rewrite length_app).
  rewrite (app_assoc pre ws).
  rewrite char_at_app_0, char_at_head_not_nul by done.
  rewrite drop_app_length, Hb.
  (* and ends at the end or at a separator *)
  replace (length (pre ++ ws) + length (c :: tok))%nat
    with (length ((pre ++ ws) ++ c :: tok)) by (by rewrite length_app).
  rewrite (app_assoc (pre ++ ws) (c :: tok)).
  rewrite char_at_app_0.
  destruct r2 as [|d r3].
  - unfold char_at. simpl nth. unfold is_nul at 1. rewrite Ascii.eqb_refl.
    rewrite <- !app_assoc. done.
  - rewrite char_at_head_not_nul by done.
    rewrite insert_app_r_alt, Nat.sub_diag by lia.
    simpl. rewrite <- !app_assoc. done.
Qed.

Lemma drop_not_nul {A} (x : A) n l : x ∉ l → x ∉ drop n l.
Proof.
  intros H Hin. apply H. rewrite <- (take_drop n l). apply elem_of_app. by right.
Qed.

Lemma take_not_nul {A} (x : A) n l : x ∉ l → x ∉ take n l.
Proof.
  intros H Hin. apply H. rewrite <- (take_drop n l). apply elem_of_app. by left.
Qed.

(** One round of the token loop on the array: [strtok_r] finds the first
    token of the unread text [rest], [path_to_modname] rewrites it in
    place, and the array is again a read part followed by the unread text
    and the terminator. *)
Lemma token_step pre rest tl :
  NUL ∉ rest →
  drop (strspn rest dep_delim) rest ≠ [] →
  ∃ tok rest' buf1 save1 pre2 x,
    tokens rest = tok :: tokens rest' ∧
    strtok_r (pre ++ rest ++ NUL :: tl) (length pre) dep_delim
    = (Some (length pre + strspn rest dep_delim)%nat, buf1, save1) ∧
    path_to_modname buf1 (length pre + strspn rest dep_delim) false
    = (modname_spec tok, pre2 ++ rest' ++ NUL :: tl) ∧
    save1 = length pre2 ∧
    pre2 = pre ++ x ∧
    tok = take (strcspn (drop (strspn rest dep_delim) rest) dep_delim)
               (drop (strspn rest dep_delim) rest) ∧
    (drop (length tok) (drop (strspn rest dep_delim) rest) ≠ [] →
     x !! (strspn rest dep_delim + length tok)%nat = Some NUL) ∧
    (NUL ∉ tok) ∧ (NUL ∉ rest') ∧ (length rest' < length rest)%nat.
Proof.
  intros Hn Hr1.
  pose proof (tokens_unfold rest Hn) as Htokens.
  pose proof (strspn_stop rest Hn) as Hs1.
  pose proof (strspn_le rest dep_delim) as Hale.
  remember (strspn rest dep_delim) as a eqn:Ea.
  assert (Hr1n : NUL ∉ drop a rest) by (by apply drop_not_nul).
  assert (Hrest1 : rest = take a rest ++ drop a rest) by (by rewrite take_drop).
  remember (drop a rest) as r1 eqn:Er1.
  pose proof (strcspn_stop r1 Hr1n) as Hs2.
  pose proof (strcspn_le r1 dep_delim) as Hble.
  assert (Hbpos : (0 < strcspn r1 dep_delim)%nat).
  { destruct r1 as [|c r1']; [done|].
    apply strcspn_pos; [|done]. intros ->. apply Hr1n. constructor. }
  remember (strcspn r1 dep_delim) as b eqn:Eb.
  assert (Htokn : NUL ∉ take b r1) by (by apply take_not_nul).
  assert (Hr2n : NUL ∉ drop b r1) by (by apply drop_not_nul).
  assert (Hr1s : r1 = take b r1 ++ drop b r1) by (by rewrite take_drop).
  assert (Hlb : length (take b r1) = b) by (rewrite length_take; lia).
  remember (take b r1) as tok eqn:Etok.
  remember (drop b r1) as r2 eqn:Er2.
  assert (Htokens' : tokens rest = tok :: tokens (drop 1 r2)).
  { rewrite Htokens, Etok, Er2, Eb. by destruct r1. }
  clear Htokens.
  assert (Hwsn : NUL ∉ take a rest) by (by apply take_not_nul).
  assert (Hla : length (take a rest) = a) by (rewrite length_take; lia).
  remember (take a rest) as ws eqn:Ews.
  assert (Htokne : tok ≠ []).
  { intros ->. simpl in Hlb. lia. }
  assert (Hd : match r2 with [] => True | d :: _ => d ≠ NUL end).
  { destruct r2 as [|d r3]; [done|]. by apply is_delim_not_nul. }
  pose proof (strtok_r_token pre ws tok r2 tl Hwsn Htokn Htokne) as Hst.
  assert (E2 : tok ++ r2 ++ NUL :: tl = r1 ++ NUL :: tl).
  { rewrite Hr1s. by rewrite <- !app_assoc. }
  assert (E1 : ws ++ tok ++ r2 ++ NUL :: tl = rest ++ NUL :: tl).
  { rewrite E2, Hrest1. by rewrite <- !app_assoc. }
  rewrite E1, E2 in Hst.
  rewrite strspn_app_nul, strcspn_app_nul in Hst by done.
  rewrite <- Ea, <- Eb, Hla, Hlb in Hst.
  specialize (Hst eq_refl eq_refl Hd).
  rewrite length_app, Hla in Hst.
  set (tl1 := match r2 with [] => tl | _ :: r3 => r3 ++ NUL :: tl end) in *.
  pose proof (path_to_modname_inplace (pre ++ ws) tok tl1 Htokn) as Hpm.
  rewrite length_app, Hla in Hpm.
  set (tok' := match modname_spec tok with
               | None => tok
               | Some _ => take (basename tok) tok ++ modname_scan (drop (basename tok) tok)
               end).
  assert (Hlt : length tok' = b).
  { unfold tok'. destruct (modname_spec tok); [|done].
    rewrite length_app, modname_scan_length, <- length_app. by rewrite take_drop. }
  assert (Hbuf2 : match modname_spec tok with
                  | None => (pre ++ ws) ++ tok ++ NUL :: tl1
                  | Some _ => (pre ++ ws) ++ take (basename tok) tok ++
                              modname_scan (drop (basename tok) tok) ++ NUL :: tl1
                  end = (pre ++ ws) ++ tok' ++ NUL :: tl1).
  { unfold tok'. destruct (modname_spec tok); [|done]. by rewrite <- !app_assoc. }
  rewrite Hbuf2 in Hpm. clear Hbuf2.
  exists tok, (drop 1 r2), ((pre ++ ws) ++ tok ++ NUL :: tl1).
  destruct r2 as [|d r3].
  - exists (length (pre ++ ws ++ tok)), (pre ++ ws ++ tok'), (ws ++ tok').
    split_and!.
    + done.
    + done.
    + rewrite Hpm. unfold tl1. simpl. by rewrite <- !app_assoc.
    + rewrite !length_app. lia.
    + done.
    + done.
    + rewrite Hlb. by rewrite <- Er2.
    + done.
    + simpl. apply not_elem_of_nil.
    + simpl. rewrite Hrest1, Hr1s, !length_app. lia.
  - exists (S (length (pre ++ ws ++ tok))), (pre ++ ws ++ tok' ++ [NUL]),
           (ws ++ tok' ++ [NUL]).
    split_and!.
    + done.
    + done.
    + rewrite Hpm. unfold tl1. simpl. rewrite drop_0. by rewrite <- !app_assoc.
    + rewrite !length_app. simpl. lia.
    + done.
    + done.
    + intros _. rewrite lookup_app_r by lia.
      rewrite lookup_app_r by lia.
      by replace (a + length tok - length ws - length tok')%nat with 0%nat by lia.
    + done.
    + simpl. rewrite drop_0. by apply not_elem_of_cons_inv in Hr2n as [_ ?].
    + simpl. rewrite drop_0. rewrite Hrest1, Hr1s, !length_app. simpl. lia.
Qed.

Lemma token_none pre rest tl :
  NUL ∉ rest →
  drop (strspn rest dep_delim) rest = [] →
  tokens rest = [] ∧
  ∃ s, strtok_r (pre ++ rest ++ NUL :: tl) (length pre) dep_delim
       = (None, pre ++ rest ++ NUL :: tl, s).
Proof.
  intros Hn Hr1. split.
  - rewrite tokens_unfold by done. by rewrite Hr1.
  - unfold strtok_r. rewrite char_at_app_0.
    destruct (is_nul (char_at (rest ++ NUL :: tl) 0)); [by eexists|].
    rewrite drop_app_length, strspn_app_nul by done.
    pose proof (strspn_le rest dep_delim) as Hle.
    assert (Hlen : strspn rest dep_delim = length rest).
    { apply (f_equal length) in Hr1. rewrite length_drop in Hr1. simpl in Hr1. lia. }
    rewrite Hlen.
    replace (length pre + length rest)%nat with (length (pre ++ rest))
      by (by rewrite length_app).
    rewrite app_assoc, char_at_app_0. unfold char_at. simpl nth.
    unfold is_nul. rewrite Ascii.eqb_refl. by eexists.
Qed.

(** ** Facts about handles made and released in a row *)

Lemma alloc_fails_ok k w :
  allocs_ok (S k) w →
  alloc_fails w = Ok false (set_oom (drop 1) w) ∧ allocs_ok k (set_oom (drop 1) w).
Proof.
  intros H. apply allocs_ok_S in H as [H1 H2]. unfold alloc_fails. by rewrite H1.
Qed.

Lemma set_oom_drop_drop w :
  set_oom (drop 1) (set_oom (drop 1) w) = set_oom (drop 2) w.
Proof. unfold set_oom. simpl. by rewrite drop_drop. Qed.

Lemma calloc_mod_ok k w :
  allocs_ok (S k) w →
  calloc_mod w = Ok (Some (fresh (dom (mods w)))) (set_oom (drop 1) w).
Proof.
  intros H. destruct (alloc_fails_ok _ _ H) as [H1 _].
  unfold calloc_mod. by rewrite (bind_Ok _ _ _ _ _ H1).
Qed.

Lemma strdup_ok k w s :
  allocs_ok (S k) w →
  strdup s w
  = Ok (Some (fresh (dom (strs w)))) (set_strs <[fresh (dom (strs w)) := s]>
                                               (set_oom (drop 1) w)).
Proof.
  intros H. destruct (alloc_fails_ok _ _ H) as [H1 _].
  unfold strdup. by rewrite (bind_Ok _ _ _ _ _ H1).
Qed.

Lemma new_from_name_ok k w c n :
  allocs_ok (S (S k)) w →
  kmod_module_new_from_name (Some c) (Some n) w
  = Ok (0, Some (fresh (dom (mods w)))) (add_handle c n w) ∧
  allocs_ok k (add_handle c n w).
Proof.
  intros H. destruct (alloc_fails_ok _ _ H) as [_ H2].
  destruct (alloc_fails_ok _ _ H2) as [_ H4].
  unfold kmod_module_new_from_name.
  rewrite (bind_Ok _ _ _ _ _ (calloc_mod_ok _ _ H)).
  unfold kmod_ref, bind at 1.
  erewrite (bind_Ok (strdup n)); [|by apply (strdup_ok k)].
  unfold store_mod, modify, bind, ret.
  split.
  - f_equal. unfold add_handle, set_mods, set_strs, set_ctxs, set_oom, ctx_count.
    simpl. by rewrite drop_drop.
  - unfold allocs_ok in *. unfold add_handle. simpl in *.
    by rewrite drop_drop in H4.
Qed.

Lemma list_append_ok {A} k w (l : list A) (x : A) :
  allocs_ok (S k) w →
  kmod_list_append l x w = Ok (Some (l ++ [x])) (set_oom (drop 1) w) ∧
  allocs_ok k (set_oom (drop 1) w).
Proof.
  intros H. destruct (alloc_fails_ok _ _ H) as [H1 H2].
  unfold kmod_list_append. by rewrite (bind_Ok _ _ _ _ _ H1).
Qed.

Lemma add_handle_mods_old c n w h m :
  mods w !! h = Some m → mods (add_handle c n w) !! h = Some m.
Proof.
  intros H. unfold add_handle. simpl. rewrite lookup_insert_ne; [done|].
  intros <-. by rewrite fresh_mod_None in H.
Qed.

Lemma add_handle_strs_old c n w q s :
  strs w !! q = Some s → strs (add_handle c n w) !! q = Some s.
Proof.
  intros H. unfold add_handle. simpl. rewrite lookup_insert_ne; [done|].
  intros <-. by rewrite fresh_str_None in H.
Qed.

Lemma add_handle_name c n w :
  handle_name (set_oom (drop 1) (add_handle c n w)) (fresh (dom (mods w))) = Some n.
Proof.
  unfold handle_name, add_handle. simpl. rewrite lookup_insert_eq. simpl.
  by rewrite lookup_insert_eq.
Qed.

Lemma handle_name_mono w w' h s :
  (∀ h m, mods w !! h = Some m → mods w' !! h = Some m) →
  (∀ q s, strs w !! q = Some s → strs w' !! q = Some s) →
  handle_name w h = Some s → handle_name w' h = Some s.
Proof.
  intros Hm Hs. unfold handle_name.
  destruct (mods w !! h) as [m|] eqn:E; [|done]. rewrite (Hm _ _ E). simpl.
  destruct (mod_name m) as [q|]; [|done]. simpl. apply Hs.
Qed.

(** ** The dependency list of a line (C4) *)

Lemma modname_of_path_token t : NUL ∉ t → modname_of_path t = modname_spec t.
Proof. intros H. by rewrite modname_of_path_spec, cstr_id. Qed.

Lemma strchr_colon line :
  NUL ∉ line →
  match strchr (line ++ [NUL]) ":"%char with
  | None => after_colon line = None
  | Some i => ∃ subject deps,
      line = subject ++ ":"%char :: deps ∧ i = length subject ∧
      after_colon line = Some deps
  end.
Proof.
  induction line as [|c line IH]; intros H; simpl; [done|].
  no_nul_head H. rewrite Hc.
  destruct (Ascii.eqb c ":"%char) eqn:E.
  - apply Ascii.eqb_eq in E as ->. by exists [], line.
  - specialize (IH Hnn). destruct (strchr (line ++ [NUL]) ":"%char) as [i|]; simpl.
    + destruct IH as (subject & deps & -> & -> & Ha). by exists (c :: subject), deps.
    + done.
Qed.

Lemma parse_dep_loop_ok fuel :
  ∀ ctx pre rest tl lst n w,
    NUL ∉ rest → (length rest < fuel)%nat →
    allocs_ok (3 * length (tokens rest)) w →
    Forall (λ t, is_Some (modname_of_path t)) (tokens rest) →
    0 ≤ n → n + Z.of_nat (length (tokens rest)) ≤ INT_MAX →
    ∃ buf' new w',
      parse_dep_loop fuel ctx (pre ++ rest ++ NUL :: tl) (length pre) lst n w
      = Ok (LoopDone (lst ++ new) (n + Z.of_nat (length (tokens rest))), buf') w' ∧
      map (handle_name w') new = map modname_of_path (tokens rest) ∧
      Forall (λ h, mods w !! h = None) new ∧
      (∀ h m, mods w !! h = Some m → mods w' !! h = Some m) ∧
      (∀ q s, strs w !! q = Some s → strs w' !! q = Some s).
Proof.
  induction fuel as [|fuel IH]; intros ctx pre rest tl lst n w Hn Hf Ha Hcan Hn0 Hmax;
    [lia|].
  cbn [parse_dep_loop].
  destruct (drop (strspn rest dep_delim) rest) as [|c r1] eqn:Er1.
  - destruct (token_none pre rest tl Hn Er1) as [Ht [s Hs]].
    rewrite Hs, Ht. simpl. exists (pre ++ rest ++ NUL :: tl), [], w.
    rewrite app_nil_r, Z.add_0_r. split_and!; done.
  - destruct (token_step pre rest tl Hn) as
      (tok & rest' & buf1 & save1 & pre2 & x & Ht & Hs & Hp & -> & -> & _ & _ &
       Htn & Hrn & Hlen); [by rewrite Er1|].
    rewrite Hs, Hp. rewrite Ht in Ha, Hcan, Hmax. cbn [length] in Ha, Hmax.
    apply Forall_cons in Hcan as [[name Hname] Hcan].
    rewrite modname_of_path_token in Hname by done. rewrite Hname.
    replace (3 * S (length (tokens rest')))%nat
      with (S (S (S (3 * length (tokens rest'))))) in Ha by lia.
    destruct (new_from_name_ok _ w ctx name Ha) as [Hnew Ha1].
    rewrite (bind_Ok _ _ _ _ _ Hnew). cbn [fst snd Z.ltb Z.compare].
    destruct (list_append_ok _ _ lst (fresh (dom (mods w))) Ha1) as [Happ Ha2].
    rewrite (bind_Ok _ _ _ _ _ Happ). unfold default. cbn [from_option id].
    rewrite wrap_int_id by (unfold INT_MIN; lia).
    destruct (IH ctx (pre ++ x) rest' tl (lst ++ [fresh (dom (mods w))]) (n + 1)
                (set_oom (drop 1) (add_handle ctx name w)))
      as (buf' & new & w' & Hloop & Hnames & Hfresh & Hmods & Hstrs);
      [done|lia|done|done|lia|lia|].
    rewrite Hloop. exists buf', (fresh (dom (mods w)) :: new), w'.
    split_and!.
    + rewrite Ht. cbn [length]. rewrite <- app_assoc. simpl.
      do 3 f_equal. lia.
    + rewrite Ht. cbn [map]. f_equal; [|done].
      rewrite modname_of_path_token, Hname by done.
      eapply handle_name_mono; [exact Hmods|exact Hstrs|]. apply add_handle_name.
    + constructor; [apply fresh_mod_None|].
      eapply Forall_impl; [exact Hfresh|]. intros h Hh.
      change (mods (add_handle ctx name w) !! h = None) in Hh.
      destruct (mods w !! h) as [m|] eqn:E; [|done].
      by rewrite (add_handle_mods_old _ _ _ _ _ E) in Hh.
    + intros h m Hh. apply Hmods. by apply (add_handle_mods_old ctx name).
    + intros q s Hq. apply Hstrs. by apply (add_handle_strs_old ctx name).
Qed.

Lemma handle_name_store_other w md m' h :
  h ≠ md → handle_name (set_mods <[md := m']> w) h = handle_name w h.
Proof. intros Hne. unfold handle_name. simpl. by rewrite lookup_insert_ne. Qed.

(** The list the call builds, with the names as [path_to_modname] computes
    them. *)
Lemma parse_dep_names (w : world) (md : ptr) (m : kmod_module)
  (line : list ascii) :
  mods w !! md = Some m → mod_init_dep m = false → mod_dep m = [] →
  NUL ∉ line →
  match after_colon line with
  | None =>
      kmod_module_parse_dep md (line ++ [NUL]) w
      = Ok (0, line ++ [NUL]) (set_mods <[md := set_init_dep true m]> w)
  | Some deps =>
      allocs_ok (3 * length (tokens deps)) w →
      Forall (λ t, is_Some (modname_of_path t)) (tokens deps) →
      Z.of_nat (length (tokens deps)) ≤ INT_MAX →
      ∃ buf' handles w',
        kmod_module_parse_dep md (line ++ [NUL]) w
        = Ok (Z.of_nat (length (tokens deps)), buf') w' ∧
        mods w' !! md = Some (set_dep handles (set_init_dep true m)) ∧
        length handles = length (tokens deps) ∧
        map (handle_name w') handles = map modname_of_path (tokens deps) ∧
        Forall (λ h, mods w !! h = None) handles
  end.
Proof.
  intros Hm Hi Hd Hn. unfold kmod_module_parse_dep.
  rewrite (bind_Ok _ _ _ _ _ (load_mod_Ok _ _ _ Hm)), Hi, Hd.
  cbn [orb negb]. rewrite bool_decide_eq_true_2 by done. cbn [negb].
  unfold store_mod at 1. unfold modify, bind at 1.
  pose proof (strchr_colon line Hn) as Hc.
  destruct (strchr (line ++ [NUL]) ":"%char) as [i|].
  - destruct Hc as (subject & deps & -> & -> & ->).
    intros Ha Hcan Hmax.
    set (w1 := set_mods <[md := set_init_dep true m]> w).
    assert (Hbuf : (subject ++ ":"%char :: deps) ++ [NUL]
                   = (subject ++ [":"%char]) ++ deps ++ NUL :: []).
    { by rewrite <- !app_assoc. }
    assert (Hlen : S (length subject) = length (subject ++ [":"%char])).
    { rewrite length_app. simpl. lia. }
    assert (Hdn : NUL ∉ deps).
    { intros Hin. apply Hn. apply elem_of_app. right. by constructor. }
    destruct (parse_dep_loop_ok (S (length ((subject ++ ":"%char :: deps) ++ [NUL])))
                (mod_ctx m) (subject ++ [":"%char]) deps [] [] 0 w1)
      as (buf' & new & w' & Hloop & Hnames & Hfresh & Hmods & Hstrs).
    { done. }
    { rewrite !length_app. simpl. lia. }
    { done. }
    { done. }
    { done. }
    { lia. }
    rewrite <- Hbuf, <- Hlen in Hloop.
    rewrite (bind_Ok _ _ _ _ _ Hloop). cbn beta iota.
    assert (Hmd : mods w' !! md = Some (set_init_dep true m)).
    { apply Hmods. unfold w1. simpl. apply lookup_insert_eq. }
    rewrite (bind_Ok _ _ _ _ _ (load_mod_Ok _ _ _ Hmd)).
    unfold store_mod, modify, bind, ret. simpl.
    eexists _, new, _. split_and!.
    + done.
    + simpl. apply lookup_insert_eq.
    + apply (f_equal length) in Hnames. by rewrite !length_map in Hnames.
    + rewrite <- Hnames. apply map_ext_Forall.
      eapply Forall_impl; [exact Hfresh|]. intros h Hh.
      apply handle_name_store_other. intros ->.
      unfold w1 in Hh. simpl in Hh. by rewrite lookup_insert_eq in Hh.
    + eapply Forall_impl; [exact Hfresh|]. intros h Hh.
      unfold w1 in Hh. simpl in Hh.
      destruct (decide (h = md)) as [->|Hne].
      * by rewrite lookup_insert_eq in Hh.
      * by rewrite lookup_insert_ne in Hh.
  - by rewrite Hc.
Qed.

Ltac no_nul_literal :=
  let H := fresh in
  intros H; repeat (apply elem_of_cons in H as [H|H]; [discriminate|]);
  by apply elem_of_nil in H.

(** The final component, read off the string, is what [basename] points
    at. *)
Lemma final_component_basename t :
  NUL ∉ t → final_component t = drop (basename t) t.
Proof.
  induction t as [|c t IH]; intros Hn; [done|].
  assert (Hn' := Hn). no_nul_head Hn'.
  cbn [final_component]. unfold basename. cbn [strrchr]. rewrite Hc.
  destruct (bool_decide ("/"%char ∈ t)) eqn:E.
  - apply bool_decide_eq_true in E.
    destruct (strrchr t "/"%char) as [i|] eqn:Er.
    + rewrite IH by done. unfold basename. by rewrite Er.
    + apply strrchr_none in Er; done.
  - apply bool_decide_eq_false in E. rewrite strrchr_absent by done.
    by destruct (Ascii.eqb c "/"%char).
Qed.

Lemma modname_spec_final_component t :
  NUL ∉ t →
  modname_spec t
  = match final_component t with [] => None | b => Some (canon b) end.
Proof. intros Hn. unfold modname_spec. by rewrite final_component_basename. Qed.

Lemma tokens_from_chars l : ∀ acc t c,
  t ∈ tokens_from acc l → c ∈ t → c ∈ acc ∨ c ∈ l.
Proof.
  induction l as [|x l IH]; intros acc t c Ht Hc; simpl in Ht.
  - destruct acc as [|a acc]; [by apply elem_of_nil in Ht|].
    apply list_elem_of_singleton in Ht as ->. by left.
  - destruct (is_delim dep_delim x).
    + destruct acc as [|a acc].
      * destruct (IH _ _ _ Ht Hc) as [H|H]; [by apply elem_of_nil in H|].
        right. by right.
      * apply elem_of_cons in Ht as [->|Ht]; [by left|].
        destruct (IH _ _ _ Ht Hc) as [H|H]; [by apply elem_of_nil in H|].
        right. by right.
    + destruct (IH _ _ _ Ht Hc) as [H|H].
      * apply elem_of_app in H as [H|H]; [by left|].
        apply list_elem_of_singleton in H as ->. right. by left.
      * right. by right.
Qed.

Lemma tokens_no_nul l : NUL ∉ l → Forall (λ t, NUL ∉ t) (tokens l).
Proof.
  intros Hn. apply Forall_forall. intros t Ht Hc.
  destruct (tokens_from_chars _ _ _ _ Ht Hc) as [H|H]; [by apply elem_of_nil in H|done].
Qed.

Lemma after_colon_chars line : ∀ deps c,
  after_colon line = Some deps → c ∈ deps → c ∈ line.
Proof.
  induction line as [|x line IH]; intros deps c; simpl; [done|].
  destruct (Ascii.eqb x ":"%char).
  - intros [= <-] H. by right.
  - intros H1 H2. right. eauto.
Qed.

(** C4, as amended.  For a handle in the not-started state and a line
    without NUL: if the line has no colon, [kmod_module_parse_dep] returns
    0, leaves the array alone and leaves the dependency list empty;
    otherwise, when every token after the first colon has a non-empty final
    path component, the count of tokens fits an [int] and no allocation
    fails, it returns the number of tokens, and the handle's dependency list
    holds one handle per token, each of them new, in the order of the
    tokens, the handle of a token being named by the token's final path
    component cut at its first ['.'] with every ['-'] before that turned
    into ['_'].  The tokens, the final component and its canonical form are
    computed on the text of the line, independently of the code. *)
Theorem parse_dep_lists_tokens (w : world) (md : ptr) (m : kmod_module)
  (line : list ascii) :
  mods w !! md = Some m → mod_init_dep m = false → mod_dep m = [] →
  NUL ∉ line →
  match after_colon line with
  | None =>
      kmod_module_parse_dep md (line ++ [NUL]) w
      = Ok (0, line ++ [NUL]) (set_mods <[md := set_init_dep true m]> w)
  | Some deps =>
      allocs_ok (3 * length (tokens deps)) w →
      Forall (λ t, final_component t ≠ []) (tokens deps) →
      Z.of_nat (length (tokens deps)) ≤ INT_MAX →
      ∃ buf' handles w',
        kmod_module_parse_dep md (line ++ [NUL]) w
        = Ok (Z.of_nat (length (tokens deps)), buf') w' ∧
        mods w' !! md = Some (set_dep handles (set_init_dep true m)) ∧
        length handles = length (tokens deps) ∧
        map (handle_name w') handles
        = map (λ t, Some (canon (final_component t))) (tokens deps) ∧
        Forall (λ h, mods w !! h = None) handles
  end.
Proof.
  intros Hm Hi Hd Hn.
  pose proof (parse_dep_names w md m line Hm Hi Hd Hn) as H.
  destruct (after_colon line) as [deps|] eqn:Hac; [|exact H].
  intros Ha Hfc Hmax.
  assert (Htn : Forall (λ t, NUL ∉ t) (tokens deps)).
  { apply tokens_no_nul. intros Hin. apply Hn. by eapply after_colon_chars. }
  assert (Hname : Forall (λ t, modname_of_path t = Some (canon (final_component t)))
                    (tokens deps)).
  { apply Forall_forall. intros t Ht.
    rewrite Forall_forall in Htn, Hfc. specialize (Htn t Ht). specialize (Hfc t Ht).
    rewrite modname_of_path_token, modname_spec_final_component by done.
    by destruct (final_component t). }
  destruct H as (buf' & handles & w' & H1 & H2 & H3 & H4 & H5).
  - done.
  - eapply Forall_impl; [exact Hname|]. intros t ->. by eexists.
  - done.
  - exists buf', handles, w'. split_and!; try done.
    rewrite H4. by apply map_ext_Forall.
Qed.

Lemma parse_dep_lists_tokens_witness :
  ∃ buf' handles w',
    kmod_module_parse_dep 10 (cs "mod: /lib/snd-pcm.ko b c.ko.xz" ++ [NUL])
                          (sample_world [])
    = Ok (3, buf') w' ∧
    mod_dep <$> mods w' !! 10%positive = Some handles ∧
    length handles = 3%nat ∧
    map (handle_name w') handles
    = [Some (cs "snd_pcm"); Some (cs "b"); Some (cs "c")].
Proof.
  assert (Hn : NUL ∉ cs "mod: /lib/snd-pcm.ko b c.ko.xz") by no_nul_literal.
  pose proof (parse_dep_lists_tokens (sample_world []) 10
                (KmodModule 1 None (Some 5%positive) [] 1 false)
                (cs "mod: /lib/snd-pcm.ko b c.ko.xz") eq_refl eq_refl eq_refl Hn) as H.
  change (after_colon (cs "mod: /lib/snd-pcm.ko b c.ko.xz"))
    with (Some (cs " /lib/snd-pcm.ko b c.ko.xz")) in H.
  destruct H as (buf' & handles & w' & H1 & H2 & H3 & H4 & _).
  - reflexivity.
  - repeat constructor; discriminate.
  - vm_compute. discriminate.
  - exists buf', handles, w'. split_and!.
    + exact H1.
    + by rewrite H2.
    + exact H3.
    + exact H4.
Defined.

(** C4 as stated fails: not every line with a colon yields one handle per
    token.  In ["m: a/ b"] the token ["a/"] has an empty final component:
    the call returns [-ENOENT] for a line of two tokens and the handle is
    left without dependencies, in the not-started state.  When the handle
    of a token cannot be allocated the call returns [-ENOMEM]. *)
Lemma parse_dep_token_without_name :
  after_colon (cs "m: a/ b") = Some (cs " a/ b") ∧
  tokens (cs " a/ b") = [cs "a/"; cs "b"] ∧
  final_component (cs "a/") = [] ∧
  (∃ buf' w',
     kmod_module_parse_dep 10 (cs "m: a/ b" ++ [NUL]) (sample_world [])
     = Ok (- ENOENT, buf') w' ∧
     mods w' !! 10%positive = Some (KmodModule 1 None (Some 5%positive) [] 1 false)) ∧
  (∃ buf' w',
     kmod_module_parse_dep 10 (cs "m: a" ++ [NUL]) (sample_world [true])
     = Ok (- ENOMEM, buf') w' ∧
     mods w' !! 10%positive = Some (KmodModule 1 None (Some 5%positive) [] 1 false)) ∧
  ¬ (∀ line deps, NUL ∉ line → after_colon line = Some deps →
       ∃ buf' w',
         kmod_module_parse_dep 10 (line ++ [NUL]) (sample_world [])
         = Ok (Z.of_nat (length (tokens deps)), buf') w').
Proof.
  split_and!; [reflexivity|reflexivity|reflexivity| | |].
  - eexists _, _. split; vm_compute; reflexivity.
  - eexists _, _. split; vm_compute; reflexivity.
  - intros H.
    destruct (H (cs "m: a/ b") (cs " a/ b")) as (buf' & w' & Heq);
      [no_nul_literal|reflexivity|].
    vm_compute in Heq. discriminate Heq.
Qed.

(** The count and the list part ways when a list node cannot be allocated
    (the append at line 115 is not tested): on ["m: a b"], with the node
    for [a] failing, the call returns 2 and the list holds the handle of
    [b] alone. *)
Example parse_dep_count_after_failed_node :
  match kmod_module_parse_dep 10 (cs "m: a b" ++ [NUL])
          (sample_world [false; false; true]) with
  | Ok (n, _) w' =>
      n = 2 ∧
      (l ← mod_dep <$> mods w' !! 10%positive; Some (map (handle_name w') l))
      = Some [Some (cs "b")]
  | Crash _ => False
  end.
Proof. vm_compute. split; reflexivity. Qed.

(** Path-like tokens and tabs; a line without colon. *)
Example parse_dep_examples :
  match kmod_module_parse_dep 10
          (cs "mod:/lib/snd-pcm.ko" ++ ["009"%char] ++ cs " soundcore.ko.xz " ++ [NUL])
          (sample_world []) with
  | Ok (n, _) w' =>
      n = 2 ∧
      (l ← mod_dep <$> mods w' !! 10%positive; Some (map (handle_name w') l))
      = Some [Some (cs "snd_pcm"); Some (cs "soundcore")]
  | Crash _ => False
  end ∧
  kmod_module_parse_dep 10 (cs "mod" ++ [NUL]) (sample_world [])
  = Ok (0, cs "mod" ++ [NUL])
       (set_mods <[10%positive := KmodModule 1 None (Some 5%positive) [] 1 true]>
                 (sample_world [])).
Proof. vm_compute. split_and!; reflexivity. Qed.

(** ** The token loop in every environment *)

Lemma releasable_snoc lst : ∀ ms ss h c q,
  releasable lst ms ss →
  ms !! h = None →
  (∀ p, q = Some p → ss !! p = None) →
  ∀ n,
  releasable (lst ++ [h]) (<[h := KmodModule c None q [] 1 false]> ms)
             (from_option (λ p, <[p := n]> ss) ss q).
Proof.
  induction lst as [|h0 l IH]; intros ms ss h c q Hrel Hh Hq n.
  - simpl. eexists. rewrite lookup_insert_eq. split_and!; try done.
    simpl. intros p ->. simpl. rewrite lookup_insert_eq. by eexists.
  - destruct Hrel as (m0 & Hm0 & Hr0 & Hd0 & Hp0 & Hn0 & Hrel).
    assert (Hne : h ≠ h0) by (intros ->; congruence).
    assert (Hh' : delete h0 ms !! h = None) by (by rewrite lookup_delete_ne).
    cbn [app releasable]. exists m0. rewrite lookup_insert_ne by done.
    split_and!; try done.
    + intros p Hp. destruct (Hn0 p Hp) as [s Hs]. destruct q as [pq|]; simpl.
      * rewrite lookup_insert_ne; [by eexists|]. intros Heq.
        rewrite <- Heq, (Hq pq eq_refl) in Hs. done.
      * by eexists.
    + rewrite delete_insert_ne by done.
      destruct (mod_name m0) as [p0|] eqn:En0; cbn [from_option id] in *.
      * destruct (Hn0 p0 eq_refl) as [s0 Hs0].
        destruct q as [pq|]; cbn [from_option].
        -- assert (pq ≠ p0).
           { intros Heq. rewrite <- Heq, (Hq pq eq_refl) in Hs0. done. }
           rewrite delete_insert_ne by done.
           refine (IH (delete h0 ms) (delete p0 ss) h c (Some pq) Hrel Hh' _ n).
           intros p [= <-]. rewrite lookup_delete_ne by done. by apply Hq.
        -- exact (IH (delete h0 ms) (delete p0 ss) h c None Hrel Hh'
                     ltac:(done) n).
      * destruct q as [pq|]; cbn [from_option].
        -- exact (IH (delete h0 ms) ss h c (Some pq) Hrel Hh' Hq n).
        -- exact (IH (delete h0 ms) ss h c None Hrel Hh' Hq n).
Qed.

Lemma unref_list_releasable f lst : ∀ w,
  releasable lst (mods w) (strs w) →
  ∃ w',
    unref_list_with (unref_fuel (S f)) lst w = Ok 0 w' ∧
    (∀ h, h ∉ lst → mods w' !! h = mods w !! h) ∧
    fds w' = fds w ∧ maps w' = maps w ∧ oom w' = oom w.
Proof.
  induction lst as [|h l IH]; intros w Hrel.
  - exists w. by split_and!.
  - destruct Hrel as (m & Hm & Hr & Hd & Hp & Hn & Hrel).
    destruct (unref_fuel_leaf f w h m Hm Hr Hd) as
      (w1 & H1 & Hm1 & Hs1 & _ & _ & Hf1 & Hmp1 & Ho1).
    { intros q Hq. congruence. }
    { done. }
    { intros q Hq. congruence. }
    rewrite Hp in Hs1. simpl in Hs1.
    destruct (IH w1) as (w' & H2 & Hm2 & Hf2 & Hmp2 & Ho2).
    { by rewrite Hm1, Hs1. }
    exists w'. cbn [unref_list_with]. rewrite (bind_Ok _ _ _ _ _ H1).
    split_and!; try congruence.
    intros h' Hh'. apply not_elem_of_cons in Hh' as [Hne Hh'].
    rewrite (Hm2 h' Hh'), Hm1. by rewrite lookup_delete_ne.
Qed.

Lemma releasable_unref_list lst w :
  releasable lst (mods w) (strs w) →
  ∃ w',
    kmod_module_unref_list lst w = Ok 0 w' ∧
    (∀ h, h ∉ lst → mods w' !! h = mods w !! h) ∧
    fds w' = fds w ∧ maps w' = maps w ∧ oom w' = oom w.
Proof.
  intros Hrel. unfold kmod_module_unref_list.
  destruct lst as [|h l].
  - exists w. by split_and!.
  - assert (Hsz : ∃ f, unref_depth w = S f).
    { destruct Hrel as (m & Hm & _). unfold unref_depth.
      destruct (size (mods w)) as [|f] eqn:E; [|by eexists].
      apply map_size_empty_iff in E. rewrite E in Hm. by rewrite lookup_empty in Hm. }
    destruct Hsz as [f ->]. by apply unref_list_releasable.
Qed.

(** What [kmod_module_new_from_name] does with a context at hand: it fails
    and changes no heap, or it adds one handle with count 1 whose name is a
    fresh copy, or NULL when [strdup] failed. *)
Lemma new_from_name_cases w c name :
  (∃ e w', kmod_module_new_from_name (Some c) name w = Ok (e, None) w' ∧ e < 0 ∧
           mods w' = mods w ∧ strs w' = strs w ∧ fds w' = fds w ∧ maps w' = maps w) ∨
  (∃ n q w', name = Some n ∧
     kmod_module_new_from_name (Some c) name w
     = Ok (0, Some (fresh (dom (mods w)))) w' ∧
     mods w' = <[fresh (dom (mods w)) := KmodModule c None q [] 1 false]> (mods w) ∧
     (∀ p, q = Some p → strs w !! p = None) ∧
     strs w' = from_option (λ p, <[p := n]> (strs w)) (strs w) q ∧
     fds w' = fds w ∧ maps w' = maps w).
Proof.
  destruct name as [n|]; [|left; by eexists _, _].
  assert (Hc : calloc_mod w
               = Ok (if hd false (oom w) then None else Some (fresh (dom (mods w))))
                    (set_oom (drop 1) w)).
  { unfold calloc_mod, bind, alloc_fails. by destruct (hd false (oom w)). }
  unfold kmod_module_new_from_name. rewrite (bind_Ok _ _ _ _ _ Hc). clear Hc.
  destruct (hd false (oom w)).
  - left. eexists _, _. split_and!; done.
  - right. unfold kmod_ref, bind at 1.
    set (w2 := set_ctxs _ (set_oom (drop 1) w)).
    assert (Hs : strdup n w2
                 = Ok (if hd false (oom w2) then None else Some (fresh (dom (strs w))))
                      (if hd false (oom w2) then set_oom (drop 1) w2
                       else set_strs <[fresh (dom (strs w)) := n]> (set_oom (drop 1) w2))).
    { unfold strdup, bind, alloc_fails. by destruct (hd false (oom w2)). }
    rewrite (bind_Ok _ _ _ _ _ Hs). clear Hs.
    unfold store_mod, modify, bind, ret.
    destruct (hd false (oom w2)).
    + exists n, None. eexists. split_and!; done.
    + exists n, (Some (fresh (dom (strs w)))). eexists. split_and!; try done.
      intros p [= <-]. apply fresh_str_None.
Qed.

Lemma list_append_cases {A} (l : list A) (x : A) w :
  kmod_list_append l x w
  = Ok (if hd false (oom w) then None else Some (l ++ [x])) (set_oom (drop 1) w).
Proof. unfold kmod_list_append, bind, alloc_fails. by destruct (hd false (oom w)). Qed.

(** Whatever the allocations do, the token loop ends; the array keeps what
    lies before [save]; if the first token is followed by a separator, that
    separator has become NUL; the handles already in the heap are
    untouched; and the list the loop leaves with can be released. *)
Lemma parse_dep_loop_total fuel :
  ∀ ctx pre rest tl lst n w,
    NUL ∉ rest → (length rest < fuel)%nat →
    releasable lst (mods w) (strs w) →
    ∃ exit buf' w' x,
      parse_dep_loop fuel ctx (pre ++ rest ++ NUL :: tl) (length pre) lst n w
      = Ok (exit, buf') w' ∧
      buf' = pre ++ x ∧
      (drop (strcspn (drop (strspn rest dep_delim) rest) dep_delim)
            (drop (strspn rest dep_delim) rest) ≠ [] →
       x !! (strspn rest dep_delim
             + strcspn (drop (strspn rest dep_delim) rest) dep_delim)%nat = Some NUL) ∧
      releasable (exit_list exit) (mods w') (strs w') ∧
      (∀ h, h ∈ exit_list exit → h ∈ lst ∨ mods w !! h = None) ∧
      (∀ h m, mods w !! h = Some m → mods w' !! h = Some m) ∧
      fds w' = fds w ∧ maps w' = maps w ∧
      match exit with
      | LoopFail e _ => e < 0
      | LoopDone _ n' => 0 ≤ n → n + Z.of_nat (length rest) ≤ INT_MAX → 0 ≤ n'
      end.
Proof.
  induction fuel as [|fuel IH]; intros ctx pre rest tl lst n w Hn Hf Hrel; [lia|].
  cbn [parse_dep_loop].
  destruct (drop (strspn rest dep_delim) rest) as [|c r1] eqn:Er1.
  - destruct (token_none pre rest tl Hn Er1) as [Ht [s Hs]].
    rewrite Hs. simpl. exists (LoopDone lst n), (pre ++ rest ++ NUL :: tl), w, (rest ++ NUL :: tl).
    split_and!; try done. intros h Hh. by left.
  - destruct (token_step pre rest tl Hn) as
      (tok & rest' & buf1 & save1 & pre2 & x & Ht & Hs & Hp & -> & -> & Htok & Hnul &
       Htn & Hrn & Hlen); [by rewrite Er1|].
    rewrite Er1 in Htok, Hnul.
    assert (Hlt : length tok = strcspn (c :: r1) dep_delim).
    { rewrite Htok, length_take. pose proof (strcspn_le (c :: r1) dep_delim). lia. }
    rewrite Hlt in Hnul.
    rewrite Hs, Hp.
    destruct (new_from_name_cases w ctx (modname_spec tok)) as
      [(e & w1 & Hnew & He & Hm1 & Hs1 & Hf1 & Hmp1)|
       (name & q & w1 & Hname & Hnew & Hm1 & Hq & Hs1 & Hf1 & Hmp1)].
    + rewrite (bind_Ok _ _ _ _ _ Hnew). cbn [fst snd].
      pose proof He as He'. apply Z.ltb_lt in He. rewrite He.
      exists (LoopFail e lst), ((pre ++ x) ++ rest' ++ NUL :: tl), w1,
             (x ++ rest' ++ NUL :: tl).
      split_and!; try done.
      * by rewrite <- app_assoc.
      * intros Hne. specialize (Hnul Hne).
        rewrite lookup_app_l; [done|]. by eapply lookup_lt_Some.
      * simpl. by rewrite Hm1, Hs1.
      * intros h Hh. by left.
      * intros h m Hh. by rewrite Hm1.
    + rewrite (bind_Ok _ _ _ _ _ Hnew). cbn [fst snd Z.ltb Z.compare].
      rewrite (bind_Ok _ _ _ _ _ (list_append_cases _ _ _)).
      set (lst' := default [] (if hd false (oom w1) then None
                               else Some (lst ++ [fresh (dom (mods w))]))).
      assert (Hrel' : releasable lst' (mods w1) (strs w1)).
      { unfold lst'. destruct (hd false (oom w1)); [done|]. simpl.
        rewrite Hm1, Hs1. apply releasable_snoc; [done|apply fresh_mod_None|done]. }
      assert (Hin' : ∀ h, h ∈ lst' → h ∈ lst ∨ mods w !! h = None).
      { unfold lst'. intros h. destruct (hd false (oom w1)); simpl.
        - intros Hh. by apply elem_of_nil in Hh.
        - intros Hh. apply elem_of_app in Hh as [Hh|Hh]; [by left|right].
          apply list_elem_of_singleton in Hh as ->. apply fresh_mod_None. }
      destruct (IH ctx (pre ++ x) rest' tl lst' (wrap_int (n + 1)) (set_oom (drop 1) w1))
        as (exit & buf' & w' & x2 & Hloop & -> & _ & Hrel2 & Hin2 & Hmods & Hf2 & Hmp2
            & Hexit);
        [done|lia|done|].
      assert (Hexit' : match exit with
                       | LoopFail e _ => e < 0
                       | LoopDone _ n' =>
                           0 ≤ n → n + Z.of_nat (length rest) ≤ INT_MAX → 0 ≤ n'
                       end).
      { destruct exit as [l' n'|]; [|done]. intros Hn0 Hmax.
        rewrite wrap_int_id in Hexit by (unfold INT_MIN; lia).
        apply Hexit; lia. }
      rewrite Hloop. exists exit, ((pre ++ x) ++ x2), w', (x ++ x2).
      split_and!; try done.
      * by rewrite <- app_assoc.
      * intros Hne. specialize (Hnul Hne).
        rewrite lookup_app_l; [done|]. by eapply lookup_lt_Some.
      * intros h Hh. destruct (Hin2 h Hh) as [Hl|Hnone]; [by apply Hin'|].
        right. simpl in Hnone. rewrite Hm1 in Hnone.
        destruct (decide (h = fresh (dom (mods w)))) as [->|Hne];
          [apply fresh_mod_None|].
        by rewrite lookup_insert_ne in Hnone.
      * intros h m Hh. apply Hmods. simpl. rewrite Hm1.
        rewrite lookup_insert_ne; [done|]. intros <-.
        by rewrite fresh_mod_None in Hh.
      * simpl in Hf2. congruence.
      * simpl in Hmp2. congruence.
Qed.

Lemma set_init_dep_reset m :
  mod_init_dep m = false → set_init_dep false (set_init_dep true m) = m.
Proof. destruct m. simpl. by intros ->. Qed.

(** The count the loop leaves with, when it leaves by its end: one more
    than on entry for every token of the text. *)
Lemma parse_dep_loop_count fuel :
  ∀ ctx pre rest tl lst n w l' n' buf' w',
    NUL ∉ rest → (length rest < fuel)%nat →
    0 ≤ n → n + Z.of_nat (length (tokens rest)) ≤ INT_MAX →
    parse_dep_loop fuel ctx (pre ++ rest ++ NUL :: tl) (length pre) lst n w
    = Ok (LoopDone l' n', buf') w' →
    n' = n + Z.of_nat (length (tokens rest)).
Proof.
  induction fuel as [|fuel IH];
    intros ctx pre rest tl lst n w l' n' buf' w' Hn Hf Hn0 Hmax; [lia|].
  cbn [parse_dep_loop].
  destruct (drop (strspn rest dep_delim) rest) as [|c r1] eqn:Er1.
  - destruct (token_none pre rest tl Hn Er1) as [Ht [s Hs]].
    rewrite Hs, Ht. intros [= _ <- _ _]. simpl. lia.
  - destruct (token_step pre rest tl Hn) as
      (tok & rest' & buf1 & save1 & pre2 & x & Ht & Hs & Hp & -> & -> & _ & _ &
       Htn & Hrn & Hlen); [by rewrite Er1|].
    rewrite Hs, Hp. intros H.
    apply bind_Ok_inv in H as (r & w1 & _ & H).
    destruct (fst r <? 0); [done|].
    destruct (snd r) as [depmod|]; [|done].
    apply bind_Ok_inv in H as (l & w2 & _ & H).
    rewrite Ht in Hmax |- *. cbn [length] in Hmax |- *.
    apply IH in H; [|done|lia|rewrite wrap_int_id by (unfold INT_MIN; lia); lia|
                    rewrite wrap_int_id by (unfold INT_MIN; lia); lia].
    rewrite wrap_int_id in H by (unfold INT_MIN; lia). lia.
Qed.

Lemma strchr_colon_tail line tl :
  NUL ∉ line →
  match strchr (line ++ NUL :: tl) ":"%char with
  | None => after_colon line = None
  | Some i => ∃ subject deps,
      line = subject ++ ":"%char :: deps ∧ i = length subject ∧
      after_colon line = Some deps
  end.
Proof.
  induction line as [|c line IH]; intros H; simpl; [done|].
  no_nul_head H. rewrite Hc.
  destruct (Ascii.eqb c ":"%char) eqn:E.
  - apply Ascii.eqb_eq in E as ->. by exists [], line.
  - specialize (IH Hnn). destruct (strchr (line ++ NUL :: tl) ":"%char) as [i|]; simpl.
    + destruct IH as (subject & deps & -> & -> & Ha). by exists (c :: subject), deps.
    + done.
Qed.

(** [kmod_module_parse_dep] on a line with a colon, whatever follows the
    terminator in the array, in every environment:
    it returns; the array keeps the text up to the colon; a separator that
    follows the first token has become NUL; a negative result leaves the
    handle as it was before the call.;
    a result that is not negative is the number of tokens. *)
Lemma parse_dep_total_tail w md m line deps tl :
  mods w !! md = Some m → mod_init_dep m = false → mod_dep m = [] →
  NUL ∉ line → after_colon line = Some deps →
  ∃ subject r buf' w' x,
    line = subject ++ ":"%char :: deps ∧
    kmod_module_parse_dep md (line ++ NUL :: tl) w = Ok (r, buf') w' ∧
    buf' = (subject ++ [":"%char]) ++ x ∧
    (drop (strcspn (drop (strspn deps dep_delim) deps) dep_delim)
          (drop (strspn deps dep_delim) deps) ≠ [] →
     x !! (strspn deps dep_delim
           + strcspn (drop (strspn deps dep_delim) deps) dep_delim)%nat = Some NUL) ∧
    ((∃ lst, mods w' !! md = Some (set_dep lst (set_init_dep true m)) ∧
             (Z.of_nat (length line) ≤ INT_MAX → 0 ≤ r) ∧
             (Z.of_nat (length (tokens deps)) ≤ INT_MAX →
              r = Z.of_nat (length (tokens deps)))) ∨
     (r < 0 ∧ mods w' !! md = Some m)) ∧
    fds w' = fds w ∧ maps w' = maps w.
Proof.
  intros Hm Hi Hd Hn Hac. unfold kmod_module_parse_dep.
  rewrite (bind_Ok _ _ _ _ _ (load_mod_Ok _ _ _ Hm)), Hi, Hd.
  cbn [orb negb]. rewrite bool_decide_eq_true_2 by done. cbn [negb].
  unfold store_mod at 1. unfold modify, bind at 1.
  pose proof (strchr_colon_tail line tl Hn) as Hc.
  destruct (strchr (line ++ NUL :: tl) ":"%char) as [i|]; [|congruence].
  destruct Hc as (subject & deps' & -> & -> & Hac').
  assert (deps' = deps) as -> by congruence. clear Hac'.
  set (w1 := set_mods <[md := set_init_dep true m]> w).
  assert (Hbuf : (subject ++ ":"%char :: deps) ++ NUL :: tl
                 = (subject ++ [":"%char]) ++ deps ++ NUL :: tl).
  { by rewrite <- !app_assoc. }
  assert (Hlen : S (length subject) = length (subject ++ [":"%char])).
  { rewrite length_app. simpl. lia. }
  assert (Hdn : NUL ∉ deps).
  { intros Hin. apply Hn. apply elem_of_app. right. by constructor. }
  destruct (parse_dep_loop_total (S (length ((subject ++ ":"%char :: deps) ++ NUL :: tl)))
              (mod_ctx m) (subject ++ [":"%char]) deps tl [] 0 w1)
    as (exit & buf' & w' & x & Hloop & -> & Hnul & Hrel & Hin & Hmods & Hf & Hmp & Hexit).
  { done. }
  { rewrite !length_app. simpl. lia. }
  { done. }
  assert (Hfuel : (length deps
                   < S (length ((subject ++ ":"%char :: deps) ++ NUL :: tl)))%nat).
  { rewrite !length_app. simpl. lia. }
  pose proof Hloop as Hloop0.
  rewrite <- Hbuf, <- Hlen in Hloop.
  rewrite (bind_Ok _ _ _ _ _ Hloop). cbn beta iota.
  assert (Hmd : mods w' !! md = Some (set_init_dep true m)).
  { apply Hmods. unfold w1. simpl. apply lookup_insert_eq. }
  exists subject.
  destruct exit as [lst n|err lst].
  - rewrite (bind_Ok _ _ _ _ _ (load_mod_Ok _ _ _ Hmd)).
    unfold store_mod, modify, bind, ret.
    eexists _, _, _, x. split_and!; try done.
    left. exists lst. split_and!; [simpl; apply lookup_insert_eq| |].
    + intros Hmax. apply Hexit; [done|].
      rewrite !length_app in Hmax. simpl in Hmax. lia.
    + intros Hmax.
      rewrite (parse_dep_loop_count _ _ _ _ _ _ _ _ _ _ _ _ Hdn Hfuel
                 ltac:(done) ltac:(lia) Hloop0).
      lia.
  - simpl in Hrel, Hin, Hexit.
    destruct (releasable_unref_list lst w' Hrel) as (w2 & Hun & Hm2 & Hf2 & Hmp2 & _).
    rewrite (bind_Ok _ _ _ _ _ Hun).
    assert (Hmd2 : mods w2 !! md = Some (set_init_dep true m)).
    { rewrite Hm2; [done|]. intros Hl. destruct (Hin md Hl) as [Hnil|Hnone].
      - by apply elem_of_nil in Hnil.
      - unfold w1 in Hnone. simpl in Hnone. by rewrite lookup_insert_eq in Hnone. }
    rewrite (bind_Ok _ _ _ _ _ (load_mod_Ok _ _ _ Hmd2)).
    unfold store_mod, modify, bind, ret.
    eexists _, _, _, x. split_and!; try done.
    + right. split; [done|]. simpl. rewrite lookup_insert_eq.
      by rewrite set_init_dep_reset.
    + simpl. by rewrite Hf2, Hf.
    + simpl. by rewrite Hmp2, Hmp.
Qed.

(** The same for an array that ends with the line's terminator. *)
Lemma parse_dep_total w md m line deps :
  mods w !! md = Some m → mod_init_dep m = false → mod_dep m = [] →
  NUL ∉ line → after_colon line = Some deps →
  ∃ subject r buf' w' x,
    line = subject ++ ":"%char :: deps ∧
    kmod_module_parse_dep md (line ++ [NUL]) w = Ok (r, buf') w' ∧
    buf' = (subject ++ [":"%char]) ++ x ∧
    (drop (strcspn (drop (strspn deps dep_delim) deps) dep_delim)
          (drop (strspn deps dep_delim) deps) ≠ [] →
     x !! (strspn deps dep_delim
           + strcspn (drop (strspn deps dep_delim) deps) dep_delim)%nat = Some NUL) ∧
    ((∃ lst, mods w' !! md = Some (set_dep lst (set_init_dep true m)) ∧
             (Z.of_nat (length line) ≤ INT_MAX → 0 ≤ r)) ∨
     (r < 0 ∧ mods w' !! md = Some m)) ∧
    fds w' = fds w ∧ maps w' = maps w.
Proof.
  intros Hm Hi Hd Hn Hac.
  destruct (parse_dep_total_tail w md m line deps [] Hm Hi Hd Hn Hac)
    as (subject & r & buf' & w' & x & H1 & H2 & H3 & H4 & H5 & H6 & H7).
  exists subject, r, buf', w', x. split_and!; try done.
  destruct H5 as [(lst & Hl & Hr & _)|H5]; [left; by exists lst|by right].
Qed.




(** ** Holders and sections (C8) *)

Lemma set_oom_nil w : oom w = [] → set_oom (drop 1) w = w.
Proof. destruct w. simpl. by intros ->. Qed.

Lemma alloc_fails_nil w : oom w = [] → alloc_fails w = Ok false w.
Proof. intros H. unfold alloc_fails. by rewrite set_oom_nil, H. Qed.

Lemma malloc_section_nil a e w :
  oom w = [] → malloc_section a e w = Ok (KmodSection a e) w.
Proof.
  intros H. unfold malloc_section. by rewrite (bind_Ok _ _ _ _ _ (alloc_fails_nil _ H)).
Qed.

Lemma list_append_nil {A} (l : list A) x w :
  oom w = [] → kmod_list_append l x w = Ok (Some (l ++ [x])) w.
Proof.
  intros H. unfold kmod_list_append.
  by rewrite (bind_Ok _ _ _ _ _ (alloc_fails_nil _ H)).
Qed.

Lemma sections_loop_spec fs dname entries : ∀ lst w,
  oom w = [] →
  sections_loop fs dname entries lst w
  = Ok (lst ++ omap (section_of fs dname) entries) w.
Proof.
  induction entries as [|e entries IH]; intros lst w Ho; simpl.
  - by rewrite app_nil_r.
  - unfold section_of at 1. destruct (is_dot_entry e); [by apply IH|].
    destruct (fs_section fs dname e) as [errno|err address]; [by apply IH|].
    destruct (err <? 0).
    + rewrite sys_open_close. by apply IH.
    + unfold bind at 1. unfold sys_open at 1.
      set (w1 := set_fds _ w).
      assert (Ho1 : oom w1 = []) by done.
      rewrite (bind_Ok _ _ _ _ _ (malloc_section_nil _ _ _ Ho1)).
      rewrite (bind_Ok _ _ _ _ _ (list_append_nil _ _ _ Ho1)).
      unfold sys_close, modify, bind at 1.
      unfold w1, set_fds. simpl. rewrite open_close_fds, world_eta.
      rewrite IH by done. by rewrite <- app_assoc.
Qed.

Lemma bind_assoc {A B C} (c : M A) (k : A → M B) (k' : B → M C) w :
  bind (bind c k) k' w = bind c (λ a, bind (k a) k') w.
Proof. unfold bind. by destruct (c w). Qed.

Lemma bind_ext {A B} (c : M A) (k k' : A → M B) w :
  (∀ a w1, k a w1 = k' a w1) → bind c k w = bind c k' w.
Proof. intros H. unfold bind. by destruct (c w). Qed.

Lemma holders_loop_app ctx pre post : ∀ lst w,
  holders_loop ctx (pre ++ post) lst w
  = (do l <- holders_loop ctx pre lst; holders_loop ctx post l) w.
Proof.
  induction pre as [|e pre IH]; intros lst w; cbn [app holders_loop]; [done|].
  destruct (is_dot_entry e); [apply IH|].
  rewrite bind_assoc. apply bind_ext. intros r w1.
  destruct (fst r <? 0); [apply IH|].
  destruct (snd r) as [holder|]; [|done].
  rewrite bind_assoc. apply bind_ext. intros node w2.
  destruct node as [l'|]; [apply IH|].
  rewrite bind_assoc. apply bind_ext. intros ? w3. apply IH.
Qed.

Lemma real_entries_cons e entries :
  real_entries (e :: entries)
  = if is_dot_entry e then real_entries entries else e :: real_entries entries.
Proof.
  unfold real_entries. rewrite filter_cons.
  destruct (is_dot_entry e); by case_decide.
Qed.

Lemma holders_loop_ok ctx entries : ∀ lst w,
  allocs_ok (3 * length (real_entries entries)) w →
  ∃ new w',
    holders_loop ctx entries lst w = Ok (lst ++ new) w' ∧
    map (handle_name w') new = map Some (real_entries entries) ∧
    (∀ h m, mods w !! h = Some m → mods w' !! h = Some m) ∧
    (∀ q s, strs w !! q = Some s → strs w' !! q = Some s) ∧
    fds w' = fds w ∧
    oom w' = drop (3 * length (real_entries entries)) (oom w).
Proof.
  induction entries as [|e entries IH]; intros lst w Ha.
  - exists [], w. simpl. rewrite app_nil_r. split_and!; done.
  - cbn [holders_loop]. rewrite real_entries_cons in *.
    destruct (is_dot_entry e); [by apply IH|].
    cbn [length] in *.
    replace (3 * S (length (real_entries entries)))%nat
      with (S (S (S (3 * length (real_entries entries))))) in * by lia.
    destruct (new_from_name_ok _ w ctx e Ha) as [Hnew Ha1].
    rewrite (bind_Ok _ _ _ _ _ Hnew). cbn [fst snd Z.ltb Z.compare].
    destruct (list_append_ok _ _ lst (fresh (dom (mods w))) Ha1) as [Happ Ha2].
    rewrite (bind_Ok _ _ _ _ _ Happ).
    destruct (IH (lst ++ [fresh (dom (mods w))]) (set_oom (drop 1) (add_handle ctx e w)) Ha2)
      as (new & w' & Hloop & Hnames & Hmods & Hstrs & Hf & Ho).
    rewrite Hloop. exists (fresh (dom (mods w)) :: new), w'. split_and!.
    + by rewrite <- app_assoc.
    + cbn [map]. f_equal; [|done].
      eapply handle_name_mono; [exact Hmods|exact Hstrs|]. apply add_handle_name.
    + intros h m Hh. apply Hmods. by apply (add_handle_mods_old ctx e).
    + intros q s Hq. apply Hstrs. by apply (add_handle_strs_old ctx e).
    + done.
    + rewrite Ho. simpl. by rewrite !drop_drop.
Qed.

Lemma allocs_ok_replicate k o w : oom w = replicate k false ++ o → allocs_ok k w.
Proof.
  intros H. unfold allocs_ok. rewrite H.
  rewrite take_app_length' by (by rewrite length_replicate).
  clear H. induction k; simpl; auto.
Qed.

Lemma new_from_name_oom w c n :
  hd false (oom w) = true →
  kmod_module_new_from_name (Some c) (Some n) w
  = Ok (- ENOMEM, None) (set_oom (drop 1) w).
Proof.
  intros H. unfold kmod_module_new_from_name, calloc_mod, bind, alloc_fails.
  by rewrite H.
Qed.

Lemma map_handle_name_mono w w' l names :
  (∀ h m, mods w !! h = Some m → mods w' !! h = Some m) →
  (∀ q s, strs w !! q = Some s → strs w' !! q = Some s) →
  map (handle_name w) l = map Some names →
  map (handle_name w') l = map Some names.
Proof.
  intros Hm Hs. revert names. induction l as [|h l IH]; intros [|n names] H;
    simpl in *; try done.
  injection H as H1 H2. f_equal; [|by apply IH].
  by eapply handle_name_mono.
Qed.

(** C8.  For a live handle with a name:
    - when the [holders] directory cannot be opened the result is NULL;
    - when no allocation fails, the holders are the entries other than
      ["."] and [".."], in the order of the directory;
    - when the construction of the handle for one entry [e] fails (the
      allocation of the handle fails, all others succeed), the holders are
      the entries before [e] and the entries after [e], in that order;
    - when the [sections] directory cannot be opened the result is NULL;
    - otherwise (no allocation failing) the sections are those of the
      entries whose file opens and whose contents parse, in the order of
      the directory, entries that fail being left out; the state is
      unchanged. *)
Theorem enumerations_skip_bad_entries (fs : sysfs) (w : world) (p : ptr)
  (m : kmod_module) (q : ptr) (name : list ascii) :
  mods w !! p = Some m → mod_name m = Some q → strs w !! q = Some name →
  (fs_opendir fs (snd (sysfs_path name "/holders")) = None →
   kmod_module_get_holders fs (Some p) w = Ok [] w) ∧
  (∀ entries,
     fs_opendir fs (snd (sysfs_path name "/holders")) = Some entries →
     allocs_ok (3 * length (real_entries entries)) w →
     ∃ l w', kmod_module_get_holders fs (Some p) w = Ok l w' ∧
             map (handle_name w') l = map Some (real_entries entries)) ∧
  (∀ pre e post,
     fs_opendir fs (snd (sysfs_path name "/holders")) = Some (pre ++ e :: post) →
     is_dot_entry e = false →
     oom w = replicate (3 * length (real_entries pre)) false ++ [true] →
     ∃ l w', kmod_module_get_holders fs (Some p) w = Ok l w' ∧
             map (handle_name w') l = map Some (real_entries pre ++ real_entries post)) ∧
  (fs_opendir fs (snd (sysfs_path name "/sections")) = None →
   kmod_module_get_sections fs (Some p) w = Ok [] w) ∧
  (∀ entries,
     fs_opendir fs (snd (sysfs_path name "/sections")) = Some entries →
     oom w = [] →
     kmod_module_get_sections fs (Some p) w
     = Ok (omap (section_of fs (snd (sysfs_path name "/sections"))) entries) w).
Proof.
  intros Hm Hn Hs.
  assert (Hname : name_arg m w = Ok name w).
  { unfold name_arg. rewrite Hn. unfold load_str. by rewrite Hs. }
  split_and!.
  - intros Hd. unfold kmod_module_get_holders.
    rewrite (bind_Ok _ _ _ _ _ (load_mod_Ok _ _ _ Hm)), (bind_Ok _ _ _ _ _ Hname).
    by rewrite Hd.
  - intros entries Hd Ha. unfold kmod_module_get_holders.
    rewrite (bind_Ok _ _ _ _ _ (load_mod_Ok _ _ _ Hm)), (bind_Ok _ _ _ _ _ Hname).
    rewrite Hd. unfold sys_open, bind at 1.
    set (w1 := set_fds _ w).
    destruct (holders_loop_ok (mod_ctx m) entries [] w1 Ha)
      as (new & w' & Hloop & Hnames & _).
    rewrite (bind_Ok _ _ _ _ _ Hloop). unfold sys_close, modify, bind, ret.
    eexists _, _. split; [done|]. exact Hnames.
  - intros pre e post Hd He Ho. unfold kmod_module_get_holders.
    rewrite (bind_Ok _ _ _ _ _ (load_mod_Ok _ _ _ Hm)), (bind_Ok _ _ _ _ _ Hname).
    rewrite Hd. unfold sys_open, bind at 1.
    set (w1 := set_fds _ w).
    assert (Ha : allocs_ok (3 * length (real_entries pre)) w1).
    { by apply (allocs_ok_replicate _ [true]). }
    destruct (holders_loop_ok (mod_ctx m) pre [] w1 Ha)
      as (new1 & w2 & Hloop1 & Hnames1 & _ & _ & _ & Ho2).
    assert (Ho2' : oom w2 = [true]).
    { rewrite Ho2. change (oom w1) with (oom w). rewrite Ho.
      by rewrite drop_app_length' by (by rewrite length_replicate). }
    unfold bind at 1. rewrite holders_loop_app, (bind_Ok _ _ _ _ _ Hloop1).
    cbn [holders_loop]. rewrite He.
    rewrite (bind_Ok _ _ _ _ _ (new_from_name_oom w2 _ e ltac:(by rewrite Ho2'))).
    cbn [fst snd]. change (- ENOMEM <? 0) with true. cbn iota.
    set (w3 := set_oom (drop 1) w2).
    assert (Ha3 : allocs_ok (3 * length (real_entries post)) w3).
    { apply allocs_ok_nil. unfold w3. simpl. by rewrite Ho2'. }
    destruct (holders_loop_ok (mod_ctx m) post ([] ++ new1) w3 Ha3)
      as (new2 & w' & Hloop2 & Hnames2 & Hmods & Hstrs & _).
    rewrite Hloop2. unfold sys_close, modify, bind, ret.
    eexists _, _. split; [done|].
    rewrite !map_app. f_equal; [|exact Hnames2].
    eapply (map_handle_name_mono w3); [| |exact Hnames1].
    + intros h m' Hh. simpl. by apply Hmods.
    + intros q' s Hq. simpl. by apply Hstrs.
  - intros Hd. unfold kmod_module_get_sections.
    rewrite (bind_Ok _ _ _ _ _ (load_mod_Ok _ _ _ Hm)), (bind_Ok _ _ _ _ _ Hname).
    by rewrite Hd.
  - intros entries Hd Ho. unfold kmod_module_get_sections.
    rewrite (bind_Ok _ _ _ _ _ (load_mod_Ok _ _ _ Hm)), (bind_Ok _ _ _ _ _ Hname).
    rewrite Hd. unfold sys_open, bind at 1.
    set (w1 := set_fds _ w).
    assert (Ho1 : oom w1 = []) by done.
    rewrite (bind_Ok _ _ _ _ _ (sections_loop_spec _ _ _ _ _ Ho1)).
    unfold sys_close, modify, bind, ret, w1, set_fds. simpl.
    by rewrite open_close_fds, world_eta.
Qed.

Lemma enumerations_skip_bad_entries_witness :
  kmod_module_get_sections sample_sections_fs (Some 10%positive) (sample_world [])
  = Ok [KmodSection 4096 (cs ".text"); KmodSection 8192 (cs ".bss")] (sample_world []) ∧
  (∃ l w', kmod_module_get_holders sample_sections_fs (Some 10%positive)
             (sample_world [false; false; false; true]) = Ok l w' ∧
           map (handle_name w') l = [Some (cs ".text"); Some (cs ".bss")]) ∧
  kmod_module_get_holders no_dir_fs (Some 10%positive) (sample_world []) = Ok [] (sample_world []) ∧
  kmod_module_get_sections no_dir_fs (Some 10%positive) (sample_world []) = Ok [] (sample_world []).
Proof.
  split_and!.
  - destruct (enumerations_skip_bad_entries sample_sections_fs (sample_world []) 10
                (KmodModule 1 None (Some 5%positive) [] 1 false) 5 (cs "mod")
                eq_refl eq_refl eq_refl) as (_ & _ & _ & _ & H).
    rewrite (H three_entries eq_refl eq_refl). vm_compute. reflexivity.
  - destruct (enumerations_skip_bad_entries sample_sections_fs
                (sample_world [false; false; false; true]) 10
                (KmodModule 1 None (Some 5%positive) [] 1 false) 5 (cs "mod")
                eq_refl eq_refl eq_refl) as (_ & _ & H & _).
    destruct (H [cs "."; cs ".."; cs ".text"] (cs ".data") [cs ".bss"]
                eq_refl eq_refl eq_refl) as (l & w' & H1 & H2).
    by exists l, w'.
  - destruct (enumerations_skip_bad_entries no_dir_fs (sample_world []) 10
                (KmodModule 1 None (Some 5%positive) [] 1 false) 5 (cs "mod")
                eq_refl eq_refl eq_refl) as (H & _).
    by apply H.
  - destruct (enumerations_skip_bad_entries no_dir_fs (sample_world []) 10
                (KmodModule 1 None (Some 5%positive) [] 1 false) 5 (cs "mod")
                eq_refl eq_refl eq_refl) as (_ & _ & _ & H & _).
    by apply H.
Defined.

(** ** Failure of a construction (C3) *)

Lemma parse_dep_no_colon w md m line :
  mods w !! md = Some m → mod_init_dep m = false → mod_dep m = [] →
  NUL ∉ line → after_colon line = None →
  kmod_module_parse_dep md (line ++ [NUL]) w
  = Ok (0, line ++ [NUL]) (set_mods <[md := set_init_dep true m]> w).
Proof.
  intros Hm Hi Hd Hn Hac. unfold kmod_module_parse_dep.
  rewrite (bind_Ok _ _ _ _ _ (load_mod_Ok _ _ _ Hm)), Hi, Hd.
  cbn [orb negb]. rewrite bool_decide_eq_true_2 by done. cbn [negb].
  unfold store_mod at 1. unfold modify, bind at 1.
  pose proof (strchr_colon line Hn) as Hc.
  destruct (strchr (line ++ [NUL]) ":"%char) as [i|]; [|done].
  destruct Hc as (? & ? & _ & _ & ?). congruence.
Qed.

(** What holds of a failure in every environment: the call returns, and a
    negative result leaves the handle exactly as it was before the call,
    with the guard at not-started and no dependency list, and leaves no
    descriptor or mapping behind. *)
Lemma parse_dep_failure_resets_handle w md m line :
  mods w !! md = Some m → mod_init_dep m = false → mod_dep m = [] →
  NUL ∉ line → Z.of_nat (length line) ≤ INT_MAX →
  ∃ r buf' w',
    kmod_module_parse_dep md (line ++ [NUL]) w = Ok (r, buf') w' ∧
    (r < 0 → mods w' !! md = Some m) ∧
    fds w' = fds w ∧ maps w' = maps w.
Proof.
  intros Hm Hi Hd Hn Hmax. destruct (after_colon line) as [deps|] eqn:Hac.
  - destruct (parse_dep_total w md m line deps Hm Hi Hd Hn Hac)
      as (subject & r & buf' & w' & x & _ & Hrun & _ & _ & Hcase & Hf & Hmp).
    exists r, buf', w'. split_and!; try done.
    intros Hr. destruct Hcase as [(lst & _ & Hpos)|[_ ?]]; [|done].
    specialize (Hpos Hmax). lia.
  - rewrite (parse_dep_no_colon w md m line) by done.
    eexists _, _, _. split_and!; try done.
Qed.

(** C3 fails on the code.  The line is ["m: a b c/"].  The handle for [a]
    is made and appended; the handle for [b] is made, but the allocation of
    its list node fails: [kmod_list_append] returns NULL, the result is
    stored in [list] without a test (line 115) and the list built so far is
    lost.  The token ["c/"] has an empty final component, so the
    construction of its handle fails with [-ENOENT].  The call returns
    [-ENOENT] and resets the guard, but the handles of [a] and [b] are
    still allocated, each with count 1 and a reference on the context: they
    were not released. *)
Theorem parse_dep_leaks_after_failed_append :
  match kmod_module_parse_dep 10 (cs "m: a b c/" ++ [NUL])
          (sample_world [false; false; false; false; false; true]) with
  | Ok (r, _) w' =>
      r = - ENOENT ∧
      mods w' !! 10%positive = Some (KmodModule 1 None (Some 5%positive) [] 1 false) ∧
      handle_name w' 11 = Some (cs "a") ∧
      mod_refcount <$> mods w' !! 11%positive = Some 1 ∧
      handle_name w' 12 = Some (cs "b") ∧
      mod_refcount <$> mods w' !! 12%positive = Some 1 ∧
      ctx_count (sample_world []) 1 = 2 ∧ ctx_count w' 1 = 4
  | Crash _ => False
  end.
Proof. vm_compute. split_and!; reflexivity. Qed.

(** The same line when no allocation fails: the two handles are released
    and the heaps are as before the call. *)
Example parse_dep_rollback_without_failed_append :
  match kmod_module_parse_dep 10 (cs "m: a b c/" ++ [NUL]) (sample_world []) with
  | Ok (r, _) w' =>
      r = - ENOENT ∧ mods w' = mods (sample_world []) ∧
      strs w' = strs (sample_world []) ∧ ctxs w' = ctxs (sample_world [])
  | Crash _ => False
  end.
Proof. vm_compute. split_and!; reflexivity. Qed.

(** *** The release is complete when no list node fails to be allocated *)

Lemma owned_snoc c lst : ∀ qs ms ss h q n,
  owned c lst qs ms ss → ms !! h = None → ss !! q = None →
  owned c (lst ++ [h]) (qs ++ [q])
        (<[h := KmodModule c None (Some q) [] 1 false]> ms) (<[q := n]> ss).
Proof.
  induction lst as [|h0 l IH]; intros [|q0 qs] ms ss h q n Ho Hh Hq; try done.
  - simpl. rewrite !lookup_insert_eq. split_and!; [done|by eexists|done].
  - destruct Ho as (Hm0 & [s0 Hs0] & Ho).
    assert (h ≠ h0) by (intros ->; congruence).
    assert (q ≠ q0) by (intros ->; congruence).
    cbn [app owned]. rewrite !lookup_insert_ne by done. split_and!; [done|by eexists|].
    rewrite !delete_insert_ne by done.
    apply IH; [done| |]; by rewrite lookup_delete_ne.
Qed.

Lemma unref_list_owned f c lst : ∀ qs w,
  owned c lst qs (mods w) (strs w) →
  Z.of_nat (length lst) ≤ ctx_count w c →
  ∃ w',
    unref_list_with (unref_fuel (S f)) lst w = Ok 0 w' ∧
    mods w' = foldr delete (mods w) lst ∧
    strs w' = foldr delete (strs w) qs ∧
    ctx_count w' c = ctx_count w c - Z.of_nat (length lst) ∧
    (∀ c', c' ≠ c → ctxs w' !! c' = ctxs w !! c') ∧
    fds w' = fds w ∧ maps w' = maps w ∧ oom w' = oom w.
Proof.
  induction lst as [|h l IH]; intros [|q qs] w Ho Hc; try done.
  - exists w. split_and!; try done. simpl. lia.
  - destruct Ho as (Hm & Hs & Ho). cbn [length] in Hc.
    destruct (unref_fuel_leaf f w h _ Hm eq_refl eq_refl) as
      (w1 & H1 & Hm1 & Hs1 & Hc1 & Hco1 & Hf1 & Hmp1 & Ho1).
    { intros ? [=]. }
    { intros ? [= <-]. done. }
    { intros ? [=]. }
    simpl in Hs1, Hc1, Hco1.
    rewrite Z.max_r in Hc1 by lia.
    destruct (IH qs w1) as (w' & H2 & Hm2 & Hs2 & Hc2 & Hco2 & Hf2 & Hmp2 & Ho2).
    { by rewrite Hm1, Hs1. }
    { lia. }
    exists w'. cbn [unref_list_with]. rewrite (bind_Ok _ _ _ _ _ H1).
    split_and!; try congruence.
    + rewrite Hm2, Hm1. simpl. by rewrite delete_foldr_delete.
    + rewrite Hs2, Hs1. simpl. by rewrite delete_foldr_delete.
    + rewrite Hc2, Hc1. cbn [length]. lia.
    + intros c' Hne. rewrite Hco2, Hco1; done.
Qed.

Lemma owned_length c lst : ∀ qs ms ss, owned c lst qs ms ss → length qs = length lst.
Proof.
  induction lst as [|h l IH]; intros [|q qs] ms ss Ho; try done.
  destruct Ho as (_ & _ & Ho). simpl. f_equal. eauto.
Qed.

Lemma add_handle_ctx_count c n w : ctx_count (add_handle c n w) c = ctx_count w c + 1.
Proof. unfold add_handle, ctx_count at 1. simpl. by rewrite lookup_insert_eq. Qed.

Lemma add_handle_ctxs_other c n w c' :
  c' ≠ c → ctxs (add_handle c n w) !! c' = ctxs w !! c'.
Proof. intros H. unfold add_handle. simpl. by rewrite lookup_insert_ne. Qed.

(** The token loop when the tokens [good] are turned into handles without
    any allocation failing and the construction for the next token, [bad],
    fails: because its final component is empty ([-ENOENT]) or because the
    handle cannot be allocated ([-ENOMEM]). *)
Lemma parse_dep_loop_fails fuel :
  ∀ ctx pre rest tl lst qs n w good bad more,
    NUL ∉ rest → (length rest < fuel)%nat →
    tokens rest = good ++ bad :: more →
    Forall (λ t, is_Some (modname_of_path t)) good →
    allocs_ok (3 * length good) w →
    modname_of_path bad = None ∨ hd false (drop (3 * length good) (oom w)) = true →
    owned ctx lst qs (mods w) (strs w) →
    ∃ buf' lst' qs' w',
      parse_dep_loop fuel ctx (pre ++ rest ++ NUL :: tl) (length pre) lst n w
      = Ok (LoopFail (if modname_of_path bad is Some _ then - ENOMEM else - ENOENT) lst',
             buf') w' ∧
      owned ctx lst' qs' (mods w') (strs w') ∧
      foldr delete (mods w') lst' = foldr delete (mods w) lst ∧
      foldr delete (strs w') qs' = foldr delete (strs w) qs ∧
      ctx_count w' ctx - Z.of_nat (length lst') = ctx_count w ctx - Z.of_nat (length lst) ∧
      (∀ c', c' ≠ ctx → ctxs w' !! c' = ctxs w !! c') ∧
      fds w' = fds w ∧ maps w' = maps w.
Proof.
  induction fuel as [|fuel IH];
    intros ctx pre rest tl lst qs n w good bad more Hn Hf Ht Hcan Ha Hbad Ho; [lia|].
  cbn [parse_dep_loop].
  destruct (drop (strspn rest dep_delim) rest) as [|c r1] eqn:Er1.
  { destruct (token_none pre rest tl Hn Er1) as [Ht0 _]. rewrite Ht0 in Ht.
    by destruct good. }
  destruct (token_step pre rest tl Hn) as
    (tok & rest' & buf1 & save1 & pre2 & x & Ht' & Hs & Hp & -> & -> & _ & _ &
     Htn & Hrn & Hlen); [by rewrite Er1|].
  rewrite Hs, Hp. rewrite Ht' in Ht. clear Ht'.
  destruct good as [|g good].
  - (* the first token is the one that fails *)
    injection Ht as <- Ht. rewrite modname_of_path_token in * by done.
    simpl in Hbad. rewrite drop_0 in Hbad.
    destruct (modname_spec tok) as [name|] eqn:Ename.
    + destruct Hbad as [?|Hbad]; [done|].
      rewrite (bind_Ok _ _ _ _ _ (new_from_name_oom w ctx name Hbad)).
      cbn [fst snd]. change (- ENOMEM <? 0) with true. cbn iota.
      eexists _, lst, qs, _. split_and!; done.
    + unfold kmod_module_new_from_name, ret, bind. cbn [fst snd].
      change (- ENOENT <? 0) with true. cbn iota.
      eexists _, lst, qs, _. split_and!; done.
  - injection Ht as <- Ht.
    apply Forall_cons in Hcan as [[name Hname] Hcan].
    rewrite modname_of_path_token in Hname by done. rewrite Hname.
    cbn [length] in Ha, Hbad.
    replace (3 * S (length good))%nat with (S (S (S (3 * length good)))) in * by lia.
    destruct (new_from_name_ok _ w ctx name Ha) as [Hnew Ha1].
    rewrite (bind_Ok _ _ _ _ _ Hnew). cbn [fst snd Z.ltb Z.compare].
    destruct (list_append_ok _ _ lst (fresh (dom (mods w))) Ha1) as [Happ Ha2].
    rewrite (bind_Ok _ _ _ _ _ Happ). unfold default. cbn [from_option id].
    set (w2 := set_oom (drop 1) (add_handle ctx name w)) in *.
    assert (Ho2 : owned ctx (lst ++ [fresh (dom (mods w))]) (qs ++ [fresh (dom (strs w))])
                        (mods w2) (strs w2)).
    { apply owned_snoc; [done|apply fresh_mod_None|apply fresh_str_None]. }
    destruct (IH ctx (pre ++ x) rest' tl (lst ++ [fresh (dom (mods w))])
                 (qs ++ [fresh (dom (strs w))]) (wrap_int (n + 1)) w2 good bad more)
      as (buf' & lst' & qs' & w' & Hloop & Howned & Hm' & Hs' & Hc' & Hco' & Hf' & Hmp');
      [done|lia|done|done|done| |exact Ho2|].
    { destruct Hbad as [?|Hbad]; [by left|right].
      unfold w2. simpl. by rewrite !drop_drop in *. }
    rewrite Hloop. exists buf', lst', qs', w'. split_and!; try done.
    + rewrite Hm'. unfold w2. simpl. rewrite foldr_snoc. simpl.
      by rewrite delete_insert_id by apply fresh_mod_None.
    + rewrite Hs'. unfold w2. simpl. rewrite foldr_snoc. simpl.
      by rewrite delete_insert_id by apply fresh_str_None.
    + rewrite Hc'. unfold w2, ctx_count at 1. simpl. rewrite lookup_insert_eq. simpl.
      rewrite length_app. simpl. lia.
    + intros c' Hne. rewrite Hco' by done. unfold w2. simpl.
      by rewrite lookup_insert_ne.
Qed.

Lemma unref_list_of_owned c lst qs w :
  owned c lst qs (mods w) (strs w) →
  Z.of_nat (length lst) ≤ ctx_count w c →
  ∃ w',
    kmod_module_unref_list lst w = Ok 0 w' ∧
    mods w' = foldr delete (mods w) lst ∧
    strs w' = foldr delete (strs w) qs ∧
    ctx_count w' c = ctx_count w c - Z.of_nat (length lst) ∧
    (∀ c', c' ≠ c → ctxs w' !! c' = ctxs w !! c') ∧
    fds w' = fds w ∧ maps w' = maps w ∧ oom w' = oom w.
Proof.
  intros Ho Hc. unfold kmod_module_unref_list.
  destruct lst as [|h l].
  - destruct qs; [|done]. exists w. split_and!; try done. simpl. lia.
  - assert (Hsz : ∃ f, unref_depth w = S f).
    { destruct qs as [|q qs]; [done|]. destruct Ho as (Hm & _). unfold unref_depth.
      destruct (size (mods w)) as [|f] eqn:E; [|by eexists].
      apply map_size_empty_iff in E. rewrite E in Hm. by rewrite lookup_empty in Hm. }
    destruct Hsz as [f ->]. by apply unref_list_owned.
Qed.

Lemma ctxs_lookup_of_count w1 w2 c :
  ctx_count w1 c = ctx_count w2 c → 0 < ctx_count w2 c → ctxs w1 !! c = ctxs w2 !! c.
Proof.
  unfold ctx_count. destruct (ctxs w1 !! c), (ctxs w2 !! c); simpl; intros; f_equal; lia.
Qed.

(** X18.  The release on failure, in general: when the handles of the tokens
    [good] are made and appended without any allocation failing, and the
    construction for the next token fails, the call returns that
    construction's code and the world is as it was before the call, the
    allocation plan apart: every handle the call made, every name, and every
    context reference has been given back. *)
Lemma parse_dep_rollback w md m line deps good bad more :
  mods w !! md = Some m → mod_init_dep m = false → mod_dep m = [] →
  NUL ∉ line → after_colon line = Some deps →
  tokens deps = good ++ bad :: more →
  Forall (λ t, is_Some (modname_of_path t)) good →
  allocs_ok (3 * length good) w →
  modname_of_path bad = None ∨ hd false (drop (3 * length good) (oom w)) = true →
  0 < ctx_count w (mod_ctx m) →
  ∃ buf' w',
    kmod_module_parse_dep md (line ++ [NUL]) w
    = Ok (if modname_of_path bad is Some _ then - ENOMEM else - ENOENT, buf') w' ∧
    mods w' = mods w ∧ strs w' = strs w ∧ ctxs w' = ctxs w ∧
    fds w' = fds w ∧ maps w' = maps w.
Proof.
  intros Hm Hi Hd Hn Hac Ht Hcan Ha Hbad Hctx. unfold kmod_module_parse_dep.
  rewrite (bind_Ok _ _ _ _ _ (load_mod_Ok _ _ _ Hm)), Hi, Hd.
  cbn [orb negb]. rewrite bool_decide_eq_true_2 by done. cbn [negb].
  unfold store_mod at 1. unfold modify, bind at 1.
  pose proof (strchr_colon line Hn) as Hc.
  destruct (strchr (line ++ [NUL]) ":"%char) as [i|]; [|congruence].
  destruct Hc as (subject & deps' & -> & -> & Hac').
  assert (deps' = deps) as -> by congruence. clear Hac'.
  set (w1 := set_mods <[md := set_init_dep true m]> w).
  assert (Hbuf : (subject ++ ":"%char :: deps) ++ [NUL]
                 = (subject ++ [":"%char]) ++ deps ++ NUL :: []).
  { by rewrite <- !app_assoc. }
  assert (Hlen : S (length subject) = length (subject ++ [":"%char])).
  { rewrite length_app. simpl. lia. }
  assert (Hdn : NUL ∉ deps).
  { intros Hin. apply Hn. apply elem_of_app. right. by constructor. }
  destruct (parse_dep_loop_fails (S (length ((subject ++ ":"%char :: deps) ++ [NUL])))
              (mod_ctx m) (subject ++ [":"%char]) deps [] [] [] 0 w1 good bad more)
    as (buf' & lst & qs & w2 & Hloop & Ho & Hm2 & Hs2 & Hc2 & Hco2 & Hf2 & Hmp2);
    try done.
  { rewrite !length_app. simpl. lia. }
  rewrite <- Hbuf, <- Hlen in Hloop.
  rewrite (bind_Ok _ _ _ _ _ Hloop). cbn beta iota.
  simpl in Hm2, Hs2, Hc2.
  assert (Hc1 : ctx_count w1 (mod_ctx m) = ctx_count w (mod_ctx m)) by done.
  destruct (unref_list_of_owned _ _ _ _ Ho) as
    (w3 & Hun & Hm3 & Hs3 & Hc3 & Hco3 & Hf3 & Hmp3 & _); [lia|].
  rewrite (bind_Ok _ _ _ _ _ Hun).
  assert (Hmd3 : mods w3 !! md = Some (set_init_dep true m)).
  { rewrite Hm3, Hm2. apply lookup_insert_eq. }
  rewrite (bind_Ok _ _ _ _ _ (load_mod_Ok _ _ _ Hmd3)).
  unfold store_mod, modify, bind, ret.
  eexists _, _. split; [reflexivity|]. simpl. split_and!.
  - rewrite Hm3, Hm2, insert_insert_eq, set_init_dep_reset by done.
    by apply insert_id.
  - by rewrite Hs3, Hs2.
  - apply map_eq. intros c'. destruct (decide (c' = mod_ctx m)) as [->|Hne].
    + apply ctxs_lookup_of_count; [|done]. lia.
    + by rewrite Hco3, Hco2.
  - by rewrite Hf3, Hf2.
  - by rewrite Hmp3, Hmp2.
Qed.

(** * Further properties of the code *)

(** ** [path_to_modname]: when there is a name, what it depends on, and what
    is written *)

Lemma last_cons_ne {A} (c : A) t : t ≠ [] → last (c :: t) = last t.
Proof. by destruct t. Qed.

Lemma last_elem_of {A} (t : list A) x : last t = Some x → x ∈ t.
Proof.
  induction t as [|c t IH]; [done|]. destruct t as [|d t].
  - intros [= ->]. by left.
  - intros H. right. by apply IH.
Qed.

Lemma basename_empty_iff t :
  NUL ∉ t → drop (basename t) t = [] ↔ t = [] ∨ last t = Some "/"%char.
Proof.
  unfold basename. induction t as [|c t IH]; intros Hn.
  - simpl. split; [by left|done].
  - assert (Hn' := Hn). no_nul_head Hn'. cbn [strrchr]. rewrite Hc.
    destruct (strrchr t "/"%char) as [i|] eqn:E.
    + specialize (IH Hnn). cbn [drop]. rewrite IH.
      assert (t ≠ []) by (intros ->; done).
      rewrite last_cons_ne by done. split; [|intros [|]; [done|by right]].
      intros [|]; [done|by right].
    + apply strrchr_none in E; [|done].
      destruct (Ascii.eqb c "/"%char) eqn:Ec.
      * apply Ascii.eqb_eq in Ec as ->. cbn [drop]. rewrite drop_0.
        split; [intros ->; by right|].
        intros [|Hl]; [done|]. destruct t as [|d t]; [done|].
        rewrite last_cons_ne in Hl by done. by apply last_elem_of in Hl.
      * apply Ascii.eqb_neq in Ec. rewrite drop_0.
        split; [done|]. intros [|Hl]; [done|].
        destruct t as [|d t]; [by injection Hl|].
        rewrite last_cons_ne in Hl by done. by apply last_elem_of in Hl.
Qed.

(** X1.  [path_to_modname] returns NULL exactly for the paths that have no
    final component: the empty path and the paths that end in ['/'].  The
    mode makes no difference. *)
Theorem path_to_modname_null_iff (p : list ascii) (alloc : bool) :
  NUL ∉ p →
  fst (path_to_modname (p ++ [NUL]) 0 alloc) = None ↔
  p = [] ∨ last p = Some "/"%char.
Proof.
  intros Hn. rewrite path_to_modname_name, cstr_id by done.
  rewrite <- basename_empty_iff by done. unfold modname_spec.
  by destruct (drop (basename p) p).
Qed.

Lemma path_to_modname_null_iff_witness :
  fst (path_to_modname (cs "/lib/modules/" ++ [NUL]) 0 false) = None ∧
  fst (path_to_modname (cs "/lib/modules" ++ [NUL]) 0 false) ≠ None.
Proof.
  split.
  - apply (proj2 (path_to_modname_null_iff (cs "/lib/modules/") false
                    ltac:(no_nul_literal))).
    by right.
  - intros H.
    apply (proj1 (path_to_modname_null_iff (cs "/lib/modules") false
                    ltac:(no_nul_literal))) in H.
    by destruct H.
Defined.

Lemma strrchr_app_last dir c file :
  NUL ∉ dir → c ≠ NUL → c ∉ file →
  strrchr (dir ++ c :: file) c = Some (length dir).
Proof.
  intros Hn Hc Hf. induction dir as [|d dir IH]; simpl.
  - apply is_nul_false in Hc. rewrite Hc, strrchr_absent by done.
    by rewrite Ascii.eqb_refl.
  - assert (Hn' := Hn). no_nul_head Hn'. rewrite Hc0, IH by done. done.
Qed.

(** X2.  The name depends on the final path component alone, and is its
    canonical form: for a path [dir/file] the directory part makes no
    difference, and neither does the mode; the name is that of [file],
    which is the text of [file] before its first ['.'] with every ['-']
    turned into ['_'], and there is no name when [file] is empty. *)
Theorem path_to_modname_final_component (dir file : list ascii) (alloc alloc' : bool) :
  NUL ∉ dir → NUL ∉ file → ("/"%char ∉ file) →
  fst (path_to_modname ((dir ++ "/"%char :: file) ++ [NUL]) 0 alloc)
  = fst (path_to_modname (file ++ [NUL]) 0 alloc') ∧
  fst (path_to_modname (file ++ [NUL]) 0 alloc')
  = match file with [] => None | _ => Some (canon file) end.
Proof.
  intros Hd Hf Hs.
  assert (Hp : NUL ∉ dir ++ "/"%char :: file).
  { intros H. apply elem_of_app in H as [|H]; [done|].
    apply elem_of_cons in H as [|]; done. }
  rewrite !path_to_modname_name, !cstr_id by done.
  unfold modname_spec, basename.
  rewrite strrchr_app_last, (strrchr_absent file) by done.
  rewrite drop_0.
  replace (drop (S (length dir)) (dir ++ "/"%char :: file)) with file.
  - by destruct file.
  - rewrite (cons_middle _ dir file), app_assoc.
    rewrite drop_app_length'; [done|]. rewrite length_app. simpl. lia.
Qed.

Lemma path_to_modname_final_component_witness :
  fst (path_to_modname (cs "/lib/modules/snd-hda-intel.ko.gz" ++ [NUL]) 0 true)
  = Some (cs "snd_hda_intel").
Proof.
  destruct (path_to_modname_final_component (cs "/lib/modules") (cs "snd-hda-intel.ko.gz")
              true false) as [H1 H2]; try no_nul_literal.
  exact (eq_trans H1 H2).
Defined.

Lemma modname_scan_changes s : ∀ i c c',
  s !! i = Some c → modname_scan s !! i = Some c' → c ≠ c' →
  (i < length (cstr s))%nat ∧
  ((c = "-"%char ∧ c' = "_"%char) ∨ (c = "."%char ∧ c' = NUL)).
Proof.
  induction s as [|x s IH]; intros i c c' H1 H2 Hne; [done|].
  cbn [modname_scan cstr] in *.
  destruct (is_nul x) eqn:En.
  { apply is_nul_true in En as ->. destruct i; simpl in *; congruence. }
  destruct (Ascii.eqb x "."%char) eqn:Ed.
  - apply Ascii.eqb_eq in Ed as ->.
    destruct i as [|i]; simpl in *; [|congruence].
    injection H1 as <-. injection H2 as <-. split; [lia|by right].
  - destruct i as [|i]; simpl in *.
    + injection H1 as <-. destruct (Ascii.eqb x "-"%char) eqn:Em.
      * apply Ascii.eqb_eq in Em as ->. injection H2 as <-. split; [lia|by left].
      * congruence.
    + destruct (IH i c c' H1 H2 Hne) as [Hi Hc]. split; [lia|done].
Qed.

Lemma strrchr_in_string s c i : strrchr s c = Some i → (i < length (cstr s))%nat.
Proof.
  revert i. induction s as [|x s IH]; intros i; simpl; [done|].
  destruct (is_nul x); [done|]. destruct (strrchr s c) as [j|].
  - intros [= <-]. specialize (IH j eq_refl). simpl. lia.
  - destruct (Ascii.eqb x c); [|done]. intros [= <-]. simpl. lia.
Qed.

Lemma cstr_drop s : ∀ k, (k ≤ length (cstr s))%nat → cstr (drop k s) = drop k (cstr s).
Proof.
  induction s as [|x s IH]; intros k Hk; [by destruct k|].
  destruct k as [|k]; [done|]. simpl in *.
  destruct (is_nul x); simpl in *; [lia|]. apply IH. lia.
Qed.

Lemma basename_in_string s : (basename s ≤ length (cstr s))%nat.
Proof.
  unfold basename. destruct (strrchr s "/"%char) as [i|] eqn:E; [|lia].
  apply strrchr_in_string in E. lia.
Qed.

(** X3.  What [path_to_modname] writes.  With [alloc] the caller's array is
    left as it is.  Without, the array keeps its length, and every character
    that changes lies inside the final component of the path string (not
    before it, and not at or after the string's terminator) and changes
    from ['-'] to ['_'] or from ['.'] to NUL. *)
Theorem path_to_modname_writes (buf : list ascii) (path : nat) :
  snd (path_to_modname buf path true) = buf ∧
  length (snd (path_to_modname buf path false)) = length buf ∧
  ∀ i c c',
    buf !! i = Some c → snd (path_to_modname buf path false) !! i = Some c' → c ≠ c' →
    (path + basename (drop path buf) ≤ i < path + strlen (drop path buf))%nat ∧
    ((c = "-"%char ∧ c' = "_"%char) ∨ (c = "."%char ∧ c' = NUL)).
Proof.
  unfold path_to_modname. set (s := drop path buf). set (b := basename s).
  split_and!.
  - by repeat case_match.
  - destruct (is_nul _); [done|]. cbn [snd].
    by rewrite length_app, modname_scan_length, <- length_app, take_drop.
  - intros i c c' H1 H2 Hne.
    destruct (is_nul _); [simpl in H2; congruence|]. cbn [snd] in H2.
    destruct (decide (i < path + b)%nat) as [Hlt|Hge].
    + rewrite lookup_app_l in H2 by (rewrite length_take; apply lookup_lt_Some in H1; lia).
      rewrite lookup_take_lt in H2 by done. congruence.
    + assert (Hlen : length (take (path + b) buf) = (path + b)%nat).
      { rewrite length_take. apply lookup_lt_Some in H1. lia. }
      rewrite lookup_app_r, Hlen in H2 by lia.
      assert (H1' : drop (path + b) buf !! (i - (path + b))%nat = Some c).
      { rewrite lookup_drop. rewrite <- H1. f_equal. lia. }
      destruct (modname_scan_changes _ _ _ _ H1' H2 Hne) as [Hi Hc].
      split; [|done]. split; [lia|].
      pose proof (basename_in_string s) as Hb. fold b in Hb.
      replace (drop (path + b) buf) with (drop b s) in Hi
        by (unfold s; by rewrite drop_drop).
      rewrite cstr_drop in Hi by done. rewrite length_drop in Hi.
      unfold strlen. lia.
Qed.

(** ** The constructors under every allocation outcome *)

Lemma new_from_name_world w c n :
  kmod_module_new_from_name (Some c) (Some n) w
  = if hd false (oom w) then Ok (- ENOMEM, None) (set_oom (drop 1) w)
    else if hd false (drop 1 (oom w))
    then Ok (0, Some (fresh (dom (mods w))))
            (World (<[fresh (dom (mods w)) := KmodModule c None None [] 1 false]> (mods w))
                   (strs w) (<[c := ctx_count w c + 1]> (ctxs w)) (fds w) (maps w)
                   (drop 2 (oom w)))
    else Ok (0, Some (fresh (dom (mods w)))) (add_handle c n w).
Proof.
  unfold kmod_module_new_from_name, calloc_mod, bind, alloc_fails.
  destruct (hd false (oom w)); [done|]. simpl.
  unfold strdup, bind, alloc_fails. simpl.
  destruct (hd false (drop 1 (oom w))); simpl; unfold add_handle, set_mods; simpl;
    by rewrite drop_drop.
Qed.

Lemma new_from_path_world stat w c p :
  kmod_module_new_from_path stat (Some c) (Some p) w
  = match stat p with
    | Some e => Ok (- e, None) w
    | None =>
        if hd false (oom w) then Ok (- ENOMEM, None) (set_oom (drop 1) w)
        else
          Ok (0, Some (fresh (dom (mods w))))
             (World (<[fresh (dom (mods w)) :=
                         KmodModule c (if hd false (drop 1 (oom w)) then None
                                       else Some (fresh (dom (strs w))))
                                    None [] 1 false]> (mods w))
                    (if hd false (drop 1 (oom w)) then strs w
                     else <[fresh (dom (strs w)) := p]> (strs w))
                    (<[c := ctx_count w c + 1]> (ctxs w)) (fds w) (maps w)
                    (drop 2 (oom w)))
    end.
Proof.
  unfold kmod_module_new_from_path. destruct (stat p); [done|].
  unfold calloc_mod, bind, alloc_fails.
  destruct (hd false (oom w)); [done|]. simpl.
  unfold strdup, bind, alloc_fails. simpl.
  destruct (hd false (drop 1 (oom w))); simpl; unfold set_mods; simpl;
    by rewrite drop_drop.
Qed.

(** X4.  [kmod_module_new_from_name] with a context and a name, under every
    allocation outcome.  When the handle cannot be allocated the call
    returns [-ENOMEM], no reference on the context is taken and no heap
    changes.  Otherwise the call returns 0 and a handle that was not live
    before, with count 1, no path, no dependencies, the guard at
    not-started, and one more reference on the context; the result of
    [strdup] is not tested: the name the handle holds is a copy of the
    argument in a cell that was free before, or, when [strdup] fails, NULL,
    and the call returns 0 all the same. *)
Theorem new_from_name_outcomes (w : world) (c : ptr) (n : list ascii) :
  match kmod_module_new_from_name (Some c) (Some n) w with
  | Ok (err, None) w' =>
      hd false (oom w) = true ∧ err = - ENOMEM ∧
      mods w' = mods w ∧ strs w' = strs w ∧ ctxs w' = ctxs w
  | Ok (err, Some h) w' =>
      hd false (oom w) = false ∧ err = 0 ∧ mods w !! h = None ∧
      ctx_count w' c = ctx_count w c + 1 ∧
      (∀ h', h' ≠ h → mods w' !! h' = mods w !! h') ∧
      ∃ name,
        mods w' !! h = Some (KmodModule c None name [] 1 false) ∧
        kmod_module_get_name h w' = Ok name w' ∧
        kmod_module_get_path h w' = Ok None w' ∧
        match name with
        | Some q => hd false (drop 1 (oom w)) = false ∧
                    strs w !! q = None ∧ strs w' = <[q := n]> (strs w)
        | None => hd false (drop 1 (oom w)) = true ∧ strs w' = strs w
        end
  | Crash _ => False
  end.
Proof.
  rewrite new_from_name_world.
  destruct (hd false (oom w)) eqn:E1; [done|].
  destruct (hd false (drop 1 (oom w))) eqn:E2.
  - split_and!; try done.
    + apply fresh_mod_None.
    + unfold ctx_count at 1. simpl. by rewrite lookup_insert_eq.
    + intros h' Hne. simpl. by rewrite lookup_insert_ne.
    + exists None. unfold kmod_module_get_name, kmod_module_get_path, load_mod, bind.
      simpl. rewrite lookup_insert_eq. done.
  - split_and!; try done.
    + apply fresh_mod_None.
    + apply add_handle_ctx_count.
    + intros h' Hne. simpl. by rewrite lookup_insert_ne.
    + exists (Some (fresh (dom (strs w)))).
      unfold kmod_module_get_name, kmod_module_get_path, load_mod, bind.
      simpl. rewrite lookup_insert_eq. split_and!; try done. apply fresh_str_None.
Qed.

(** X5.  [kmod_module_new_from_path] with a context and a path.  When
    [stat] fails the call returns the negated [errno] without having
    attempted any allocation, and the state is as before.  When [stat]
    succeeds the outcomes are those of construction by name, with the path
    in the place of the name: [-ENOMEM] and nothing taken when the handle
    cannot be allocated; else 0 and a new handle with count 1 and no name,
    whose path is a copy of the argument, or NULL when [strdup] fails, the
    call returning 0 all the same. *)
Theorem new_from_path_outcomes (stat : list ascii → option Z) (w : world) (c : ptr)
  (p : list ascii) :
  match stat p, kmod_module_new_from_path stat (Some c) (Some p) w with
  | Some e, r => r = Ok (- e, None) w
  | None, Ok (err, None) w' =>
      hd false (oom w) = true ∧ err = - ENOMEM ∧
      mods w' = mods w ∧ strs w' = strs w ∧ ctxs w' = ctxs w
  | None, Ok (err, Some h) w' =>
      hd false (oom w) = false ∧ err = 0 ∧ mods w !! h = None ∧
      ctx_count w' c = ctx_count w c + 1 ∧
      (∀ h', h' ≠ h → mods w' !! h' = mods w !! h') ∧
      ∃ path,
        mods w' !! h = Some (KmodModule c path None [] 1 false) ∧
        kmod_module_get_path h w' = Ok path w' ∧
        kmod_module_get_name h w' = Ok None w' ∧
        match path with
        | Some q => hd false (drop 1 (oom w)) = false ∧
                    strs w !! q = None ∧ strs w' = <[q := p]> (strs w)
        | None => hd false (drop 1 (oom w)) = true ∧ strs w' = strs w
        end
  | None, Crash _ => False
  end.
Proof.
  rewrite new_from_path_world.
  destruct (stat p); [done|].
  destruct (hd false (oom w)) eqn:E1; [done|].
  split_and!; try done.
  - apply fresh_mod_None.
  - unfold ctx_count at 1. simpl. by rewrite lookup_insert_eq.
  - intros h' Hne. simpl. by rewrite lookup_insert_ne.
  - eexists. unfold kmod_module_get_name, kmod_module_get_path, load_mod, bind.
    simpl. rewrite lookup_insert_eq. split_and!; try done.
    destruct (hd false (drop 1 (oom w))); [done|].
    split_and!; try done. apply fresh_str_None.
Qed.

(** ** Round trips of the reference count *)

Lemma release_of_fresh_handle w w1 h c path name :
  0 < ctx_count w c →
  mods w !! h = None →
  mods w1 = <[h := KmodModule c path name [] 1 false]> (mods w) →
  ctxs w1 = <[c := ctx_count w c + 1]> (ctxs w) →
  fds w1 = fds w → maps w1 = maps w →
  (∀ q, path = Some q → strs w !! q = None ∧ strs w1 = <[q := default [] (strs w1 !! q)]> (strs w) ∧ name = None) →
  (∀ q, name = Some q → strs w !! q = None ∧ strs w1 = <[q := default [] (strs w1 !! q)]> (strs w) ∧ path = None) →
  (path = None → name = None → strs w1 = strs w) →
  ∃ w2, kmod_module_unref (Some h) w1 = Ok None w2 ∧
        mods w2 = mods w ∧ strs w2 = strs w ∧ ctxs w2 = ctxs w ∧
        fds w2 = fds w ∧ maps w2 = maps w.
Proof.
  intros Hc Hh Hm Hcx Hf Hmp Hp Hn Hnone.
  assert (Hl : mods w1 !! h = Some (KmodModule c path name [] 1 false)).
  { rewrite Hm. apply lookup_insert_eq. }
  destruct (unref_last_leaf w1 h _ Hl eq_refl eq_refl) as
    (w2 & Hun & Hm2 & Hs2 & Hc2 & Hco2 & Hf2 & Hmp2 & _).
  { simpl. intros q ->. destruct (Hp q eq_refl) as (_ & -> & _).
    rewrite lookup_insert_eq. by eexists. }
  { simpl. intros q ->. destruct (Hn q eq_refl) as (_ & -> & _).
    rewrite lookup_insert_eq. by eexists. }
  { simpl. intros q ->. by destruct (Hp q eq_refl) as (_ & _ & ->). }
  exists w2. simpl in *. split_and!; try congruence.
  - rewrite Hm2, Hm. by apply delete_insert_id.
  - rewrite Hs2. destruct path as [q|], name as [q'|]; simpl.
    + by destruct (Hp q eq_refl) as (_ & _ & ?).
    + destruct (Hp q eq_refl) as (Hq & -> & _). by apply delete_insert_id.
    + destruct (Hn q' eq_refl) as (Hq & -> & _). by apply delete_insert_id.
    + by apply Hnone.
  - assert (Hc1 : ctx_count w1 c = ctx_count w c + 1).
    { unfold ctx_count at 1. by rewrite Hcx, lookup_insert_eq. }
    apply map_eq. intros c'. destruct (decide (c' = c)) as [->|Hne].
    + apply ctxs_lookup_of_count; [|done]. rewrite Hc2, Hc1. lia.
    + by rewrite Hco2, Hcx, lookup_insert_ne.
Qed.

(** X6.  Construction followed by one release is a round trip.  Whenever
    the handle could be allocated (whether or not [strdup] then succeeded),
    releasing the handle that [kmod_module_new_from_name] or
    [kmod_module_new_from_path] returned destroys it and leaves the handle
    heap, the string heap and the count of every context as they were
    before the construction; the context is one the caller holds a
    reference on. *)
Theorem construct_then_release (stat : list ascii → option Z) (w : world) (c : ptr)
  (s : list ascii) :
  0 < ctx_count w c → hd false (oom w) = false →
  (∃ h w1 w2,
     kmod_module_new_from_name (Some c) (Some s) w = Ok (0, Some h) w1 ∧
     kmod_module_unref (Some h) w1 = Ok None w2 ∧
     mods w2 = mods w ∧ strs w2 = strs w ∧ ctxs w2 = ctxs w ∧
     fds w2 = fds w ∧ maps w2 = maps w) ∧
  (stat s = None →
   ∃ h w1 w2,
     kmod_module_new_from_path stat (Some c) (Some s) w = Ok (0, Some h) w1 ∧
     kmod_module_unref (Some h) w1 = Ok None w2 ∧
     mods w2 = mods w ∧ strs w2 = strs w ∧ ctxs w2 = ctxs w ∧
     fds w2 = fds w ∧ maps w2 = maps w).
Proof.
  intros Hc Ho. split.
  - rewrite new_from_name_world, Ho.
    destruct (hd false (drop 1 (oom w))).
    + edestruct (release_of_fresh_handle w) as (w2 & Hun & Hrest);
        [done|apply fresh_mod_None|..|eexists _, _, w2; split; [done|]; split; [exact Hun|exact Hrest]];
        simpl; try done.
    + edestruct (release_of_fresh_handle w) as (w2 & Hun & Hrest);
        [done|apply fresh_mod_None|..|eexists _, _, w2; split; [done|]; split; [exact Hun|exact Hrest]];
        simpl; try done.
      intros q [= <-]. rewrite lookup_insert_eq. split_and!; try done. apply fresh_str_None.
  - intros Hs. rewrite new_from_path_world, Hs, Ho.
    destruct (hd false (drop 1 (oom w))).
    + edestruct (release_of_fresh_handle w) as (w2 & Hun & Hrest);
        [done|apply fresh_mod_None|..|eexists _, _, w2; split; [done|]; split; [exact Hun|exact Hrest]];
        simpl; try done.
    + edestruct (release_of_fresh_handle w) as (w2 & Hun & Hrest);
        [done|apply fresh_mod_None|..|eexists _, _, w2; split; [done|]; split; [exact Hun|exact Hrest]];
        simpl; try done.
      intros q [= <-]. rewrite lookup_insert_eq. split_and!; try done. apply fresh_str_None.
Qed.

Lemma construct_then_release_witness :
  ∃ h w1 w2,
    kmod_module_new_from_name (Some 1%positive) (Some (cs "snd")) (sample_world [])
    = Ok (0, Some h) w1 ∧
    kmod_module_unref (Some h) w1 = Ok None w2 ∧
    mods w2 = mods (sample_world []) ∧ strs w2 = strs (sample_world []).
Proof.
  destruct (construct_then_release (λ _, None) (sample_world []) 1 (cs "snd"))
    as [(h & w1 & w2 & H1 & H2 & Hm & Hs & _) _]; [done|done|].
  exists h, w1, w2. by split_and!.
Defined.

Lemma set_refcount_back r m : r = mod_refcount m → ∀ r', set_refcount r (set_refcount r' m) = m.
Proof. intros -> r'. by destruct m. Qed.

Lemma store_back w p m m' :
  mods w !! p = Some m → set_mods <[p := m]> (set_mods <[p := m']> w) = w.
Proof.
  intros H. unfold set_mods. simpl. rewrite insert_insert_eq, insert_id by done.
  apply world_eta.
Qed.

(** X7.  Acquire and release undo each other.  On a live handle whose
    count is at least 1 and below [INT_MAX], [kmod_module_ref] followed by
    [kmod_module_unref] returns the handle and leaves the whole state as it
    was; when the count is above 1 the same holds for the release followed
    by the acquire. *)
Theorem ref_unref_round_trip (w : world) (p : ptr) (m : kmod_module) :
  mods w !! p = Some m → 1 ≤ mod_refcount m < INT_MAX →
  (kmod_module_ref (Some p);; kmod_module_unref (Some p)) w = Ok (Some p) w ∧
  (1 < mod_refcount m →
   (kmod_module_unref (Some p);; kmod_module_ref (Some p)) w = Ok (Some p) w).
Proof.
  intros Hm Hr. split.
  - rewrite (bind_Ok _ _ _ _ _ (ref_result w p m Hm ltac:(unfold INT_MIN; lia))).
    rewrite (unref_not_last _ p (set_refcount (mod_refcount m + 1) m))
      by first [apply lookup_insert_eq|simpl; lia].
    simpl. rewrite set_refcount_back by lia. by rewrite store_back.
  - intros Hr'.
    rewrite (bind_Ok _ _ _ _ _ (unref_not_last w p m Hm ltac:(lia))).
    rewrite (ref_result _ p (set_refcount (mod_refcount m - 1) m))
      by first [apply lookup_insert_eq|simpl; unfold INT_MIN; lia].
    simpl. rewrite set_refcount_back by lia. by rewrite store_back.
Qed.

Lemma ref_unref_round_trip_witness :
  (kmod_module_ref (Some 10%positive);; kmod_module_unref (Some 10%positive))
    (sample_world [])
  = Ok (Some 10%positive) (sample_world []).
Proof.
  refine (proj1 (ref_unref_round_trip (sample_world []) 10
                   (KmodModule 1 None (Some 5%positive) [] 1 false) _ _)).
  - reflexivity.
  - simpl. unfold INT_MAX. lia.
Defined.

(** ** The last release of a handle that has dependencies *)

(** The destruction after the dependency list has been released. *)
Lemma destroy_tail w p m :
  (∀ q, mod_path m = Some q → is_Some (strs w !! q)) →
  (∀ q, mod_name m = Some q → is_Some (strs w !! q)) →
  (∀ q, mod_path m = Some q → mod_name m ≠ Some q) →
  ∃ w',
    (kmod_unref (mod_ctx m);; free_str (mod_path m);; free_str (mod_name m);;
     free_mod p;; ret (@None ptr)) w = Ok None w' ∧
    mods w' = delete p (mods w) ∧
    strs w' = from_option delete id (mod_name m) (from_option delete id (mod_path m) (strs w)) ∧
    ctx_count w' (mod_ctx m) = Z.max 0 (ctx_count w (mod_ctx m) - 1) ∧
    (∀ c, c ≠ mod_ctx m → ctxs w' !! c = ctxs w !! c) ∧
    fds w' = fds w ∧ maps w' = maps w ∧ oom w' = oom w.
Proof.
  intros Hp Hn Hpn.
  assert (Hfree : ∀ w1 : world, strs w1 = strs w →
    ∃ w2, (free_str (mod_path m);; free_str (mod_name m);; free_mod p;;
           ret (@None ptr)) w1 = Ok None w2 ∧
          mods w2 = delete p (mods w1) ∧
          strs w2 = from_option delete id (mod_name m)
                      (from_option delete id (mod_path m) (strs w)) ∧
          ctxs w2 = ctxs w1 ∧ fds w2 = fds w1 ∧ maps w2 = maps w1 ∧ oom w2 = oom w1).
  { intros w1 Hs. rewrite <- Hs in Hp, Hn |- *. clear Hs.
    destruct (mod_path m) as [qp|] eqn:Ep, (mod_name m) as [qn|] eqn:En;
      unfold free_str, bind, free_mod, modify, ret; simpl.
    - destruct (Hp qp eq_refl) as [sp Hsp]. destruct (Hn qn eq_refl) as [sn Hsn].
      rewrite Hsp. simpl. rewrite lookup_delete_ne by (intros ->; by eapply Hpn).
      rewrite Hsn. eexists. split_and!; done.
    - destruct (Hp qp eq_refl) as [sp Hsp]. rewrite Hsp.
      eexists. split_and!; done.
    - destruct (Hn qn eq_refl) as [sn Hsn]. rewrite Hsn.
      eexists. split_and!; done.
    - eexists. split_and!; done. }
  unfold kmod_unref, bind at 1.
  set (c := mod_ctx m). set (r := ctx_count w c - 1).
  destruct (0 <? r) eqn:E.
  - edestruct Hfree as (w2 & -> & Hm2 & Hs2 & Hc2 & Hf2 & Hmp2 & Ho2); [|].
    2:{ eexists. split; [done|]. rewrite Hm2, Hs2, Hf2, Hmp2, Ho2. simpl.
        split_and!; try done.
        - unfold ctx_count at 1. rewrite Hc2. simpl. rewrite lookup_insert_eq. simpl.
          apply Z.ltb_lt in E. lia.
        - intros c' Hc'. rewrite Hc2. simpl. by rewrite lookup_insert_ne. }
    done.
  - edestruct Hfree as (w2 & -> & Hm2 & Hs2 & Hc2 & Hf2 & Hmp2 & Ho2); [|].
    2:{ eexists. split; [done|]. rewrite Hm2, Hs2, Hf2, Hmp2, Ho2. simpl.
        split_and!; try done.
        - unfold ctx_count at 1. rewrite Hc2. simpl. rewrite lookup_delete_eq. simpl.
          apply Z.ltb_ge in E. lia.
        - intros c' Hc'. rewrite Hc2. simpl. by rewrite lookup_delete_ne. }
    done.
Qed.

(** The last release, given what the release of the dependency list does. *)
Lemma unref_last_after_list w p m w1 :
  mods w !! p = Some m → mod_refcount m = 1 →
  kmod_module_unref_list (mod_dep m) (set_mods <[p := set_refcount 0 m]> w) = Ok 0 w1 →
  (∀ q, mod_path m = Some q → is_Some (strs w1 !! q)) →
  (∀ q, mod_name m = Some q → is_Some (strs w1 !! q)) →
  (∀ q, mod_path m = Some q → mod_name m ≠ Some q) →
  ∃ w',
    kmod_module_unref (Some p) w = Ok None w' ∧
    mods w' = delete p (mods w1) ∧
    strs w' = from_option delete id (mod_name m) (from_option delete id (mod_path m) (strs w1)) ∧
    ctx_count w' (mod_ctx m) = Z.max 0 (ctx_count w1 (mod_ctx m) - 1) ∧
    (∀ c, c ≠ mod_ctx m → ctxs w' !! c = ctxs w1 !! c) ∧
    fds w' = fds w1 ∧ maps w' = maps w1 ∧ oom w' = oom w1.
Proof.
  intros Hm Hr Hl Hp Hn Hpn.
  rewrite (unref_last w p m Hm Hr), (bind_Ok _ _ _ _ _ Hl).
  by apply destroy_tail.
Qed.

Lemma unref_fuel_shared f w p m :
  mods w !! p = Some m → 1 < mod_refcount m ≤ INT_MAX →
  unref_fuel (S f) p w
  = Ok (Some p) (set_mods <[p := set_refcount (mod_refcount m - 1) m]> w).
Proof.
  intros Hm Hr. cbn [unref_fuel].
  rewrite (bind_Ok _ _ _ _ _ (load_mod_Ok _ _ _ Hm)).
  rewrite wrap_int_id by (unfold INT_MIN, INT_MAX in *; lia).
  unfold store_mod, modify, bind.
  destruct (0 <? mod_refcount m - 1) eqn:E; [done|].
  apply Z.ltb_ge in E. lia.
Qed.

(** Releasing a list of handles that are each held by someone else as well:
    every one loses one reference and none is destroyed. *)
Lemma unref_list_shared f l : ∀ w,
  NoDup l →
  (∀ h, h ∈ l → ∃ m, mods w !! h = Some m ∧ 1 < mod_refcount m ≤ INT_MAX) →
  ∃ w',
    unref_list_with (unref_fuel (S f)) l w = Ok 0 w' ∧
    (∀ h, h ∈ l →
       mods w' !! h = (λ m, set_refcount (mod_refcount m - 1) m) <$> mods w !! h) ∧
    (∀ h, h ∉ l → mods w' !! h = mods w !! h) ∧
    strs w' = strs w ∧ ctxs w' = ctxs w ∧ fds w' = fds w ∧ maps w' = maps w ∧
    oom w' = oom w.
Proof.
  induction l as [|d l IH]; intros w Hnd Hl.
  - exists w. split_and!; try done. intros h Hh. by apply elem_of_nil in Hh.
  - apply NoDup_cons in Hnd as [Hd Hnd].
    destruct (Hl d ltac:(by left)) as (m & Hm & Hr).
    cbn [unref_list_with].
    rewrite (bind_Ok _ _ _ _ _ (unref_fuel_shared f w d m Hm Hr)).
    set (w1 := set_mods _ w).
    destruct (IH w1 Hnd) as (w' & Hun & Hin & Hout & Hs & Hc & Hf & Hmp & Ho).
    { intros h Hh. destruct (Hl h ltac:(by right)) as (m' & Hm' & Hr').
      exists m'. split; [|done]. unfold w1. simpl.
      rewrite lookup_insert_ne; [done|]. by intros ->. }
    exists w'. split_and!; try done.
    + intros h Hh. apply elem_of_cons in Hh as [->|Hh].
      * rewrite Hout by done. unfold w1. simpl. by rewrite lookup_insert_eq, Hm.
      * rewrite Hin by done. unfold w1. simpl.
        rewrite lookup_insert_ne; [done|]. by intros ->.
    + intros h Hh. apply not_elem_of_cons in Hh as [Hne Hh].
      rewrite Hout by done. unfold w1. simpl. by rewrite lookup_insert_ne.
Qed.

Lemma unref_depth_pos w p m : mods w !! p = Some m → ∃ f, unref_depth w = S f.
Proof.
  intros Hm. unfold unref_depth.
  destruct (size (mods w)) as [|f] eqn:E; [|by eexists].
  apply map_size_empty_iff in E. rewrite E in Hm. by rewrite lookup_empty in Hm.
Qed.

(** The last release when every dependency is shared; stated on its own as
    it serves twice below. *)
Lemma unref_last_shared (w : world) (p : ptr) (m : kmod_module) :
  mods w !! p = Some m → mod_refcount m = 1 →
  NoDup (mod_dep m) →
  (∀ h, h ∈ mod_dep m → ∃ d, mods w !! h = Some d ∧ 1 < mod_refcount d ≤ INT_MAX) →
  (∀ q, mod_path m = Some q → is_Some (strs w !! q)) →
  (∀ q, mod_name m = Some q → is_Some (strs w !! q)) →
  (∀ q, mod_path m = Some q → mod_name m ≠ Some q) →
  ∃ w',
    kmod_module_unref (Some p) w = Ok None w' ∧
    mods w' !! p = None ∧
    (∀ h, h ∈ mod_dep m →
       mods w' !! h = (λ d, set_refcount (mod_refcount d - 1) d) <$> mods w !! h) ∧
    (∀ h, h ≠ p → h ∉ mod_dep m → mods w' !! h = mods w !! h) ∧
    strs w' = from_option delete id (mod_name m) (from_option delete id (mod_path m) (strs w)) ∧
    ctx_count w' (mod_ctx m) = Z.max 0 (ctx_count w (mod_ctx m) - 1) ∧
    (∀ c, c ≠ mod_ctx m → ctxs w' !! c = ctxs w !! c) ∧
    fds w' = fds w ∧ maps w' = maps w.
Proof.
  intros Hm Hr Hnd Hdeps Hp Hn Hpn.
  assert (Hpd : p ∉ mod_dep m).
  { intros Hin. destruct (Hdeps p Hin) as (d & Hd & Hrd).
    rewrite Hm in Hd. injection Hd as <-. lia. }
  set (w0 := set_mods <[p := set_refcount 0 m]> w).
  assert (Hl : ∃ w1, kmod_module_unref_list (mod_dep m) w0 = Ok 0 w1 ∧
    (∀ h, h ∈ mod_dep m →
       mods w1 !! h = (λ d, set_refcount (mod_refcount d - 1) d) <$> mods w0 !! h) ∧
    (∀ h, h ∉ mod_dep m → mods w1 !! h = mods w0 !! h) ∧
    strs w1 = strs w0 ∧ ctxs w1 = ctxs w0 ∧ fds w1 = fds w0 ∧ maps w1 = maps w0 ∧
    oom w1 = oom w0).
  { unfold kmod_module_unref_list.
    destruct (unref_depth_pos w0 p (set_refcount 0 m)) as [f ->].
    { unfold w0. simpl. apply lookup_insert_eq. }
    apply unref_list_shared; [done|].
    intros h Hh. destruct (Hdeps h Hh) as (d & Hd & Hrd). exists d. split; [|done].
    unfold w0. simpl. rewrite lookup_insert_ne; [done|]. by intros ->. }
  destruct Hl as (w1 & Hl & Hin & Hout & Hs1 & Hc1 & Hf1 & Hmp1 & _).
  destruct (unref_last_after_list w p m w1 Hm Hr Hl) as
    (w' & Hun & Hm' & Hs' & Hc' & Hco' & Hf' & Hmp' & _).
  { by rewrite Hs1. }
  { by rewrite Hs1. }
  { done. }
  exists w'. split_and!; try done.
  - rewrite Hm'. apply lookup_delete_eq.
  - intros h Hh. rewrite Hm', lookup_delete_ne by (by intros ->).
    rewrite Hin by done. unfold w0. simpl.
    rewrite lookup_insert_ne; [done|]. by intros ->.
  - intros h Hne Hh. rewrite Hm', lookup_delete_ne by done.
    rewrite Hout by done. unfold w0. simpl. by rewrite lookup_insert_ne.
  - by rewrite Hs', Hs1.
  - rewrite Hc'. unfold ctx_count. by rewrite Hc1.
  - intros c Hne. by rewrite Hco', Hc1.
  - by rewrite Hf', Hf1.
  - by rewrite Hmp', Hmp1.
Qed.

(** X8.  The last release of a handle whose dependencies are shared.  When
    a handle with count 1 is released and every handle of its dependency
    list (which has no repetition) is also held by someone else, the handle
    is destroyed, its strings are freed and its reference on the context is
    given back, and every dependency loses exactly one reference and stays
    live; no other handle is touched. *)
Theorem unref_last_keeps_shared_dependencies (w : world) (p : ptr) (m : kmod_module) :
  mods w !! p = Some m → mod_refcount m = 1 →
  NoDup (mod_dep m) →
  (∀ h, h ∈ mod_dep m → ∃ d, mods w !! h = Some d ∧ 1 < mod_refcount d ≤ INT_MAX) →
  (∀ q, mod_path m = Some q → is_Some (strs w !! q)) →
  (∀ q, mod_name m = Some q → is_Some (strs w !! q)) →
  (∀ q, mod_path m = Some q → mod_name m ≠ Some q) →
  ∃ w',
    kmod_module_unref (Some p) w = Ok None w' ∧
    mods w' !! p = None ∧
    (∀ h, h ∈ mod_dep m →
       mods w' !! h = (λ d, set_refcount (mod_refcount d - 1) d) <$> mods w !! h) ∧
    (∀ h, h ≠ p → h ∉ mod_dep m → mods w' !! h = mods w !! h) ∧
    strs w' = from_option delete id (mod_name m) (from_option delete id (mod_path m) (strs w)) ∧
    ctx_count w' (mod_ctx m) = Z.max 0 (ctx_count w (mod_ctx m) - 1) ∧
    (∀ c, c ≠ mod_ctx m → ctxs w' !! c = ctxs w !! c) ∧
    fds w' = fds w ∧ maps w' = maps w.
Proof. apply unref_last_shared. Qed.

Lemma unref_last_keeps_shared_dependencies_witness :
  ∃ w',
    kmod_module_unref (Some 10%positive) shared_dep_world = Ok None w' ∧
    mods w' !! 10%positive = None ∧
    mods w' !! 11%positive = Some (KmodModule 1 None (Some 6%positive) [] 1 false).
Proof.
  destruct (unref_last_keeps_shared_dependencies shared_dep_world 10
              (KmodModule 1 None (Some 5%positive) [11%positive] 1 true))
    as (w' & Hun & Hp & Hd & _).
  - reflexivity.
  - reflexivity.
  - simpl. apply NoDup_singleton.
  - simpl. intros h Hh. apply list_elem_of_singleton in Hh as ->.
    eexists. split; [reflexivity|]. simpl. unfold INT_MAX. lia.
  - intros q [=].
  - simpl. intros q [= <-]. by eexists.
  - intros q [=].
  - exists w'. split_and!; [exact Hun|exact Hp|].
    rewrite (Hd 11%positive) by (simpl; apply list_elem_of_singleton; reflexivity).
    reflexivity.
Defined.

(** ** The release of a list whose handles are shared or held alone *)

Lemma unref_list_mixed f c l : ∀ w,
  NoDup l →
  (∀ h, h ∈ l → ∃ x, mods w !! h = Some x ∧ (dep_shared x ∨ dep_alone c w x)) →
  names_apart w l →
  ∃ w',
    unref_list_with (unref_fuel (S f)) l w = Ok 0 w' ∧
    (∀ h x, h ∈ l → mods w !! h = Some x →
       mods w' !! h = if decide (mod_refcount x = 1) then None
                      else Some (set_refcount (mod_refcount x - 1) x)) ∧
    (∀ h, h ∉ l → mods w' !! h = mods w !! h) ∧
    (∀ q, not_a_name w l q → strs w' !! q = strs w !! q) ∧
    (∀ h x q, h ∈ l → mods w !! h = Some x → mod_refcount x = 1 →
       mod_name x = Some q → strs w' !! q = None) ∧
    (Z.of_nat (length l) ≤ ctx_count w c →
     ctx_count w' c
     = ctx_count w c - (Z.of_nat (size (mods w)) - Z.of_nat (size (mods w')))) ∧
    (size (mods w') ≤ size (mods w) ≤ size (mods w') + length l)%nat ∧
    (∀ c', c' ≠ c → ctxs w' !! c' = ctxs w !! c') ∧
    fds w' = fds w ∧ maps w' = maps w ∧ oom w' = oom w.
Proof.
  induction l as [|h0 l IH]; intros w Hnd Hl Hnames.
  - exists w. split_and!; try done.
    + intros h x Hh. by apply elem_of_nil in Hh.
    + intros h x q Hh. by apply elem_of_nil in Hh.
    + lia.
    + simpl. lia.
  - apply NoDup_cons in Hnd as [Hh0 Hnd]. cbn [length].
    destruct (Hl h0 ltac:(by left)) as (x0 & Hx0 & Hkind).
    assert (Hne : ∀ h, h ∈ l → h ≠ h0) by (intros h Hh ->; done).
    cbn [unref_list_with].
    destruct Hkind as [Hsh|(Hr0 & Hc0 & Hd0 & Hp0 & Hn0)].
    + (* shared: one reference less *)
      assert (Hr0 : mod_refcount x0 ≠ 1) by (unfold dep_shared in Hsh; lia).
      rewrite (bind_Ok _ _ _ _ _ (unref_fuel_shared f w h0 x0 Hx0 Hsh)).
      set (w1 := set_mods _ w).
      assert (Hm1 : ∀ h, h ≠ h0 → mods w1 !! h = mods w !! h).
      { intros h Hh. unfold w1. simpl. by rewrite lookup_insert_ne. }
      assert (Hsz : size (mods w1) = size (mods w)).
      { unfold w1. simpl. apply map_size_insert_Some. by eexists. }
      destruct (IH w1 Hnd) as
        (w' & Hun & Hin & Hout & Hs & Hfreed & Hc & Hsize & Hco & Hf & Hmp & Ho).
      { intros h Hh. destruct (Hl h ltac:(by right)) as (x & Hx & Hk).
        exists x. rewrite Hm1 by auto. done. }
      { intros h1 h2 x1 x2 q H1 H2 H12. rewrite !Hm1 by auto.
        apply Hnames; [by right|by right|done]. }
      exists w'. split_and!; try done.
      * intros h x Hh Hx. apply elem_of_cons in Hh as [->|Hh].
        -- rewrite Hx0 in Hx. injection Hx as <-. rewrite decide_False by done.
           rewrite Hout by done. unfold w1. simpl. apply lookup_insert_eq.
        -- apply Hin; [done|]. by rewrite Hm1 by auto.
      * intros h Hh. apply not_elem_of_cons in Hh as [Hh1 Hh2].
        rewrite Hout by done. by apply Hm1.
      * intros q Hq. rewrite Hs; [done|].
        intros h x Hh. rewrite Hm1 by auto. apply Hq. by right.
      * intros h x q Hh Hx Hr Hn. apply elem_of_cons in Hh as [->|Hh].
        -- rewrite Hx0 in Hx. injection Hx as <-. done.
        -- apply (Hfreed h x q); [done| |done|done]. by rewrite Hm1 by auto.
      * intros Hcnt. rewrite Hc, Hsz; [done|].
        change (ctx_count w1 c) with (ctx_count w c). lia.
      * lia.
      * lia.
    + (* held alone: destroyed *)
      destruct (unref_fuel_leaf f w h0 x0 Hx0 Hr0 Hd0) as
        (w1 & H1 & Hm1' & Hs1 & Hc1 & Hco1 & Hf1 & Hmp1 & Ho1).
      { intros q Hq. congruence. }
      { done. }
      { intros q Hq. congruence. }
      rewrite Hp0 in Hs1. simpl in Hs1. rewrite Hc0 in Hc1, Hco1.
      rewrite (bind_Ok _ _ _ _ _ H1).
      assert (Hm1 : ∀ h, h ≠ h0 → mods w1 !! h = mods w !! h).
      { intros h Hh. by rewrite Hm1', lookup_delete_ne. }
      assert (Hsz : S (size (mods w1)) = size (mods w)).
      { rewrite Hm1', map_size_delete_Some by (by eexists).
        destruct (size (mods w)) eqn:E; [|done].
        apply map_size_empty_iff in E. rewrite E in Hx0. by rewrite lookup_empty in Hx0. }
      assert (Hstr : ∀ q, mod_name x0 ≠ Some q → strs w1 !! q = strs w !! q).
      { intros q Hq. rewrite Hs1. destruct (mod_name x0) as [q0|]; [|done]. simpl.
        apply lookup_delete_ne. by intros ->. }
      destruct (IH w1 Hnd) as
        (w' & Hun & Hin & Hout & Hs & Hfreed & Hc & Hsize & Hco & Hf & Hmp & Ho).
      { intros h Hh. destruct (Hl h ltac:(by right)) as (x & Hx & Hk).
        exists x. rewrite Hm1 by auto. split; [done|].
        destruct Hk as [?|(Hr & Hcx & Hd & Hp & Hn)]; [by left|right].
        split_and!; try done. intros q Hq. rewrite Hstr; [by apply Hn|].
        apply (Hnames h h0 x x0 q); try done; [by right|by left|by apply Hne]. }
      { intros h1 h2 x1 x2 q H1' H2' H12. rewrite !Hm1 by auto.
        apply Hnames; [by right|by right|done]. }
      exists w'. split_and!; try congruence.
      * intros h x Hh Hx. apply elem_of_cons in Hh as [->|Hh].
        -- rewrite Hx0 in Hx. injection Hx as <-. rewrite decide_True by done.
           rewrite Hout by done. rewrite Hm1'. apply lookup_delete_eq.
        -- apply Hin; [done|]. by rewrite Hm1 by auto.
      * intros h Hh. apply not_elem_of_cons in Hh as [Hh1 Hh2].
        rewrite Hout by done. by apply Hm1.
      * intros q Hq. rewrite Hs.
        -- apply Hstr. apply (Hq h0 x0); [by left|done|done].
        -- intros h x Hh. rewrite Hm1 by auto. apply Hq. by right.
      * intros h x q Hh Hx Hr Hn. apply elem_of_cons in Hh as [->|Hh].
        -- rewrite Hx0 in Hx. injection Hx as <-.
           rewrite Hs.
           ++ rewrite Hs1, Hn. simpl. apply lookup_delete_eq.
           ++ intros h' x' Hh'. rewrite Hm1 by auto. intros Hx' Hr'.
              apply (Hnames h0 h' x0 x' q); try done; [by left|by right|].
              intros ->. done.
        -- apply (Hfreed h x q); [done| |done|done]. by rewrite Hm1 by auto.
      * intros Hcnt. rewrite Hc, Hc1; lia.
      * lia.
      * lia.
      * intros c' Hc'. by rewrite Hco, Hco1.
Qed.

(** The last release of a handle whose dependencies are shared or held by
    the list alone. *)
Lemma unref_last_mixed (w : world) (p : ptr) (m : kmod_module) :
  mods w !! p = Some m → mod_refcount m = 1 →
  NoDup (mod_dep m) → (p ∉ mod_dep m) →
  (∀ h, h ∈ mod_dep m →
     ∃ x, mods w !! h = Some x ∧ (dep_shared x ∨ dep_alone (mod_ctx m) w x)) →
  names_apart w (mod_dep m) →
  (∀ q, mod_path m = Some q → is_Some (strs w !! q) ∧ not_a_name w (mod_dep m) q) →
  (∀ q, mod_name m = Some q → is_Some (strs w !! q) ∧ not_a_name w (mod_dep m) q) →
  (∀ q, mod_path m = Some q → mod_name m ≠ Some q) →
  ∃ w',
    kmod_module_unref (Some p) w = Ok None w' ∧
    mods w' !! p = None ∧
    (∀ h x, h ∈ mod_dep m → mods w !! h = Some x →
       mods w' !! h = if decide (mod_refcount x = 1) then None
                      else Some (set_refcount (mod_refcount x - 1) x)) ∧
    (∀ h, h ≠ p → h ∉ mod_dep m → mods w' !! h = mods w !! h) ∧
    (∀ q, mod_path m = Some q ∨ mod_name m = Some q → strs w' !! q = None) ∧
    (∀ h x q, h ∈ mod_dep m → mods w !! h = Some x → mod_refcount x = 1 →
       mod_name x = Some q → strs w' !! q = None) ∧
    (∀ q, mod_path m ≠ Some q → mod_name m ≠ Some q → not_a_name w (mod_dep m) q →
       strs w' !! q = strs w !! q) ∧
    (Z.of_nat (length (mod_dep m)) < ctx_count w (mod_ctx m) →
     ctx_count w' (mod_ctx m)
     = ctx_count w (mod_ctx m) - (Z.of_nat (size (mods w)) - Z.of_nat (size (mods w')))) ∧
    (size (mods w') < size (mods w) ≤ size (mods w') + S (length (mod_dep m)))%nat ∧
    (∀ c, c ≠ mod_ctx m → ctxs w' !! c = ctxs w !! c) ∧
    fds w' = fds w ∧ maps w' = maps w.
Proof.
  intros Hm Hr Hnd Hpd Hdeps Hnames Hp Hn Hpn.
  set (w0 := set_mods <[p := set_refcount 0 m]> w).
  assert (Hm0 : ∀ h, h ≠ p → mods w0 !! h = mods w !! h).
  { intros h Hh. unfold w0. simpl. by rewrite lookup_insert_ne. }
  assert (Hnp : ∀ h, h ∈ mod_dep m → h ≠ p) by (intros h Hh ->; done).
  assert (Hsz0 : size (mods w0) = size (mods w)).
  { unfold w0. simpl. apply map_size_insert_Some. by eexists. }
  assert (Hl : ∃ w1, kmod_module_unref_list (mod_dep m) w0 = Ok 0 w1 ∧
    (∀ h x, h ∈ mod_dep m → mods w0 !! h = Some x →
       mods w1 !! h = if decide (mod_refcount x = 1) then None
                      else Some (set_refcount (mod_refcount x - 1) x)) ∧
    (∀ h, h ∉ mod_dep m → mods w1 !! h = mods w0 !! h) ∧
    (∀ q, not_a_name w0 (mod_dep m) q → strs w1 !! q = strs w0 !! q) ∧
    (∀ h x q, h ∈ mod_dep m → mods w0 !! h = Some x → mod_refcount x = 1 →
       mod_name x = Some q → strs w1 !! q = None) ∧
    (Z.of_nat (length (mod_dep m)) ≤ ctx_count w0 (mod_ctx m) →
     ctx_count w1 (mod_ctx m)
     = ctx_count w0 (mod_ctx m) - (Z.of_nat (size (mods w0)) - Z.of_nat (size (mods w1)))) ∧
    (size (mods w1) ≤ size (mods w0) ≤ size (mods w1) + length (mod_dep m))%nat ∧
    (∀ c', c' ≠ mod_ctx m → ctxs w1 !! c' = ctxs w0 !! c') ∧
    fds w1 = fds w0 ∧ maps w1 = maps w0 ∧ oom w1 = oom w0).
  { unfold kmod_module_unref_list.
    destruct (unref_depth_pos w0 p (set_refcount 0 m)) as [f ->].
    { unfold w0. simpl. apply lookup_insert_eq. }
    apply unref_list_mixed; [done| |].
    - intros h Hh. destruct (Hdeps h Hh) as (x & Hx & Hk). exists x.
      rewrite Hm0 by auto. done.
    - intros h1 h2 x1 x2 q H1 H2 H12. rewrite !Hm0 by auto. by apply Hnames. }
  destruct Hl as (w1 & Hl & Hin & Hout & Hs1 & Hfreed & Hc1 & Hsize1 & Hco1 & Hf1 & Hmp1 & _).
  assert (Hnn : ∀ q, not_a_name w (mod_dep m) q → not_a_name w0 (mod_dep m) q).
  { intros q Hq h x Hh. rewrite Hm0 by auto. by apply Hq. }
  assert (Hlive : ∀ q, not_a_name w (mod_dep m) q → strs w1 !! q = strs w !! q).
  { intros q Hq. by rewrite Hs1 by auto. }
  destruct (unref_last_after_list w p m w1 Hm Hr Hl) as
    (w' & Hun & Hm' & Hs' & Hc' & Hco' & Hf' & Hmp' & _).
  { intros q Hq. destruct (Hp q Hq) as [Hq1 Hq2]. by rewrite Hlive. }
  { intros q Hq. destruct (Hn q Hq) as [Hq1 Hq2]. by rewrite Hlive. }
  { done. }
  assert (Hp1 : mods w1 !! p = Some (set_refcount 0 m)).
  { rewrite Hout by done. unfold w0. simpl. apply lookup_insert_eq. }
  assert (Hsz' : S (size (mods w')) = size (mods w1)).
  { rewrite Hm', map_size_delete_Some by (by eexists).
    destruct (size (mods w1)) eqn:E; [|done].
    apply map_size_empty_iff in E. rewrite E in Hp1. by rewrite lookup_empty in Hp1. }
  assert (Hdel : ∀ q, strs w' !! q
                      = if bool_decide (mod_path m = Some q ∨ mod_name m = Some q)
                        then None else strs w1 !! q).
  { intros q. rewrite Hs'. case_bool_decide as Hq.
    - destruct Hq as [Hq|Hq]; rewrite Hq; simpl.
      + destruct (mod_name m) as [qn|]; simpl.
        * destruct (decide (qn = q)) as [->|Hne]; [apply lookup_delete_eq|].
          rewrite lookup_delete_ne by done. apply lookup_delete_eq.
        * apply lookup_delete_eq.
      + apply lookup_delete_eq.
    - destruct (mod_path m) as [qp|], (mod_name m) as [qn|]; simpl;
        rewrite ?lookup_delete_ne; try done; intros ->; apply Hq; auto. }
  exists w'. split_and!.
  - done.
  - rewrite Hm'. apply lookup_delete_eq.
  - intros h x Hh Hx. rewrite Hm', lookup_delete_ne by (apply not_eq_sym; auto).
    apply Hin; [done|]. by rewrite Hm0 by auto.
  - intros h Hne Hh. rewrite Hm', lookup_delete_ne by done.
    rewrite Hout by done. by apply Hm0.
  - intros q Hq. rewrite Hdel. by rewrite bool_decide_eq_true_2.
  - intros h x q Hh Hx Hrx Hnx. rewrite Hdel. case_bool_decide; [done|].
    apply (Hfreed h x q); [done| |done|done]. by rewrite Hm0 by auto.
  - intros q Hq1 Hq2 Hq3. rewrite Hdel.
    rewrite bool_decide_eq_false_2 by (intros [|]; done). by apply Hlive.
  - intros Hcnt. change (ctx_count w0 (mod_ctx m)) with (ctx_count w (mod_ctx m)) in Hc1.
    rewrite Hc', Hc1; lia.
  - lia.
  - lia.
  - intros c Hne. by rewrite Hco', Hco1.
  - by rewrite Hf', Hf1.
  - by rewrite Hmp', Hmp1.
Qed.

(** ** Reference counting (C2) *)

(** C2.  Construction by name or by path, when the handle can be
    allocated, yields a new handle whose count is 1.  For a live handle
    whose count lies between 1 and [INT_MAX]: [kmod_module_ref] returns the
    same handle with the count raised by one (below [INT_MAX]) and changes
    nothing else; [kmod_module_unref] on a count above 1 returns the same
    handle with the count lowered by one and changes nothing else; on count
    1 it brings the count to 0 and destroys the handle, which is to release
    the dependency list, drop the reference on the context, free the two
    strings and free the handle; the handle is gone afterwards exactly when
    the count was 1.  A handle without dependencies is destroyed as spelt
    out in the seventh part.  A handle with dependencies, each shared or
    held by the list alone, is destroyed as spelt out in the eighth part:
    the handle is gone and its strings are freed; every shared dependency
    has lost exactly one reference; every dependency the list held alone
    has been destroyed in its turn and its name freed; no other handle or
    string is touched; and the context has given back one reference per
    handle destroyed.  On NULL both functions do nothing. *)
Theorem refcount_protocol (w : world) (p : ptr) (m : kmod_module) :
  mods w !! p = Some m →
  1 ≤ mod_refcount m ≤ INT_MAX →
  (∀ c n, hd false (oom w) = false →
     ∃ h w', kmod_module_new_from_name (Some c) (Some n) w = Ok (0, Some h) w' ∧
             mods w !! h = None ∧ mod_refcount <$> mods w' !! h = Some 1) ∧
  (∀ stat c path, stat path = None → hd false (oom w) = false →
     ∃ h w', kmod_module_new_from_path stat (Some c) (Some path) w = Ok (0, Some h) w' ∧
             mods w !! h = None ∧ mod_refcount <$> mods w' !! h = Some 1) ∧
  (mod_refcount m < INT_MAX →
     kmod_module_ref (Some p) w
     = Ok (Some p) (set_mods <[p := set_refcount (mod_refcount m + 1) m]> w)) ∧
  (1 < mod_refcount m →
     kmod_module_unref (Some p) w
     = Ok (Some p) (set_mods <[p := set_refcount (mod_refcount m - 1) m]> w)) ∧
  (mod_refcount m = 1 →
     kmod_module_unref (Some p) w
     = (kmod_module_unref_list (mod_dep m);;
        kmod_unref (mod_ctx m);;
        free_str (mod_path m);;
        free_str (mod_name m);;
        free_mod p;;
        ret None) (set_mods <[p := set_refcount 0 m]> w)) ∧
  (∀ r w', kmod_module_unref (Some p) w = Ok r w' →
     (mods w' !! p = None ↔ mod_refcount m = 1)) ∧
  (mod_refcount m = 1 → mod_dep m = [] →
   (∀ q, mod_path m = Some q → is_Some (strs w !! q)) →
   (∀ q, mod_name m = Some q → is_Some (strs w !! q)) →
   (∀ q, mod_path m = Some q → mod_name m ≠ Some q) →
     ∃ w', kmod_module_unref (Some p) w = Ok None w' ∧
           mods w' = delete p (mods w) ∧
           strs w' = from_option delete id (mod_name m)
                       (from_option delete id (mod_path m) (strs w)) ∧
           ctx_count w' (mod_ctx m) = Z.max 0 (ctx_count w (mod_ctx m) - 1) ∧
           (∀ c, c ≠ mod_ctx m → ctxs w' !! c = ctxs w !! c) ∧
           fds w' = fds w ∧ maps w' = maps w ∧ oom w' = oom w) ∧
  (mod_refcount m = 1 →
   NoDup (mod_dep m) → (p ∉ mod_dep m) →
   (∀ h, h ∈ mod_dep m →
      ∃ x, mods w !! h = Some x ∧ (dep_shared x ∨ dep_alone (mod_ctx m) w x)) →
   names_apart w (mod_dep m) →
   (∀ q, mod_path m = Some q → is_Some (strs w !! q) ∧ not_a_name w (mod_dep m) q) →
   (∀ q, mod_name m = Some q → is_Some (strs w !! q) ∧ not_a_name w (mod_dep m) q) →
   (∀ q, mod_path m = Some q → mod_name m ≠ Some q) →
     ∃ w', kmod_module_unref (Some p) w = Ok None w' ∧
           mods w' !! p = None ∧
           (∀ h x, h ∈ mod_dep m → mods w !! h = Some x →
              mods w' !! h = if decide (mod_refcount x = 1) then None
                             else Some (set_refcount (mod_refcount x - 1) x)) ∧
           (∀ h, h ≠ p → h ∉ mod_dep m → mods w' !! h = mods w !! h) ∧
           (∀ q, mod_path m = Some q ∨ mod_name m = Some q → strs w' !! q = None) ∧
           (∀ h x q, h ∈ mod_dep m → mods w !! h = Some x → mod_refcount x = 1 →
              mod_name x = Some q → strs w' !! q = None) ∧
           (∀ q, mod_path m ≠ Some q → mod_name m ≠ Some q →
              not_a_name w (mod_dep m) q → strs w' !! q = strs w !! q) ∧
           (Z.of_nat (length (mod_dep m)) < ctx_count w (mod_ctx m) →
            ctx_count w' (mod_ctx m)
            = ctx_count w (mod_ctx m)
              - (Z.of_nat (size (mods w)) - Z.of_nat (size (mods w')))) ∧
           (size (mods w') < size (mods w) ≤ size (mods w') + S (length (mod_dep m)))%nat ∧
           (∀ c, c ≠ mod_ctx m → ctxs w' !! c = ctxs w !! c) ∧
           fds w' = fds w ∧ maps w' = maps w) ∧
  kmod_module_ref None w = Ok None w ∧
  kmod_module_unref None w = Ok None w.
Proof.
  intros Hm Hr. split_and!.
  - intros c n Ha. destruct (new_from_name_result w c n Ha) as (q & w' & -> & Hw & _).
    eexists _, _. split_and!; [done|apply fresh_mod_None|].
    by rewrite Hw, lookup_insert_eq.
  - intros stat c path Hs Ha.
    destruct (new_from_path_result stat w c path Hs Ha) as (q & w' & -> & Hw & _).
    eexists _, _. split_and!; [done|apply fresh_mod_None|].
    by rewrite Hw, lookup_insert_eq.
  - intros. apply ref_result; [done|]. unfold INT_MIN. lia.
  - intros. apply unref_not_last; [done|lia].
  - by apply unref_last.
  - intros r w'. by apply unref_destroys_iff.
  - by apply unref_last_leaf.
  - by apply unref_last_mixed.
  - done.
  - done.
Qed.

Lemma refcount_protocol_witness :
  kmod_module_ref (Some 10%positive) (sample_world [])
  = Ok (Some 10%positive)
       (set_mods <[10%positive := KmodModule 1 None (Some 5%positive) [] 2 false]>
                 (sample_world [])) ∧
  (∃ h w', kmod_module_new_from_name (Some 1%positive) (Some (cs "snd")) (sample_world [])
           = Ok (0, Some h) w' ∧ mod_refcount <$> mods w' !! h = Some 1) ∧
  (∃ w', kmod_module_unref (Some 10%positive) (sample_world []) = Ok None w' ∧
         mods w' = ∅ ∧ strs w' = ∅ ∧ ctx_count w' 1 = 1) ∧
  (∃ w', kmod_module_unref (Some 10%positive) mixed_dep_world = Ok None w' ∧
         mods w' !! 10%positive = None ∧
         mods w' !! 11%positive = Some (KmodModule 1 None (Some 6%positive) [] 1 false) ∧
         mods w' !! 12%positive = None ∧
         strs w' !! 5%positive = None ∧
         strs w' !! 6%positive = Some (cs "a") ∧
         strs w' !! 7%positive = None ∧
         ctx_count w' 1 = 5 - (3 - Z.of_nat (size (mods w')))).
Proof.
  destruct (refcount_protocol (sample_world []) 10
              (KmodModule 1 None (Some 5%positive) [] 1 false))
    as (Hname & _ & Href & _ & _ & _ & Hleaf & _).
  { reflexivity. }
  { vm_compute. split; discriminate. }
  destruct (refcount_protocol mixed_dep_world 10
              (KmodModule 1 None (Some 5%positive) [11%positive; 12%positive] 1 true))
    as (_ & _ & _ & _ & _ & _ & _ & Hdeps & _).
  { reflexivity. }
  { vm_compute. split; discriminate. }
  assert (Hin : ∀ h : ptr, h ∈ [11%positive; 12%positive] → h = 11%positive ∨ h = 12%positive).
  { intros h Hh. apply elem_of_cons in Hh as [->|Hh]; [by left|].
    apply list_elem_of_singleton in Hh as ->. by right. }
  split_and!.
  - apply Href. reflexivity.
  - destruct (Hname 1%positive (cs "snd") eq_refl) as (h & w' & H1 & _ & H2).
    by exists h, w'.
  - destruct Hleaf as (w' & H1 & H2 & H3 & H4 & _).
    + reflexivity.
    + reflexivity.
    + intros q [=].
    + intros q [= <-]. by exists (cs "mod").
    + intros q [=].
    + exists w'. split_and!; [done| | |].
      * rewrite H2. vm_compute. reflexivity.
      * rewrite H3. vm_compute. reflexivity.
      * simpl in H4. rewrite H4. vm_compute. reflexivity.
  - destruct Hdeps as (w' & H1 & Hp & Hd & _ & Hown & Hfreed & Hkept & Hctx & _).
    + reflexivity.
    + simpl. apply NoDup_cons. split; [|apply NoDup_singleton].
      intros H. apply list_elem_of_singleton in H. discriminate.
    + simpl. intros H. destruct (Hin _ H); discriminate.
    + simpl. intros h Hh. destruct (Hin h Hh) as [-> | ->].
      * eexists. split; [reflexivity|]. left. unfold dep_shared, INT_MAX. simpl. lia.
      * eexists. split; [reflexivity|]. right. split_and!; try reflexivity.
        intros q [= <-]. by eexists.
    + simpl. intros h1 h2 x1 x2 q H1 H2 H12 Hx1 Hx2 Hr1 Hr2.
      destruct (Hin _ H1) as [-> | ->], (Hin _ H2) as [-> | ->]; try done;
        injection Hx1 as <-; injection Hx2 as <-; discriminate.
    + intros q [=].
    + simpl. intros q [= <-]. split; [by eexists|].
      intros h x Hh Hx Hr. destruct (Hin _ Hh) as [-> | ->];
        injection Hx as <-; simpl; discriminate.
    + intros q [=].
    + exists w'. split_and!.
      * exact H1.
      * exact Hp.
      * rewrite (Hd 11%positive (KmodModule 1 None (Some 6%positive) [] 2 false));
          [reflexivity| |reflexivity].
        simpl. apply elem_of_cons. by left.
      * rewrite (Hd 12%positive (KmodModule 1 None (Some 7%positive) [] 1 false));
          [reflexivity| |reflexivity].
        simpl. apply elem_of_cons. right. by apply list_elem_of_singleton.
      * apply Hown. by right.
      * rewrite Hkept; [reflexivity|discriminate|discriminate|].
        intros h x Hh Hx Hr. destruct (Hin _ Hh) as [-> | ->];
          injection Hx as <-; simpl; discriminate.
      * apply (Hfreed 12%positive (KmodModule 1 None (Some 7%positive) [] 1 false));
          [|reflexivity|reflexivity|reflexivity].
        simpl. apply elem_of_cons. right. by apply list_elem_of_singleton.
      * apply Hctx. reflexivity.
Defined.

(** X9.  The list [kmod_module_get_dependency] returns is the handle's own:
    the call changes nothing and raises no count.  A handle taken from an
    entry of that list with [kmod_module_get_module] has its count raised
    by one, and then outlives the handle it was a dependency of: after the
    last release of that handle it is still live, with the count it had
    before it was taken, while each other dependency has lost one
    reference if it was shared and has been destroyed if the list held it
    alone.  The handle released does not depend on itself, and no string
    serves as the name of two of the handles involved. *)
Theorem dependency_taken_outlives_parent (w : world) (p : ptr) (m : kmod_module)
  (i : nat) (d : ptr) (dm : kmod_module) :
  mods w !! p = Some m → mod_refcount m = 1 →
  NoDup (mod_dep m) → (p ∉ mod_dep m) →
  mod_dep m !! i = Some d → mods w !! d = Some dm →
  1 ≤ mod_refcount dm < INT_MAX →
  (∀ h, h ∈ mod_dep m → h ≠ d →
     ∃ x, mods w !! h = Some x ∧ (dep_shared x ∨ dep_alone (mod_ctx m) w x)) →
  names_apart w (filter (λ h, h ≠ d) (mod_dep m)) →
  (∀ q, mod_path m = Some q →
     is_Some (strs w !! q) ∧ not_a_name w (filter (λ h, h ≠ d) (mod_dep m)) q) →
  (∀ q, mod_name m = Some q →
     is_Some (strs w !! q) ∧ not_a_name w (filter (λ h, h ≠ d) (mod_dep m)) q) →
  (∀ q, mod_path m = Some q → mod_name m ≠ Some q) →
  kmod_module_get_dependency p w = Ok (mod_dep m) w ∧
  ∃ w1 w2,
    kmod_module_get_module (mod_dep m !! i) w = Ok (Some d) w1 ∧
    mods w1 !! d = Some (set_refcount (mod_refcount dm + 1) dm) ∧
    kmod_module_unref (Some p) w1 = Ok None w2 ∧
    mods w2 !! p = None ∧ mods w2 !! d = Some dm ∧
    (∀ h x, h ∈ mod_dep m → h ≠ d → mods w !! h = Some x →
       mods w2 !! h = if decide (mod_refcount x = 1) then None
                      else Some (set_refcount (mod_refcount x - 1) x)).
Proof.
  intros Hm Hr Hnd Hpd Hi Hd Hrd Hoth Hnames Hp Hn Hpn.
  split.
  { unfold kmod_module_get_dependency.
    by rewrite (bind_Ok _ _ _ _ _ (load_mod_Ok _ _ _ Hm)). }
  assert (Hin : d ∈ mod_dep m) by (by eapply list_elem_of_lookup_2).
  assert (Hne : p ≠ d) by (by intros ->).
  set (w1 := set_mods <[d := set_refcount (mod_refcount dm + 1) dm]> w).
  assert (Hm1 : mods w1 !! p = Some m).
  { unfold w1. simpl. by rewrite lookup_insert_ne. }
  assert (Hd1 : mods w1 !! d = Some (set_refcount (mod_refcount dm + 1) dm)).
  { unfold w1. simpl. apply lookup_insert_eq. }
  assert (Hw1 : ∀ h, h ≠ d → mods w1 !! h = mods w !! h).
  { intros h Hh. unfold w1. simpl. by rewrite lookup_insert_ne. }
  assert (Hone : ∀ h x, mods w1 !! h = Some x → mod_refcount x = 1 → h ≠ d).
  { intros h x Hx Hrx ->. rewrite Hd1 in Hx. injection Hx as <-. simpl in Hrx. lia. }
  assert (Hnot : ∀ q, not_a_name w (filter (λ h, h ≠ d) (mod_dep m)) q →
                      not_a_name w1 (mod_dep m) q).
  { intros q Hq h x Hh Hx Hrx. pose proof (Hone h x Hx Hrx) as Hhd.
    rewrite Hw1 in Hx by done. apply (Hq h x); [|done|done].
    apply list_elem_of_filter. by split. }
  destruct (unref_last_mixed w1 p m Hm1 Hr Hnd Hpd) as (w2 & Hun & Hp2 & Hd2 & _).
  { intros h Hh. destruct (decide (h = d)) as [->|Hhd].
    - eexists. split; [exact Hd1|]. left. unfold dep_shared. simpl. lia.
    - destruct (Hoth h Hh Hhd) as (x & Hx & Hk). exists x.
      rewrite Hw1 by done. done. }
  { intros h1 h2 x1 x2 q H1 H2 H12 Hx1 Hx2 Hr1 Hr2.
    pose proof (Hone h1 x1 Hx1 Hr1) as Hd1'. pose proof (Hone h2 x2 Hx2 Hr2) as Hd2'.
    rewrite Hw1 in Hx1, Hx2 by done.
    apply (Hnames h1 h2 x1 x2 q); try done; apply list_elem_of_filter; by split. }
  { intros q Hq. destruct (Hp q Hq) as [Hq1 Hq2]. split; [done|by apply Hnot]. }
  { intros q Hq. destruct (Hn q Hq) as [Hq1 Hq2]. split; [done|by apply Hnot]. }
  { done. }
  exists w1, w2. split_and!; try done.
  - rewrite Hi. unfold kmod_module_get_module.
    apply ref_result; [done|]. unfold INT_MIN. lia.
  - rewrite (Hd2 d _ Hin Hd1). simpl. rewrite decide_False by lia.
    f_equal. apply set_refcount_back. lia.
  - intros h x Hh Hhd Hx. apply Hd2; [done|]. by rewrite Hw1.
Qed.

Lemma dependency_taken_outlives_parent_witness :
  ∃ w1 w2,
    kmod_module_get_module (Some 11%positive) two_dep_world = Ok (Some 11%positive) w1 ∧
    kmod_module_unref (Some 10%positive) w1 = Ok None w2 ∧
    mods w2 !! 10%positive = None ∧
    mods w2 !! 11%positive = Some (KmodModule 1 None (Some 6%positive) [] 1 false) ∧
    mods w2 !! 12%positive = None.
Proof.
  assert (Hin : ∀ h : ptr, h ∈ [11%positive; 12%positive] → h = 11%positive ∨ h = 12%positive).
  { intros h Hh. apply elem_of_cons in Hh as [->|Hh]; [by left|].
    apply list_elem_of_singleton in Hh as ->. by right. }
  assert (Hfil : ∀ h : ptr, h ∈ filter (λ h, h ≠ 11%positive) [11%positive; 12%positive] →
                            h = 12%positive).
  { intros h Hh. apply list_elem_of_filter in Hh as [Hne Hh].
    destruct (Hin h Hh) as [->| ->]; done. }
  destruct (dependency_taken_outlives_parent two_dep_world 10
              (KmodModule 1 None (Some 5%positive) [11%positive; 12%positive] 1 true)
              0 11 (KmodModule 1 None (Some 6%positive) [] 1 false))
    as (_ & w1 & w2 & Hget & _ & Hun & Hp & Hd & Hoth).
  - reflexivity.
  - reflexivity.
  - simpl. apply NoDup_cons. split; [|apply NoDup_singleton].
    intros H. apply list_elem_of_singleton in H. discriminate.
  - simpl. intros H. destruct (Hin _ H); discriminate.
  - reflexivity.
  - reflexivity.
  - simpl. unfold INT_MAX. lia.
  - simpl. intros h Hh Hne. destruct (Hin h Hh) as [->| ->]; [done|].
    eexists. split; [reflexivity|]. right. split_and!; try reflexivity.
    intros q [= <-]. by eexists.
  - simpl mod_dep. intros h1 h2 x1 x2 q H1 H2 H12.
    apply Hfil in H1, H2. congruence.
  - intros q [=].
  - simpl. intros q [= <-]. split; [by eexists|].
    intros h x Hh. apply Hfil in Hh as ->. intros [= <-]. simpl. discriminate.
  - intros q [=].
  - exists w1, w2. split_and!; [exact Hget|exact Hun|exact Hp|exact Hd|].
    rewrite (Hoth 12%positive (KmodModule 1 None (Some 7%positive) [] 1 false)).
    + reflexivity.
    + simpl. apply elem_of_cons. right. by apply list_elem_of_singleton.
    + discriminate.
    + reflexivity.
Defined.

(** The state of the witness is the one [kmod_module_parse_dep] leaves for
    a line with two tokens. *)
Example two_dep_world_from_parse :
  match kmod_module_parse_dep 10 (cs "mod: a b" ++ [NUL]) (sample_world []) with
  | Ok (r, _) w' =>
      r = 2 ∧ mods w' = mods two_dep_world ∧ strs w' = strs two_dep_world ∧
      ctxs w' = ctxs two_dep_world
  | Crash _ => False
  end.
Proof. vm_compute. split_and!; reflexivity. Qed.

(** ** [kmod_module_remove_module] and [get_modname] *)

Lemma get_modname_named w p m q name :
  mods w !! p = Some m → mod_name m = Some q → strs w !! q = Some name →
  get_modname p w = Ok (Some name) w.
Proof.
  intros Hm Hn Hs. unfold get_modname.
  rewrite (bind_Ok _ _ _ _ _ (load_mod_Ok _ _ _ Hm)), Hn.
  unfold load_str, bind, ret. by rewrite Hs.
Qed.

Lemma remove_result (err : Z) w : (if negb (err =? 0) then ret err else ret 0) w = Ok err w.
Proof. destruct (err =? 0) eqn:E; simpl; [apply Z.eqb_eq in E; by subst|done]. Qed.

(** X10.  [kmod_module_remove_module] on a live handle.  The kernel is
    handed the flags with every bit other than the force and no-wait bits
    cleared, and what [delete_module] returns is what the call returns.
    The name handed over is the handle's name when it has one, and the
    state is then unchanged.  For a handle made from a path, without a name
    yet, the name is computed from the path by [path_to_modname] (NULL when
    the path has no final component) and is stored in the handle, so that a
    second call finds it there and allocates nothing. *)
Theorem remove_module_passes_name (force nowait : Z)
  (delete_module : option (list ascii) → Z → Z)
  (w : world) (p : ptr) (m : kmod_module) (flags : Z) :
  mods w !! p = Some m →
  (∀ q name, mod_name m = Some q → strs w !! q = Some name →
     kmod_module_remove_module force nowait delete_module (Some p) flags w
     = Ok (wrap_int (delete_module (Some name) (Z.land flags (Z.lor force nowait)))) w) ∧
  (∀ pq path, mod_name m = None → mod_path m = Some pq → strs w !! pq = Some path →
     match modname_of_path path with
     | None =>
         kmod_module_remove_module force nowait delete_module (Some p) flags w
         = Ok (wrap_int (delete_module None (Z.land flags (Z.lor force nowait)))) w
     | Some n =>
         hd false (oom w) = false →
         ∃ w',
           kmod_module_remove_module force nowait delete_module (Some p) flags w
           = Ok (wrap_int (delete_module (Some n) (Z.land flags (Z.lor force nowait)))) w' ∧
           handle_name w' p = Some n ∧
           mods w' !! p = Some (set_name (Some (fresh (dom (strs w)))) m) ∧
           ∀ flags',
             kmod_module_remove_module force nowait delete_module (Some p) flags' w'
             = Ok (wrap_int (delete_module (Some n) (Z.land flags' (Z.lor force nowait)))) w'
     end) ∧
  (∀ flags',
     Z.land flags' (Z.lor force nowait) = Z.land flags (Z.lor force nowait) →
     kmod_module_remove_module force nowait delete_module (Some p) flags' w
     = kmod_module_remove_module force nowait delete_module (Some p) flags w).
Proof.
  intros Hm.
  assert (Hnamed : ∀ w0 m0 q name fl,
    mods w0 !! p = Some m0 → mod_name m0 = Some q → strs w0 !! q = Some name →
    kmod_module_remove_module force nowait delete_module (Some p) fl w0
    = Ok (wrap_int (delete_module (Some name) (Z.land fl (Z.lor force nowait)))) w0).
  { intros w0 m0 q name fl H0 Hn Hs. unfold kmod_module_remove_module.
    rewrite (bind_Ok _ _ _ _ _ (get_modname_named _ _ _ _ _ H0 Hn Hs)).
    apply remove_result. }
  split_and!.
  - intros q name Hn Hs. by eapply Hnamed.
  - intros pq path Hn Hp Hs. unfold modname_of_path.
    destruct (fst (path_to_modname (path ++ [NUL]) 0 true)) as [n|] eqn:E.
    + intros Ho.
      set (q := fresh (dom (strs w))).
      set (w' := World (<[p := set_name (Some q) m]> (mods w)) (<[q := n]> (strs w))
                       (ctxs w) (fds w) (maps w) (drop 1 (oom w))).
      assert (Hg : get_modname p w = Ok (Some n) w').
      { unfold get_modname.
        rewrite (bind_Ok _ _ _ _ _ (load_mod_Ok _ _ _ Hm)), Hn, Hp.
        unfold load_str, bind at 1. rewrite Hs, E.
        unfold strdup, alloc_fails, bind. rewrite Ho. done. }
      assert (Hp' : mods w' !! p = Some (set_name (Some q) m)).
      { unfold w'. simpl. apply lookup_insert_eq. }
      assert (Hq' : strs w' !! q = Some n).
      { unfold w'. simpl. apply lookup_insert_eq. }
      exists w'. split_and!.
      * unfold kmod_module_remove_module. rewrite (bind_Ok _ _ _ _ _ Hg).
        apply remove_result.
      * unfold handle_name. rewrite Hp'. simpl. exact Hq'.
      * done.
      * intros flags'. by eapply Hnamed.
    + assert (Hg : get_modname p w = Ok None w).
      { unfold get_modname.
        rewrite (bind_Ok _ _ _ _ _ (load_mod_Ok _ _ _ Hm)), Hn, Hp.
        unfold load_str, bind at 1. by rewrite Hs, E. }
      unfold kmod_module_remove_module. rewrite (bind_Ok _ _ _ _ _ Hg).
      apply remove_result.
  - intros flags' Hfl. unfold kmod_module_remove_module. by rewrite Hfl.
Qed.

Lemma remove_module_passes_name_witness :
  ∃ w',
    kmod_module_remove_module 512 2048
      (λ name flags, if bool_decide (name = Some (cs "foo_bar")) then flags else - ENOENT)
      (Some 10%positive) 2563 sample_path_world
    = Ok 2560 w' ∧
    handle_name w' 10 = Some (cs "foo_bar").
Proof.
  destruct (remove_module_passes_name 512 2048
              (λ name flags, if bool_decide (name = Some (cs "foo_bar")) then flags
                             else - ENOENT)
              sample_path_world 10
              (KmodModule 1 (Some 5%positive) None [] 1 false) 2563 eq_refl)
    as (_ & H & _).
  destruct (H 5%positive (cs "/lib/modules/foo-bar.ko") eq_refl eq_refl eq_refl eq_refl)
    as (w' & Hrun & Hname & _).
  exists w'. split; [exact Hrun|exact Hname].
Defined.

(** ** [kmod_module_insert_module] on a handle without a path *)

Lemma insert_without_path env w h m flags :
  mods w !! h = Some m → mod_path m = None →
  kmod_module_insert_module env (Some h) flags w = Ok (- ENOSYS) w.
Proof.
  intros Hm Hp. unfold kmod_module_insert_module.
  by rewrite (bind_Ok _ _ _ _ _ (load_mod_Ok _ _ _ Hm)), Hp.
Qed.

(** X11.  A handle made by name cannot be inserted.  Whatever the system
    would answer and whatever the flags, [kmod_module_insert_module] on the
    handle that [kmod_module_new_from_name] returned gives [-ENOSYS]
    without opening or mapping anything, and the state is unchanged.  The
    same holds for the handle [kmod_module_new_from_path] returns when its
    [strdup] failed, as that handle has no path either.  The flags make no
    difference to any call. *)
Theorem insert_needs_path (env : insert_env) (stat : list ascii → option Z)
  (w : world) (c : ptr) (s : list ascii) (flags : Z) :
  hd false (oom w) = false →
  (∃ h w1,
     kmod_module_new_from_name (Some c) (Some s) w = Ok (0, Some h) w1 ∧
     kmod_module_insert_module env (Some h) flags w1 = Ok (- ENOSYS) w1) ∧
  (stat s = None → hd false (drop 1 (oom w)) = true →
   ∃ h w1,
     kmod_module_new_from_path stat (Some c) (Some s) w = Ok (0, Some h) w1 ∧
     kmod_module_insert_module env (Some h) flags w1 = Ok (- ENOSYS) w1) ∧
  (∀ md flags',
     kmod_module_insert_module env md flags' w = kmod_module_insert_module env md flags w).
Proof.
  intros Ho. split_and!.
  - rewrite new_from_name_world, Ho.
    destruct (hd false (drop 1 (oom w))); eexists _, _; (split; [done|]);
      eapply insert_without_path; simpl; try apply lookup_insert_eq; done.
  - intros Hs Ho2. rewrite new_from_path_world, Hs, Ho, Ho2.
    eexists _, _. split; [done|].
    eapply insert_without_path; simpl; try apply lookup_insert_eq; done.
  - done.
Qed.

Lemma insert_needs_path_witness :
  ∃ h w1,
    kmod_module_new_from_name (Some 1%positive) (Some (cs "snd")) (sample_world [])
    = Ok (0, Some h) w1 ∧
    kmod_module_insert_module refusing_kernel (Some h) 0 w1 = Ok (- ENOSYS) w1.
Proof.
  exact (proj1 (insert_needs_path refusing_kernel (λ _, None) (sample_world []) 1
                  (cs "snd") 0 eq_refl)).
Defined.

(** ** [kmod_module_initstate_str] on what [kmod_module_get_initstate] reports *)

Lemma initstate_str_None_iff r : kmod_module_initstate_str r = None ↔ r < 0 ∨ 3 < r.
Proof.
  unfold kmod_module_initstate_str, initstate_code.
  destruct (Z.eqb_spec r 0), (Z.eqb_spec r 1), (Z.eqb_spec r 2), (Z.eqb_spec r 3);
    split; intros; try done; lia.
Qed.

(** X12.  The two functions agree on the states.  Whatever
    [kmod_module_get_initstate] returns for a live handle with a name is
    either negative, and then [kmod_module_initstate_str] has no name for
    it, or one of the four state codes, and then
    [kmod_module_initstate_str] names it.  When the handle's [initstate]
    file (the path the call builds from the handle's name) could not be
    opened, that state is Builtin; when it was opened, the state is not
    Builtin and its name, followed by a line feed, is what that file
    contained.  Different codes have different names.  ([errno] is
    positive after a failed [open].) *)
Theorem initstate_str_names_report (fs : sysfs) (w : world) (p : ptr)
  (m : kmod_module) (q : ptr) (name : list ascii) (r : Z) (w' : world) :
  mods w !! p = Some m → mod_name m = Some q → strs w !! q = Some name →
  (∀ path e, fs_open fs path = Some e → 0 < e) →
  kmod_module_get_initstate fs p w = Ok r w' →
  (r < 0 ↔ kmod_module_initstate_str r = None) ∧
  (0 ≤ r →
   ∃ s, kmod_module_initstate_str r = Some s ∧
        match fs_open fs (snd (sysfs_path name "/initstate")) with
        | Some _ => r = initstate_code KMOD_MODULE_BUILTIN
        | None =>
            r ≠ initstate_code KMOD_MODULE_BUILTIN ∧
            cstr (snd (fs_read_str fs (snd (sysfs_path name "/initstate")))) = s ++ [LF]
        end) ∧
  (∀ r', kmod_module_initstate_str r' = kmod_module_initstate_str r → 0 ≤ r → r' = r).
Proof.
  intros Hm Hn Hs Hpos H.
  assert (Hcases : r < 0 ∨
    (r = 0 ∧ is_Some (fs_open fs (snd (sysfs_path name "/initstate")))) ∨
    ∃ s, r ∈ [1; 2; 3] ∧ kmod_module_initstate_str r = Some s ∧
         fs_open fs (snd (sysfs_path name "/initstate")) = None ∧
         cstr (snd (fs_read_str fs (snd (sysfs_path name "/initstate")))) = s ++ [LF]).
  { unfold kmod_module_get_initstate in H.
    rewrite (bind_Ok _ _ _ _ _ (load_mod_Ok _ _ _ Hm)) in H.
    unfold name_arg in H. rewrite Hn in H. unfold load_str, bind at 1 in H.
    rewrite Hs in H.
    destruct (sysfs_path name "/initstate") as [pathlen path]. cbn [snd].
    destruct (fs_open fs path) as [e|] eqn:Eo.
    - specialize (Hpos _ _ Eo).
      destruct (_ <? _)%nat; [destruct (_ <=? _)%nat; [done|]|].
      + destruct (fs_stat fs _) as [[|]|]; injection H as <- _;
          [right; left; split; [done|by eexists]|left; lia|left; lia].
      + injection H as <- _. left. lia.
    - destruct (fs_read_str fs path) as [err buf] eqn:Er.
      rewrite sys_open_close in H. cbn [snd].
      destruct (err <? 0) eqn:E; [injection H as <- _; left; by apply Z.ltb_lt|].
      repeat case_bool_decide; injection H as <- _.
      + right. right. exists (cs "live"). split_and!; try done. set_solver.
      + right. right. exists (cs "coming"). split_and!; try done. set_solver.
      + right. right. exists (cs "going"). split_and!; try done. set_solver.
      + left. done. }
  assert (Hin3 : ∀ x : Z, x ∈ [1; 2; 3] → 1 ≤ x ≤ 3).
  { intros x Hx. repeat (apply elem_of_cons in Hx as [->|Hx]; [lia|]).
    by apply elem_of_nil in Hx. }
  split_and!.
  - rewrite initstate_str_None_iff.
    destruct Hcases as [?|[[-> _]|(s & Hr & _)]]; [split; [by left|done]|..].
    + split; [lia|]. intros [|]; lia.
    + apply Hin3 in Hr. split; [lia|]. intros [|]; lia.
  - intros Hr. destruct Hcases as [?|[[-> [e He]]|(s & Hin & Hs' & Ho & Hc)]]; [lia|..].
    + exists (cs "builtin"). split; [done|]. by rewrite He.
    + exists s. split; [done|]. rewrite Ho. split; [|done].
      apply Hin3 in Hin. simpl. lia.
  - intros r' Heq Hr.
    assert (Hr3 : 0 ≤ r ≤ 3).
    { destruct Hcases as [?|[[-> _]|(s & Hin & _)]]; [lia|lia|].
      apply Hin3 in Hin. lia. }
    revert Heq. unfold kmod_module_initstate_str, initstate_code.
    destruct (Z.eqb_spec r' 0), (Z.eqb_spec r' 1), (Z.eqb_spec r' 2), (Z.eqb_spec r' 3),
      (Z.eqb_spec r 0), (Z.eqb_spec r 1), (Z.eqb_spec r 2), (Z.eqb_spec r 3);
      intros; try done; try lia.
Qed.

Lemma initstate_str_names_report_witness :
  ∃ s, kmod_module_initstate_str 1 = Some s ∧
       match fs_open mod_live_fs (snd (sysfs_path (cs "mod") "/initstate")) with
       | Some _ => 1 = initstate_code KMOD_MODULE_BUILTIN
       | None =>
           1 ≠ initstate_code KMOD_MODULE_BUILTIN ∧
           cstr (snd (fs_read_str mod_live_fs (snd (sysfs_path (cs "mod") "/initstate"))))
           = s ++ [LF]
       end.
Proof.
  destruct (initstate_str_names_report mod_live_fs (sample_world []) 10
              (KmodModule 1 None (Some 5%positive) [] 1 false) 5 (cs "mod")
              1 (sample_world [])) as (_ & H & _).
  - reflexivity.
  - reflexivity.
  - reflexivity.
  - intros path e. simpl. case_bool_decide; [done|]. intros [= <-]. unfold ENOENT. lia.
  - vm_compute. reflexivity.
  - apply H. done.
Defined.

(** ** [kmod_module_get_initstate] and the length of the name *)

(** X13.  The path array and long names.  For a live handle with a name,
    the only way [kmod_module_get_initstate] can go wrong is the write
    [path[pathlen - 10] = 0] of the builtin check, which uses the length
    [snprintf] returned, not the length of what fits the array.  That write
    lies outside the array of [PATH_MAX] characters exactly when the
    [open] has failed and the name has [PATH_MAX - 12] characters or more;
    in every other case the call returns. *)
Theorem initstate_write_in_bounds (fs : sysfs) (w : world) (p : ptr) (m : kmod_module)
  (q : ptr) (name : list ascii) :
  mods w !! p = Some m → mod_name m = Some q → strs w !! q = Some name →
  (kmod_module_get_initstate fs p w = Crash OutOfBounds ↔
   (PATH_MAX ≤ length name + 12)%nat ∧
   is_Some (fs_open fs (take (PATH_MAX - 1)
                          (cs "/sys/module/" ++ name ++ cs "/initstate")))) ∧
  (∀ f, kmod_module_get_initstate fs p w = Crash f → f = OutOfBounds) ∧
  ((length name + 12 < PATH_MAX)%nat →
   ∃ r, kmod_module_get_initstate fs p w = Ok r w).
Proof.
  intros Hm Hn Hs.
  assert (Hrun : kmod_module_get_initstate fs p w
    = match fs_open fs (take (PATH_MAX - 1) (cs "/sys/module/" ++ name ++ cs "/initstate")) with
      | Some e =>
          if (PATH_MAX <=? length name + 12)%nat then Crash OutOfBounds
          else Ok (match fs_stat fs (cstr (<[(length name + 12)%nat := NUL]>
                      (take (PATH_MAX - 1) (cs "/sys/module/" ++ name ++ cs "/initstate")
                       ++ [NUL]))) with
                   | Some true => initstate_code KMOD_MODULE_BUILTIN
                   | _ => - e
                   end) w
      | None =>
          let r := fs_read_str fs (take (PATH_MAX - 1)
                                     (cs "/sys/module/" ++ name ++ cs "/initstate")) in
          Ok (if fst r <? 0 then fst r
              else if bool_decide (cstr (snd r) = cs "live" ++ [LF])
              then initstate_code KMOD_MODULE_LIVE
              else if bool_decide (cstr (snd r) = cs "coming" ++ [LF])
              then initstate_code KMOD_MODULE_COMING
              else if bool_decide (cstr (snd r) = cs "going" ++ [LF])
              then initstate_code KMOD_MODULE_GOING
              else - EINVAL) w
      end).
  { unfold kmod_module_get_initstate.
    rewrite (bind_Ok _ _ _ _ _ (load_mod_Ok _ _ _ Hm)).
    unfold name_arg. rewrite Hn. unfold load_str, bind at 1. rewrite Hs.
    unfold sysfs_path. cbn beta iota zeta.
    assert (Hl : length (cs "/sys/module/" ++ name ++ cs "/initstate")
                 = (length name + 22)%nat).
    { rewrite !length_app. simpl. lia. }
    rewrite Hl.
    destruct (fs_open fs _) as [e|].
    - replace (length (cs "/initstate") <? length name + 22)%nat with true
        by (symmetry; apply Nat.ltb_lt; simpl; lia).
      replace (length name + 22 - length (cs "/initstate"))%nat
        with (length name + 12)%nat by (simpl; lia).
      destruct (_ <=? _)%nat; [done|].
      by destruct (fs_stat fs _) as [[|]|].
    - destruct (fs_read_str fs _) as [err buf]. rewrite sys_open_close. cbn [fst snd].
      destruct (err <? 0); [done|]. by repeat case_bool_decide. }
  rewrite Hrun. clear Hrun.
  destruct (fs_open fs _) as [e|].
  - destruct (Nat.leb_spec PATH_MAX (length name + 12)) as [Hle|Hlt].
    + split_and!.
      * split; [intros _; split; [done|by eexists]|done].
      * by intros f [= <-].
      * lia.
    + split_and!.
      * split; [done|]. intros [? _]. lia.
      * done.
      * intros _. by eexists.
  - split_and!.
    + split; [done|]. by intros [_ [? ?]].
    + done.
    + intros _. by eexists.
Qed.

Lemma initstate_write_in_bounds_witness :
  kmod_module_get_initstate eacces_fs 10 long_name_world = Crash OutOfBounds ∧
  ∃ r, kmod_module_get_initstate eacces_fs 10 (sample_world []) = Ok r (sample_world []).
Proof.
  split.
  - destruct (initstate_write_in_bounds eacces_fs long_name_world 10
                (KmodModule 1 None (Some 5%positive) [] 1 false) 5
                (replicate (PATH_MAX - 12) "a"%char) eq_refl eq_refl eq_refl)
      as (H & _).
    apply H. split; [rewrite length_replicate; unfold PATH_MAX; lia|].
    by exists EACCES.
  - destruct (initstate_write_in_bounds eacces_fs (sample_world []) 10
                (KmodModule 1 None (Some 5%positive) [] 1 false) 5 (cs "mod")
                eq_refl eq_refl eq_refl) as (_ & _ & H).
    apply H. unfold PATH_MAX. simpl. lia.
Defined.

(** ** [kmod_module_get_refcnt] *)

Lemma wrap_int_range z : INT_MIN ≤ wrap_int z ≤ INT_MAX.
Proof.
  unfold wrap_int, INT_MIN, INT_MAX.
  pose proof (Z.mod_pos_bound (z - -2147483648) 4294967296 ltac:(lia)). lia.
Qed.

Lemma wrap_int_congruent z : (wrap_int z - z) mod 4294967296 = 0.
Proof.
  unfold wrap_int, INT_MIN.
  rewrite (Z.mod_eq (z - -2147483648) 4294967296) by lia.
  replace (z - -2147483648 - 4294967296 * ((z - -2147483648) / 4294967296)
           + -2147483648 - z)
    with ((- ((z - -2147483648) / 4294967296)) * 4294967296) by lia.
  apply Z.mod_mul. lia.
Qed.

(** X14.  [kmod_module_get_refcnt] on a live handle with a name always
    returns, and leaves the state as it was: the descriptor it opens is
    closed again whether the read succeeds or not.  The result is the
    negated [errno] when [/sys/module/<name>/refcnt] cannot be opened, the
    error of the read when that is negative, and else the number read,
    converted to [int]: the number itself when it fits, and in any case a
    value of the [int] range that differs from it by a multiple of 2^32. *)
Theorem refcnt_report (fs : sysfs) (read_long : list ascii → Z * Z)
  (w : world) (p : ptr) (m : kmod_module) (q : ptr) (name : list ascii) :
  mods w !! p = Some m → mod_name m = Some q → strs w !! q = Some name →
  ∃ r,
    kmod_module_get_refcnt fs read_long p w = Ok r w ∧
    match fs_open fs (take (PATH_MAX - 1) (cs "/sys/module/" ++ name ++ cs "/refcnt")) with
    | Some e => r = - e
    | None =>
        let res := read_long (take (PATH_MAX - 1)
                                (cs "/sys/module/" ++ name ++ cs "/refcnt")) in
        if fst res <? 0 then r = fst res
        else INT_MIN ≤ r ≤ INT_MAX ∧ (r - snd res) mod 4294967296 = 0 ∧
             (INT_MIN ≤ snd res ≤ INT_MAX → r = snd res)
    end.
Proof.
  intros Hm Hn Hs. unfold kmod_module_get_refcnt.
  rewrite (bind_Ok _ _ _ _ _ (load_mod_Ok _ _ _ Hm)).
  unfold name_arg. rewrite Hn. unfold load_str, bind at 1. rewrite Hs.
  unfold sysfs_path. cbn [snd].
  destruct (fs_open fs _) as [e|]; [by eexists|].
  destruct (read_long _) as [err v]. rewrite sys_open_close. cbn [fst snd].
  destruct (err <? 0); [by eexists|].
  eexists. split; [done|].
  split; [apply wrap_int_range|split; [apply wrap_int_congruent|apply wrap_int_id]].
Qed.

Lemma refcnt_report_witness :
  kmod_module_get_refcnt live_fs (λ _, (0, 3)) 10 (sample_world [])
  = Ok 3 (sample_world []).
Proof.
  destruct (refcnt_report live_fs (λ _, (0, 3)) (sample_world []) 10
              (KmodModule 1 None (Some 5%positive) [] 1 false) 5 (cs "mod")
              eq_refl eq_refl eq_refl) as (r & Hrun & Hr).
  simpl in Hr. destruct Hr as (_ & _ & Hr).
  rewrite Hrun. f_equal. apply Hr. unfold INT_MIN, INT_MAX. lia.
Defined.

(** ** [kmod_module_get_holders] under every allocation outcome *)

Lemma made_by_loop_refl c w : made_by_loop c w [] w.
Proof.
  unfold made_by_loop. split_and!; try done.
  - constructor.
  - intros h Hh. by apply elem_of_nil in Hh.
  - intros q Hn [s Hs]. congruence.
  - simpl. lia.
Qed.

Lemma made_by_loop_same c w l w1 w2 :
  made_by_loop c w l w1 →
  mods w2 = mods w1 → strs w2 = strs w1 → ctxs w2 = ctxs w1 →
  fds w2 = fds w1 → maps w2 = maps w1 →
  made_by_loop c w l w2.
Proof.
  unfold made_by_loop, ctx_count. intros H Hm Hs Hc Hf Hmp.
  by rewrite Hm, Hs, Hc, Hf, Hmp.
Qed.

Lemma made_by_loop_snoc c w l w1 w2 h nm :
  made_by_loop c w l w1 →
  mods w1 !! h = None →
  mods w2 = <[h := KmodModule c None nm [] 1 false]> (mods w1) →
  (nm = None ∧ strs w2 = strs w1 ∨
   ∃ q s, nm = Some q ∧ strs w1 !! q = None ∧ strs w2 = <[q := s]> (strs w1)) →
  ctxs w2 = <[c := ctx_count w1 c + 1]> (ctxs w1) →
  fds w2 = fds w1 → maps w2 = maps w1 →
  made_by_loop c w (l ++ [h]) w2.
Proof.
  intros (Hnd & Hin & Hout & Hold & Hnew & Hcnt & Hcx & Hf & Hmp) Hh Hm Hs Hc Hf2 Hmp2.
  assert (Hhl : h ∉ l).
  { intros Hhl. destruct (Hin h Hhl) as (_ & nm' & Hl & _). congruence. }
  assert (Hstr : ∀ q s, strs w1 !! q = Some s → strs w2 !! q = Some s).
  { intros q s Hq. destruct Hs as [[_ ->]|(q' & s' & _ & Hq' & ->)]; [done|].
    rewrite lookup_insert_ne; [done|]. intros ->. congruence. }
  unfold made_by_loop. split_and!.
  - apply NoDup_app. split_and!; [done| |apply NoDup_singleton].
    intros x Hx Hx'. apply list_elem_of_singleton in Hx'. by subst.
  - intros h' Hh'. apply elem_of_app in Hh' as [Hh'|Hh'].
    + destruct (Hin h' Hh') as (Hw & nm' & Hl & Hq). split; [done|].
      exists nm'. split.
      * rewrite Hm, lookup_insert_ne; [done|]. by intros ->.
      * intros q ->. destruct (Hq q eq_refl) as [Hqw [s Hqs]].
        split; [done|]. exists s. by apply Hstr.
    + apply list_elem_of_singleton in Hh' as ->.
      split; [by rewrite <- Hout|].
      exists nm. split; [by rewrite Hm, lookup_insert_eq|].
      intros q ->. destruct Hs as [[? _]|(q' & s' & [= <-] & Hq' & ->)]; [done|].
      split; [|by rewrite lookup_insert_eq].
      destruct (strs w !! q) as [s|] eqn:E; [|done].
      apply Hold in E. congruence.
  - intros h' Hh'. apply not_elem_of_app in Hh' as [Hh' Hne].
    rewrite Hm, lookup_insert_ne, Hout; [done|done|].
    intros ->. apply Hne. by apply list_elem_of_singleton.
  - intros q s Hq. by apply Hstr, Hold.
  - intros q Hq Hq2.
    destruct (strs w1 !! q) as [s|] eqn:E.
    + destruct (Hnew q Hq ltac:(by eexists)) as (h' & Hh' & Hn').
      exists h'. split; [apply elem_of_app; by left|].
      rewrite Hm, lookup_insert_ne; [done|]. by intros ->.
    + destruct Hs as [[_ Hs]|(q' & s' & -> & Hq' & Hs)].
      * rewrite Hs, E in Hq2. by destruct Hq2.
      * destruct (decide (q = q')) as [->|Hne].
        -- exists h. split; [apply elem_of_app; right; by apply list_elem_of_singleton|].
           by rewrite Hm, lookup_insert_eq.
        -- rewrite Hs, lookup_insert_ne, E in Hq2 by done. by destruct Hq2.
  - unfold ctx_count at 1. rewrite Hc, lookup_insert_eq. simpl.
    rewrite Hcnt, length_app. simpl. lia.
  - intros c' Hne. by rewrite Hc, lookup_insert_ne, Hcx.
  - congruence.
  - congruence.
Qed.

Lemma made_by_loop_count c w l w1 :
  0 < ctx_count w c → made_by_loop c w l w1 → 0 < ctx_count w1 c.
Proof. intros H (_ & _ & _ & _ & _ & Hc & _). lia. Qed.

Lemma holders_loop_made c w entries :
  0 < ctx_count w c →
  ∀ lst w1, made_by_loop c w lst w1 →
  ∃ l' w',
    holders_loop c entries lst w1 = Ok l' w' ∧
    made_by_loop c w l' w' ∧
    (length l' ≤ length lst + length (real_entries entries))%nat.
Proof.
  intros Hpos. induction entries as [|e entries IH]; intros lst w1 Hinv.
  - exists lst, w1. simpl. split_and!; [done|done|lia].
  - cbn [holders_loop]. rewrite real_entries_cons.
    destruct (is_dot_entry e); [by apply IH|]. cbn [length].
    pose proof (new_from_name_world w1 c e) as Hnew.
    pose proof (made_by_loop_count _ _ _ _ Hpos Hinv) as Hpos1.
    destruct (hd false (oom w1)).
    { rewrite (bind_Ok _ _ _ _ _ Hnew). cbn [fst snd]. change (- ENOMEM <? 0) with true. cbn iota.
      destruct (IH lst (set_oom (drop 1) w1)) as (l' & w' & Hl & Hi & Hlen).
      { by apply (made_by_loop_same c w lst w1). }
      exists l', w'. split_and!; [done|done|lia]. }
    set (h := fresh (dom (mods w1))).
    set (nm := if hd false (drop 1 (oom w1)) then None
               else Some (fresh (dom (strs w1)))).
    set (w2 := World (<[h := KmodModule c None nm [] 1 false]> (mods w1))
                     (if hd false (drop 1 (oom w1)) then strs w1
                      else <[fresh (dom (strs w1)) := e]> (strs w1))
                     (<[c := ctx_count w1 c + 1]> (ctxs w1)) (fds w1) (maps w1)
                     (drop 2 (oom w1))).
    assert (Hrun : (if hd false (drop 1 (oom w1))
                    then Ok (0, Some h)
                           (World (<[h := KmodModule c None None [] 1 false]> (mods w1))
                              (strs w1) (<[c := ctx_count w1 c + 1]> (ctxs w1))
                              (fds w1) (maps w1) (drop 2 (oom w1)))
                    else Ok (0, Some h) (add_handle c e w1))
                   = Ok (0, Some h) w2).
    { unfold w2, nm, add_handle. by destruct (hd false (drop 1 (oom w1))). }
    rewrite (bind_Ok _ _ _ _ _ (eq_trans Hnew Hrun)). clear Hnew Hrun.
    cbn [fst snd Z.ltb Z.compare].
    rewrite (bind_Ok _ _ _ _ _ (list_append_cases lst h w2)).
    assert (Hstr : nm = None ∧ strs w2 = strs w1 ∨
                   ∃ q s, nm = Some q ∧ strs w1 !! q = None ∧
                          strs w2 = <[q := s]> (strs w1)).
    { unfold nm, w2. simpl. destruct (hd false (drop 1 (oom w1))); [by left|].
      right. eexists _, _. split_and!; [done|apply fresh_str_None|done]. }
    destruct (hd false (oom w2)).
    + (* the list node cannot be allocated: the holder is released *)
      destruct (release_of_fresh_handle w1 (set_oom (drop 1) w2) h c None nm)
        as (w3 & Hun & Hm3 & Hs3 & Hc3 & Hf3 & Hmp3); try done.
      { apply fresh_mod_None. }
      { intros q ->. destruct Hstr as [[? _]|(q' & s & [= <-] & Hq & Hs)]; [done|].
        split_and!; [done| |done].
        change (strs (set_oom (drop 1) w2)) with (strs w2).
        by rewrite Hs, lookup_insert_eq. }
      { intros _ ->. by destruct Hstr as [[_ ?]|(? & ? & ? & _)]. }
      rewrite (bind_Ok _ _ _ _ _ Hun).
      destruct (IH lst w3) as (l' & w' & Hl & Hi & Hlen).
      { by apply (made_by_loop_same c w lst w1). }
      exists l', w'. split_and!; [done|done|lia].
    + destruct (IH (lst ++ [h]) (set_oom (drop 1) w2)) as (l' & w' & Hl & Hi & Hlen).
      { apply (made_by_loop_snoc c w lst w1 _ h nm); try done. apply fresh_mod_None. }
      exists l', w'. split_and!; [done|done|].
      rewrite length_app in Hlen. simpl in Hlen. lia.
Qed.

(** X15.  [kmod_module_get_holders] keeps its books under every allocation
    outcome.  For a live handle with a name whose [holders] directory
    opens, the call returns, whatever allocations fail on the way.  The
    handles of the list it returns are new and pairwise different, at most
    one per entry other than ["."] and [".."]; each has count 1, the context
    of the handle asked about, and a name that is NULL or a new string.
    Nothing else has been made or changed: every other handle and every
    string that existed is as it was, every new string is the name of a
    handle of the list, the context has exactly one more reference per
    handle of the list, and the directory is closed again.  In particular a
    holder whose list node could not be allocated has been released
    completely. *)
Theorem holders_are_owned (fs : sysfs) (w : world) (p : ptr) (m : kmod_module)
  (q : ptr) (name : list ascii) (entries : list (list ascii)) :
  mods w !! p = Some m → mod_name m = Some q → strs w !! q = Some name →
  fs_opendir fs (snd (sysfs_path name "/holders")) = Some entries →
  0 < ctx_count w (mod_ctx m) →
  ∃ l w',
    kmod_module_get_holders fs (Some p) w = Ok l w' ∧
    (length l ≤ length (real_entries entries))%nat ∧
    NoDup l ∧
    (∀ h, h ∈ l →
       mods w !! h = None ∧
       ∃ nm, mods w' !! h = Some (KmodModule (mod_ctx m) None nm [] 1 false) ∧
             ∀ q, nm = Some q → strs w !! q = None ∧ is_Some (strs w' !! q)) ∧
    (∀ h, h ∉ l → mods w' !! h = mods w !! h) ∧
    (∀ q s, strs w !! q = Some s → strs w' !! q = Some s) ∧
    (∀ q, strs w !! q = None → is_Some (strs w' !! q) →
       ∃ h, h ∈ l ∧ mod_name <$> mods w' !! h = Some (Some q)) ∧
    ctx_count w' (mod_ctx m) = ctx_count w (mod_ctx m) + Z.of_nat (length l) ∧
    (∀ c', c' ≠ mod_ctx m → ctxs w' !! c' = ctxs w !! c') ∧
    fds w' = fds w ∧ maps w' = maps w.
Proof.
  intros Hm Hn Hs Hd Hpos. unfold kmod_module_get_holders.
  rewrite (bind_Ok _ _ _ _ _ (load_mod_Ok _ _ _ Hm)).
  unfold name_arg. rewrite Hn. unfold load_str, bind at 1. rewrite Hs, Hd.
  unfold sys_open, bind at 1.
  set (w1 := set_fds _ w).
  destruct (holders_loop_made (mod_ctx m) w1 entries Hpos [] w1 (made_by_loop_refl _ _))
    as (l & w' & Hloop & Hinv & Hlen).
  rewrite (bind_Ok _ _ _ _ _ Hloop). unfold sys_close, modify, bind, ret.
  destruct Hinv as (Hnd & Hin & Hout & Hold & Hnew & Hcnt & Hcx & Hf & Hmp).
  eexists _, _. split; [done|]. simpl. split_and!; try done.
  rewrite Hf. unfold w1. simpl. apply open_close_fds.
Qed.

Lemma holders_are_owned_witness :
  ∃ l w',
    kmod_module_get_holders sample_sections_fs (Some 10%positive)
      (sample_world [false; false; true]) = Ok l w' ∧
    (length l ≤ length (real_entries three_entries))%nat ∧
    ctx_count w' 1 = ctx_count (sample_world [false; false; true]) 1 + Z.of_nat (length l) ∧
    fds w' = ∅.
Proof.
  destruct (holders_are_owned sample_sections_fs (sample_world [false; false; true]) 10
              (KmodModule 1 None (Some 5%positive) [] 1 false) 5 (cs "mod") three_entries)
    as (l & w' & Hrun & Hlen & _ & _ & _ & _ & _ & Hc & _ & Hf & _).
  - reflexivity.
  - reflexivity.
  - reflexivity.
  - reflexivity.
  - reflexivity.
  - exists l, w'. split_and!; [exact Hrun|exact Hlen|exact Hc|exact Hf].
Defined.

(** The run of the witness: the node for the first entry cannot be
    allocated, its handle is released again, and the two other entries
    are listed. *)
Example holders_after_failed_node :
  match kmod_module_get_holders sample_sections_fs (Some 10%positive)
          (sample_world [false; false; true]) with
  | Ok l w' =>
      map (handle_name w') l = [Some (cs ".data"); Some (cs ".bss")] ∧
      size (mods w') = 3%nat ∧ size (strs w') = 3%nat ∧ ctx_count w' 1 = 4
  | Crash _ => False
  end.
Proof. vm_compute. split_and!; reflexivity. Qed.

(** ** [kmod_module_get_sections] under every allocation outcome *)

Lemma sections_step fs dname e rest lst w err addr :
  is_dot_entry e = false → fs_section fs dname e = SectionOpened err addr →
  sections_loop fs dname (e :: rest) lst w
  = if err <? 0 then sections_loop fs dname rest lst w
    else if hd false (oom w) then Crash NullDeref
    else sections_loop fs dname rest
           (if hd false (drop 1 (oom w)) then lst else lst ++ [KmodSection addr e])
           (set_oom (drop 2) w).
Proof.
  intros Hdot Hsec. cbn [sections_loop]. rewrite Hdot, Hsec.
  destruct (err <? 0); [by rewrite sys_open_close|].
  unfold sys_open, bind at 1. unfold malloc_section, alloc_fails, bind at 1 2.
  cbn [oom set_fds]. destruct (hd false (oom w)); [done|].
  unfold ret at 1. rewrite (bind_Ok _ _ _ _ _ (list_append_cases _ _ _)).
  unfold sys_close, modify, bind.
  assert (Hw : set_fds (λ s : gset ptr, s ∖ {[fresh (fds w)]})
                 (set_oom (drop 1) (set_oom (drop 1)
                    (set_fds (λ s : gset ptr, {[fresh (fds w)]} ∪ s) w)))
               = set_oom (drop 2) w).
  { unfold set_fds, set_oom. simpl. by rewrite open_close_fds, drop_drop. }
  rewrite Hw. cbn [oom set_oom set_fds].
  by destruct (hd false (drop 1 (oom w))).
Qed.

Lemma elem_of_drop_inv {A} (x : A) n l : x ∈ drop n l → x ∈ l.
Proof. intros H. rewrite <- (take_drop n l). apply elem_of_app. by right. Qed.

Lemma hd_true_elem_of (l : list bool) : hd false l = true → true ∈ l.
Proof. destruct l as [|[] l]; [done| |done]. intros _. by left. Qed.

Lemma hd_not_elem_of (l : list bool) : true ∉ l → hd false l = false.
Proof. destruct l as [|[] l]; [done| |done]. intros H. destruct H. by left. Qed.

Lemma sections_loop_outcomes fs dname entries : ∀ lst w,
  match sections_loop fs dname entries lst w with
  | Ok l w' =>
      (∃ new, l = lst ++ new ∧
              new `sublist_of` omap (section_of fs dname) entries ∧
              (true ∉ oom w → new = omap (section_of fs dname) entries)) ∧
      mods w' = mods w ∧ strs w' = strs w ∧ ctxs w' = ctxs w ∧
      fds w' = fds w ∧ maps w' = maps w
  | Crash f => f = NullDeref ∧ true ∈ oom w
  end.
Proof.
  induction entries as [|e entries IH]; intros lst w.
  - simpl. split_and!; try done. exists []. by rewrite app_nil_r.
  - cbn [omap list_omap].
    destruct (is_dot_entry e) eqn:Hdot.
    { assert (Eso : section_of fs dname e = None) by (unfold section_of; by rewrite Hdot).
      rewrite Eso. cbn [sections_loop]. rewrite Hdot. apply IH. }
    destruct (fs_section fs dname e) as [eno|err addr] eqn:Hsec.
    { assert (Eso : section_of fs dname e = None)
        by (unfold section_of; by rewrite Hdot, Hsec).
      rewrite Eso. cbn [sections_loop]. rewrite Hdot, Hsec. apply IH. }
    rewrite (sections_step _ _ _ _ _ _ _ _ Hdot Hsec).
    assert (Eso : section_of fs dname e
                  = if err <? 0 then None else Some (KmodSection addr e))
      by (unfold section_of; by rewrite Hdot, Hsec).
    rewrite Eso. clear Eso.
    destruct (err <? 0); [apply IH|].
    destruct (hd false (oom w)) eqn:Ho1; [split; [done|by apply hd_true_elem_of]|].
    specialize (IH (if hd false (drop 1 (oom w)) then lst else lst ++ [KmodSection addr e])
                   (set_oom (drop 2) w)).
    destruct (sections_loop _ _ _ _ _) as [l w'|f].
    + destruct IH as ((new & -> & Hsub & Hfull) & Hrest). split; [|done].
      destruct (hd false (drop 1 (oom w))) eqn:Ho2.
      * exists new. split_and!; [done|by apply sublist_cons|].
        intros Hno. exfalso. apply Hno. eapply elem_of_drop_inv.
        by apply hd_true_elem_of.
      * exists (KmodSection addr e :: new). split_and!.
        -- by rewrite <- app_assoc.
        -- by apply sublist_skip.
        -- intros Hno. f_equal. apply Hfull. simpl. intros Hin.
           apply Hno. by eapply elem_of_drop_inv.
    + destruct IH as [-> Hin]. split; [done|]. simpl in Hin.
      by eapply elem_of_drop_inv.
Qed.

(** The outcomes of the enumeration of sections; stated on its own as it
    serves again for the accessors. *)
Lemma get_sections_cases (fs : sysfs) (w : world) (p : ptr) (m : kmod_module)
  (q : ptr) (name : list ascii) (entries : list (list ascii)) :
  mods w !! p = Some m → mod_name m = Some q → strs w !! q = Some name →
  fs_opendir fs (snd (sysfs_path name "/sections")) = Some entries →
  match kmod_module_get_sections fs (Some p) w with
  | Ok l w' =>
      l `sublist_of` omap (section_of fs (snd (sysfs_path name "/sections"))) entries ∧
      (true ∉ oom w →
       l = omap (section_of fs (snd (sysfs_path name "/sections"))) entries) ∧
      mods w' = mods w ∧ strs w' = strs w ∧ ctxs w' = ctxs w ∧
      fds w' = fds w ∧ maps w' = maps w
  | Crash f => f = NullDeref ∧ true ∈ oom w
  end.
Proof.
  intros Hm Hn Hs Hd. unfold kmod_module_get_sections.
  rewrite (bind_Ok _ _ _ _ _ (load_mod_Ok _ _ _ Hm)).
  unfold name_arg. rewrite Hn. unfold load_str, bind at 1. rewrite Hs, Hd.
  unfold sys_open, bind at 1.
  set (w1 := set_fds _ w). set (dname := snd (sysfs_path name "/sections")).
  pose proof (sections_loop_outcomes fs dname entries [] w1) as Hloop.
  unfold bind at 1. destruct (sections_loop fs dname entries [] w1) as [l w'|f].
  - destruct Hloop as ((new & -> & Hsub & Hfull) & Hm' & Hs' & Hc' & Hf' & Hmp').
    unfold sys_close, modify, bind, ret. simpl. split_and!; try done.
    rewrite Hf'. unfold w1. simpl. apply open_close_fds.
  - done.
Qed.

(** X16.  [kmod_module_get_sections] under every allocation outcome.  For a
    live handle with a name whose [sections] directory opens: when the call
    returns, the sections it lists are among those of the entries whose
    file opens and whose contents parse, in the order of the directory
    (all of them when no allocation fails), and the state is as before:
    every descriptor opened is closed again and no handle, string or
    context reference is made.  When it does not return, it has written
    through the NULL that a failed [malloc] of a section returned (the
    result of that [malloc] is not tested), which takes an allocation that
    fails. *)
Theorem sections_outcomes (fs : sysfs) (w : world) (p : ptr) (m : kmod_module)
  (q : ptr) (name : list ascii) (entries : list (list ascii)) :
  mods w !! p = Some m → mod_name m = Some q → strs w !! q = Some name →
  fs_opendir fs (snd (sysfs_path name "/sections")) = Some entries →
  match kmod_module_get_sections fs (Some p) w with
  | Ok l w' =>
      l `sublist_of` omap (section_of fs (snd (sysfs_path name "/sections"))) entries ∧
      (true ∉ oom w →
       l = omap (section_of fs (snd (sysfs_path name "/sections"))) entries) ∧
      mods w' = mods w ∧ strs w' = strs w ∧ ctxs w' = ctxs w ∧
      fds w' = fds w ∧ maps w' = maps w
  | Crash f => f = NullDeref ∧ true ∈ oom w
  end.
Proof. apply get_sections_cases. Qed.

Lemma sections_outcomes_witness :
  match kmod_module_get_sections sample_sections_fs (Some 10%positive)
          (sample_world [false; true]) with
  | Ok l w' =>
      l `sublist_of` omap (section_of sample_sections_fs
                             (snd (sysfs_path (cs "mod") "/sections"))) three_entries ∧
      (true ∉ oom (sample_world [false; true]) →
       l = omap (section_of sample_sections_fs
                   (snd (sysfs_path (cs "mod") "/sections"))) three_entries) ∧
      mods w' = mods (sample_world [false; true]) ∧
      strs w' = strs (sample_world [false; true]) ∧
      ctxs w' = ctxs (sample_world [false; true]) ∧
      fds w' = fds (sample_world [false; true]) ∧
      maps w' = maps (sample_world [false; true])
  | Crash f => f = NullDeref ∧ true ∈ oom (sample_world [false; true])
  end.
Proof.
  exact (sections_outcomes sample_sections_fs (sample_world [false; true]) 10
           (KmodModule 1 None (Some 5%positive) [] 1 false) 5 (cs "mod")
           three_entries eq_refl eq_refl eq_refl eq_refl).
Defined.

(** Two runs: the node for [.text] cannot be allocated and the section is
    left out; the section for [.text] cannot be allocated and the call
    does not return. *)
Example sections_after_failed_allocations :
  kmod_module_get_sections sample_sections_fs (Some 10%positive)
    (sample_world [false; true])
  = Ok [KmodSection 8192 (cs ".bss")] (sample_world []) ∧
  kmod_module_get_sections sample_sections_fs (Some 10%positive) (sample_world [true])
  = Crash NullDeref.
Proof. split; vm_compute; reflexivity. Qed.

(** ** [kmod_module_new_from_lookup]: what the sources are handed, and what
    comes back *)

Lemma bind_cong {A B} (c : M A) (k k' : A → M B) w :
  (∀ a w1, k a w1 = k' a w1) → bind c k w = bind c k' w.
Proof. intros H. unfold bind. by destruct (c w). Qed.

(** X17.  Every source is called with an empty list: a source is only
    reached while the list is still empty, so the lookup is the same as
    if each source were handed an empty list outright.  Whenever the
    lookup returns after consulting sources, a negative result comes with
    an empty output list, and a list with entries comes with a result that
    is not negative.  With a NULL context or a NULL alias the lookup
    returns [-ENOENT] before anything else is looked at: no source is
    called and the output list is left as it was, empty or not. *)
Theorem lookup_sources_start_empty
  (source : lookup_source → ptr → list ascii → list ptr → M (Z * list ptr))
  (c : ptr) (a : list ascii) (w : world) :
  kmod_module_new_from_lookup source (Some c) (Some a) (Some []) w
  = kmod_module_new_from_lookup (λ s c a _, source s c a []) (Some c) (Some a) (Some []) w ∧
  (∀ err l called w',
     kmod_module_new_from_lookup source (Some c) (Some a) (Some []) w
     = Ok (err, l, called) w' →
     (err < 0 → l = []) ∧ (l ≠ [] → 0 ≤ err)) ∧
  (∀ ctx alias lst,
     ctx = None ∨ alias = None →
     kmod_module_new_from_lookup source ctx alias lst w
     = Ok (- ENOENT, default [] lst, []) w).
Proof.
  split_and!.
  - unfold kmod_module_new_from_lookup, CHECK_ERR_AND_FINISH.
    apply bind_cong. intros [e1 l1] w1. cbn [fst snd].
    destruct (e1 <? 0); [done|]. destruct l1 as [|x1 l1]; [|done]. cbn [is_nil negb].
    apply bind_cong. intros [e2 l2] w2. cbn [fst snd].
    destruct (e2 <? 0); [done|]. destruct l2 as [|x2 l2]; [|done]. cbn [is_nil negb].
    apply bind_cong. intros [e3 l3] w3. cbn [fst snd].
    destruct (e3 <? 0); [done|]. by destruct l3 as [|x3 l3].
  - intros err l called w'. unfold kmod_module_new_from_lookup, CHECK_ERR_AND_FINISH.
    intros H.
    repeat match type of H with
    | bind (source ?s c a ?x) _ ?w0 = _ =>
        let r := fresh "r" in let w1 := fresh "w" in let Hs := fresh "Hs" in
        apply bind_Ok_inv in H as (r & w1 & Hs & H)
    | (if ?b then _ else _) _ = _ => destruct b eqn:?
    | bind (kmod_module_unref_list _) _ _ = _ =>
        apply bind_Ok_inv in H as (? & ? & _ & H)
    end;
    injection H as <- <- <- <-;
    repeat match goal with
    | E : (_ <? 0) = true |- _ => apply Z.ltb_lt in E
    | E : (_ <? 0) = false |- _ => apply Z.ltb_ge in E
    | E : negb (is_nil ?l) = false |- _ => destruct l; [clear E|discriminate E]
    end;
    (split; [intros; try done; lia|intros; try done; lia]).
  - intros ctx alias lst [-> | ->]; [done|]. by destruct ctx.
Qed.

(** ** [kmod_module_parse_dep]: the failure path, retries, and the whole
    life of a dependency list *)

Lemma parse_dep_rollback_witness :
  ∃ buf' w',
    kmod_module_parse_dep 10 (cs "m: a b c/" ++ [NUL]) (sample_world [])
    = Ok (- ENOENT, buf') w' ∧
    mods w' = mods (sample_world []) ∧ strs w' = strs (sample_world []) ∧
    ctxs w' = ctxs (sample_world []).
Proof.
  destruct (parse_dep_rollback (sample_world []) 10
              (KmodModule 1 None (Some 5%positive) [] 1 false)
              (cs "m: a b c/") (cs " a b c/") [cs "a"; cs "b"] (cs "c/") [])
    as (buf' & w' & Hrun & Hm & Hs & Hc & _).
  - reflexivity.
  - reflexivity.
  - reflexivity.
  - no_nul_literal.
  - reflexivity.
  - reflexivity.
  - repeat constructor; by eexists.
  - reflexivity.
  - left. reflexivity.
  - reflexivity.
  - exists buf', w'. split_and!; [exact Hrun|exact Hm|exact Hs|exact Hc].
Defined.

Lemma parse_dep_asserts w md m line :
  mods w !! md = Some m → mod_init_dep m = true →
  kmod_module_parse_dep md line w = Crash AssertionFailed.
Proof.
  intros Hm Hi. unfold kmod_module_parse_dep.
  by rewrite (bind_Ok _ _ _ _ _ (load_mod_Ok _ _ _ Hm)), Hi.
Qed.

Lemma parse_dep_returns w md m line :
  mods w !! md = Some m → mod_init_dep m = false → mod_dep m = [] → NUL ∉ line →
  ∃ r buf' w', kmod_module_parse_dep md (line ++ [NUL]) w = Ok (r, buf') w'.
Proof.
  intros Hm Hi Hd Hn. destruct (after_colon line) as [deps|] eqn:Hac.
  - destruct (parse_dep_total w md m line deps Hm Hi Hd Hn Hac)
      as (_ & r & buf' & w' & _ & _ & Hrun & _).
    by exists r, buf', w'.
  - rewrite (parse_dep_no_colon w md m line) by done. by eexists _, _, _.
Qed.

(** X19.  Once, or again after a failure.  For a handle in the not-started
    state and any line (of a length that fits an [int]),
    [kmod_module_parse_dep] returns, whatever the allocations do, and leaves
    no descriptor or mapping behind.  When the result is not negative the
    guard is set and the handle has its dependency list, and every further
    call on the handle, whatever the line, fails the assertion at the top of
    the function.  When the result is negative the handle is exactly as it
    was before the call, so that the call can be made again, and that call
    returns as well. *)
Theorem parse_dep_once_or_retry (w : world) (md : ptr) (m : kmod_module)
  (line : list ascii) :
  mods w !! md = Some m → mod_init_dep m = false → mod_dep m = [] →
  NUL ∉ line → Z.of_nat (length line) ≤ INT_MAX →
  ∃ r buf' w',
    kmod_module_parse_dep md (line ++ [NUL]) w = Ok (r, buf') w' ∧
    fds w' = fds w ∧ maps w' = maps w ∧
    (0 ≤ r →
     (∃ lst, mods w' !! md = Some (set_dep lst (set_init_dep true m))) ∧
     ∀ line2, kmod_module_parse_dep md line2 w' = Crash AssertionFailed) ∧
    (r < 0 →
     mods w' !! md = Some m ∧
     ∀ line2, NUL ∉ line2 →
       ∃ r2 buf2 w2, kmod_module_parse_dep md (line2 ++ [NUL]) w' = Ok (r2, buf2) w2).
Proof.
  intros Hm Hi Hd Hn Hmax. destruct (after_colon line) as [deps|] eqn:Hac.
  - destruct (parse_dep_total w md m line deps Hm Hi Hd Hn Hac)
      as (subject & r & buf' & w' & x & _ & Hrun & _ & _ & Hcase & Hf & Hmp).
    exists r, buf', w'. split_and!; try done.
    + intros Hr. destruct Hcase as [(lst & Hl & _)|[? _]]; [|lia].
      split; [by exists lst|]. intros line2. by eapply parse_dep_asserts.
    + intros Hr. destruct Hcase as [(lst & _ & Hpos)|[_ Hl]]; [specialize (Hpos Hmax); lia|].
      split; [done|]. intros line2 Hn2. by eapply parse_dep_returns.
  - rewrite (parse_dep_no_colon w md m line) by done.
    eexists _, _, _. split; [done|]. split; [done|]. split; [done|]. split.
    + intros _. split.
      * exists []. simpl. rewrite lookup_insert_eq. f_equal.
        destruct m; simpl in *; by subst.
      * intros line2. eapply parse_dep_asserts; [simpl; apply lookup_insert_eq|done].
    + lia.
Qed.

Lemma parse_dep_once_or_retry_witness :
  ∃ r buf' w',
    kmod_module_parse_dep 10 (cs "m: a b" ++ [NUL]) (sample_world []) = Ok (r, buf') w' ∧
    (0 ≤ r → ∀ line2, kmod_module_parse_dep 10 line2 w' = Crash AssertionFailed).
Proof.
  destruct (parse_dep_once_or_retry (sample_world []) 10
              (KmodModule 1 None (Some 5%positive) [] 1 false) (cs "m: a b"))
    as (r & buf' & w' & Hrun & _ & _ & Hpos & _).
  - reflexivity.
  - reflexivity.
  - reflexivity.
  - no_nul_literal.
  - unfold INT_MAX. simpl. lia.
  - exists r, buf', w'. split; [exact Hrun|]. intros Hr. by apply Hpos.
Defined.

Lemma owned_insert_other c lst : ∀ qs ms ss h x,
  owned c lst qs ms ss → (h ∉ lst) → owned c lst qs (<[h := x]> ms) ss.
Proof.
  induction lst as [|h0 l IH]; intros [|q0 qs] ms ss h x Ho Hh; try done.
  destruct Ho as (Hm0 & Hs0 & Ho). apply not_elem_of_cons in Hh as [Hne Hh].
  cbn [owned]. rewrite lookup_insert_ne by done. split_and!; [done|done|].
  rewrite delete_insert_ne by done. by apply IH.
Qed.

(** The token loop when every token is turned into a handle: the handles
    made are held by the list alone. *)
Lemma parse_dep_loop_owned fuel :
  ∀ ctx pre rest tl lst qs n w,
    NUL ∉ rest → (length rest < fuel)%nat →
    Forall (λ t, is_Some (modname_of_path t)) (tokens rest) →
    allocs_ok (3 * length (tokens rest)) w →
    owned ctx lst qs (mods w) (strs w) →
    ∃ buf' lst' qs' n' w',
      parse_dep_loop fuel ctx (pre ++ rest ++ NUL :: tl) (length pre) lst n w
      = Ok (LoopDone lst' n', buf') w' ∧
      owned ctx lst' qs' (mods w') (strs w') ∧
      foldr delete (mods w') lst' = foldr delete (mods w) lst ∧
      foldr delete (strs w') qs' = foldr delete (strs w) qs ∧
      length lst' = (length lst + length (tokens rest))%nat ∧
      ctx_count w' ctx = ctx_count w ctx + Z.of_nat (length (tokens rest)) ∧
      (∀ c', c' ≠ ctx → ctxs w' !! c' = ctxs w !! c') ∧
      fds w' = fds w ∧ maps w' = maps w.
Proof.
  induction fuel as [|fuel IH];
    intros ctx pre rest tl lst qs n w Hn Hf Hcan Ha Ho; [lia|].
  cbn [parse_dep_loop].
  destruct (drop (strspn rest dep_delim) rest) as [|c r1] eqn:Er1.
  - destruct (token_none pre rest tl Hn Er1) as [Ht [s Hs]].
    rewrite Hs, Ht. simpl. eexists _, lst, qs, _, w.
    split_and!; try done; lia.
  - destruct (token_step pre rest tl Hn) as
      (tok & rest' & buf1 & save1 & pre2 & x & Ht & Hs & Hp & -> & -> & _ & _ &
       Htn & Hrn & Hlen); [by rewrite Er1|].
    rewrite Hs, Hp. rewrite Ht in Ha, Hcan |- *. cbn [length] in Ha |- *.
    apply Forall_cons in Hcan as [[name Hname] Hcan].
    rewrite modname_of_path_token in Hname by done. rewrite Hname.
    replace (3 * S (length (tokens rest')))%nat
      with (S (S (S (3 * length (tokens rest'))))) in Ha by lia.
    destruct (new_from_name_ok _ w ctx name Ha) as [Hnew Ha1].
    rewrite (bind_Ok _ _ _ _ _ Hnew). cbn [fst snd Z.ltb Z.compare].
    destruct (list_append_ok _ _ lst (fresh (dom (mods w))) Ha1) as [Happ Ha2].
    rewrite (bind_Ok _ _ _ _ _ Happ). unfold default. cbn [from_option id].
    set (w2 := set_oom (drop 1) (add_handle ctx name w)) in *.
    assert (Ho2 : owned ctx (lst ++ [fresh (dom (mods w))]) (qs ++ [fresh (dom (strs w))])
                        (mods w2) (strs w2)).
    { apply owned_snoc; [done|apply fresh_mod_None|apply fresh_str_None]. }
    destruct (IH ctx (pre ++ x) rest' tl (lst ++ [fresh (dom (mods w))])
                 (qs ++ [fresh (dom (strs w))]) (wrap_int (n + 1)) w2)
      as (buf' & lst' & qs' & n' & w' & Hloop & Howned & Hm' & Hs' & Hl' & Hc' & Hco' &
          Hf' & Hmp');
      [done|lia|done|done|exact Ho2|].
    rewrite Hloop. exists buf', lst', qs', n', w'. split_and!; try done.
    + rewrite Hm'. unfold w2. simpl. rewrite foldr_snoc. simpl.
      by rewrite delete_insert_id by apply fresh_mod_None.
    + rewrite Hs'. unfold w2. simpl. rewrite foldr_snoc. simpl.
      by rewrite delete_insert_id by apply fresh_str_None.
    + rewrite Hl', length_app. simpl. lia.
    + rewrite Hc'. unfold w2, ctx_count at 1. simpl. rewrite lookup_insert_eq. simpl. lia.
    + intros c' Hne. rewrite Hco' by done. unfold w2. simpl.
      by rewrite lookup_insert_ne.
Qed.

(** X20.  The whole life of a dependency list, when no allocation fails.
    For a handle with count 1 in the not-started state and a line with a
    colon: when every token has a non-empty final component and none of the
    allocations of the call fails, [kmod_module_parse_dep] succeeds, the
    handle holds one new handle per token and the context one more
    reference per token; and the release of the handle then takes all of
    that back: the handle and its strings are gone, and the handle heap,
    the string heap and the context counts are what a release of the handle
    before the parse would have left.  Nothing of the dependencies stays
    behind.  (A call that succeeds although a list node could not be
    allocated is outside this statement: see the example after it.) *)
Theorem parse_dep_then_release (w : world) (md : ptr) (m : kmod_module)
  (line deps : list ascii) :
  mods w !! md = Some m → mod_init_dep m = false → mod_dep m = [] →
  mod_refcount m = 1 →
  NUL ∉ line → after_colon line = Some deps →
  Forall (λ t, is_Some (modname_of_path t)) (tokens deps) →
  allocs_ok (3 * length (tokens deps)) w →
  0 < ctx_count w (mod_ctx m) →
  (∀ q, mod_path m = Some q → is_Some (strs w !! q)) →
  (∀ q, mod_name m = Some q → is_Some (strs w !! q)) →
  (∀ q, mod_path m = Some q → mod_name m ≠ Some q) →
  ∃ n buf' lst w1 w2,
    kmod_module_parse_dep md (line ++ [NUL]) w = Ok (n, buf') w1 ∧
    mods w1 !! md = Some (set_dep lst (set_init_dep true m)) ∧
    length lst = length (tokens deps) ∧
    ctx_count w1 (mod_ctx m)
    = ctx_count w (mod_ctx m) + Z.of_nat (length (tokens deps)) ∧
    kmod_module_unref (Some md) w1 = Ok None w2 ∧
    mods w2 = delete md (mods w) ∧
    strs w2 = from_option delete id (mod_name m)
                (from_option delete id (mod_path m) (strs w)) ∧
    ctx_count w2 (mod_ctx m) = ctx_count w (mod_ctx m) - 1 ∧
    (∀ c, c ≠ mod_ctx m → ctxs w2 !! c = ctxs w !! c) ∧
    fds w2 = fds w ∧ maps w2 = maps w.
Proof.
  intros Hm Hi Hd Hr Hn Hac Hcan Ha Hctx Hp Hnm Hpn. unfold kmod_module_parse_dep.
  rewrite (bind_Ok _ _ _ _ _ (load_mod_Ok _ _ _ Hm)), Hi, Hd.
  cbn [orb negb]. rewrite bool_decide_eq_true_2 by done. cbn [negb].
  unfold store_mod at 1. unfold modify, bind at 1.
  pose proof (strchr_colon line Hn) as Hc.
  destruct (strchr (line ++ [NUL]) ":"%char) as [i|]; [|congruence].
  destruct Hc as (subject & deps' & -> & -> & Hac').
  assert (deps' = deps) as -> by congruence. clear Hac'.
  set (w0 := set_mods <[md := set_init_dep true m]> w).
  assert (Hbuf : (subject ++ ":"%char :: deps) ++ [NUL]
                 = (subject ++ [":"%char]) ++ deps ++ NUL :: []).
  { by rewrite <- !app_assoc. }
  assert (Hlen : S (length subject) = length (subject ++ [":"%char])).
  { rewrite length_app. simpl. lia. }
  assert (Hdn : NUL ∉ deps).
  { intros Hin. apply Hn. apply elem_of_app. right. by constructor. }
  destruct (parse_dep_loop_owned (S (length ((subject ++ ":"%char :: deps) ++ [NUL])))
              (mod_ctx m) (subject ++ [":"%char]) deps [] [] [] 0 w0)
    as (buf' & lst & qs & n & w1 & Hloop & Ho & Hm1 & Hs1 & Hl1 & Hc1 & Hco1 & Hf1 & Hmp1);
    try done.
  { rewrite !length_app. simpl. lia. }
  rewrite <- Hbuf, <- Hlen in Hloop.
  rewrite (bind_Ok _ _ _ _ _ Hloop). cbn beta iota.
  simpl in Hm1, Hs1, Hl1.
  assert (Hmd0 : foldr delete (mods w1) lst !! md = Some (set_init_dep true m)).
  { rewrite Hm1. apply lookup_insert_eq. }
  apply lookup_foldr_delete_Some in Hmd0 as [Hmdl Hmd1].
  rewrite (bind_Ok _ _ _ _ _ (load_mod_Ok _ _ _ Hmd1)).
  unfold store_mod, modify, bind, ret.
  set (m1 := set_dep lst (set_init_dep true m)).
  set (w1' := set_mods <[md := m1]> w1).
  assert (Hmd1' : mods w1' !! md = Some m1).
  { unfold w1'. simpl. apply lookup_insert_eq. }
  assert (Hcw : ctx_count w1' (mod_ctx m)
                = ctx_count w (mod_ctx m) + Z.of_nat (length (tokens deps))).
  { change (ctx_count w1' (mod_ctx m)) with (ctx_count w1 (mod_ctx m)). by rewrite Hc1. }
  set (w1'' := set_mods <[md := set_refcount 0 m1]> w1').
  destruct (unref_list_of_owned (mod_ctx m) lst qs w1'') as
    (w3 & Hun & Hm3 & Hs3 & Hc3 & Hco3 & Hf3 & Hmp3 & _).
  { unfold w1'', w1'. simpl.
    apply owned_insert_other; [|done]. by apply owned_insert_other. }
  { change (ctx_count w1'' (mod_ctx m)) with (ctx_count w1 (mod_ctx m)). rewrite Hc1, Hl1.
    change (ctx_count w0 (mod_ctx m)) with (ctx_count w (mod_ctx m)). lia. }
  assert (Hs3' : strs w3 = strs w).
  { rewrite Hs3. unfold w1'', w1'. simpl. by rewrite Hs1. }
  destruct (unref_last_after_list w1' md m1 w3 Hmd1' Hr Hun) as
    (w2 & Hun2 & Hm2 & Hs2 & Hc2 & Hco2 & Hf2 & Hmp2 & _).
  { rewrite Hs3'. exact Hp. }
  { rewrite Hs3'. exact Hnm. }
  { exact Hpn. }
  exists n, buf', lst, w1', w2. split_and!; try done.
  - rewrite Hm2, Hm3. unfold w1'', w1'. simpl.
    rewrite !foldr_delete_insert_notin by done.
    rewrite Hm1. unfold w0. simpl. by rewrite !delete_insert_eq.
  - rewrite Hs2, Hs3'. done.
  - change (mod_ctx m1) with (mod_ctx m) in Hc2. rewrite Hc2, Hc3.
    change (ctx_count w1'' (mod_ctx m)) with (ctx_count w1 (mod_ctx m)). rewrite Hc1, Hl1.
    change (ctx_count w0 (mod_ctx m)) with (ctx_count w (mod_ctx m)). lia.
  - intros c Hne. rewrite Hco2, Hco3 by done.
    change (ctxs w1'') with (ctxs w1). by rewrite Hco1.
  - rewrite Hf2, Hf3. change (fds w1'') with (fds w1). by rewrite Hf1.
  - rewrite Hmp2, Hmp3. change (maps w1'') with (maps w1). by rewrite Hmp1.
Qed.

Lemma parse_dep_then_release_witness :
  ∃ n buf' lst w1 w2,
    kmod_module_parse_dep 10 (cs "mod: a b" ++ [NUL]) (sample_world []) = Ok (n, buf') w1 ∧
    length lst = 2%nat ∧
    mods w1 !! 10%positive
    = Some (KmodModule 1 None (Some 5%positive) lst 1 true) ∧
    kmod_module_unref (Some 10%positive) w1 = Ok None w2 ∧
    mods w2 = delete 10%positive (mods (sample_world [])).
Proof.
  destruct (parse_dep_then_release (sample_world []) 10
              (KmodModule 1 None (Some 5%positive) [] 1 false)
              (cs "mod: a b") (cs " a b"))
    as (n & buf' & lst & w1 & w2 & Hrun & Hmd & Hlen & _ & Hun & Hm2 & _).
  - reflexivity.
  - reflexivity.
  - reflexivity.
  - reflexivity.
  - no_nul_literal.
  - reflexivity.
  - repeat constructor; by eexists.
  - reflexivity.
  - reflexivity.
  - intros q [=].
  - simpl. intros q [= <-]. by eexists.
  - intros q [=].
  - exists n, buf', lst, w1, w2.
    split_and!; [exact Hrun|exact Hlen|exact Hmd|exact Hun|exact Hm2].
Defined.

(** Outside the statement above: when the node for [a] cannot be allocated
    the call on ["m: a b"] still succeeds, with the handle of [b] alone in
    the list, and the release of the handle leaves the handle of [a], its
    name and its context reference behind. *)
Example release_after_failed_node :
  match kmod_module_parse_dep 10 (cs "m: a b" ++ [NUL])
          (sample_world [false; false; true]) with
  | Ok (n, _) w1 =>
      n = 2 ∧
      match kmod_module_unref (Some 10%positive) w1 with
      | Ok _ w2 =>
          map (λ hm, handle_name w2 hm.1) (map_to_list (mods w2)) = [Some (cs "a")] ∧
          ctx_count w2 1 = ctx_count (sample_world []) 1 - 1 + 1
      | Crash _ => False
      end
  | Crash _ => False
  end.
Proof. vm_compute. split_and!; reflexivity. Qed.

(** ** What [kmod_module_parse_dep] writes into the caller's array *)

Lemma written_over_refl l : Forall2 written_over l l.
Proof. induction l; constructor; [by left|done]. Qed.

Lemma written_over_trans_char a b c :
  written_over a b → written_over b c → written_over a c.
Proof.
  intros [->|[[-> H]|[-> ->]]] [<-|[[-> H']|[E ->]]]; unfold written_over; try tauto;
    try discriminate.
  - destruct H' as [?|?]; discriminate.
Qed.

Lemma written_over_trans l1 : ∀ l2 l3,
  Forall2 written_over l1 l2 → Forall2 written_over l2 l3 → Forall2 written_over l1 l3.
Proof.
  induction l1 as [|a l1 IH]; intros l2 l3 H12 H23.
  - apply Forall2_nil_inv_l in H12 as ->. by apply Forall2_nil_inv_l in H23 as ->.
  - apply Forall2_cons_inv_l in H12 as (b & l2' & Hab & H12 & ->).
    apply Forall2_cons_inv_l in H23 as (c & l3' & Hbc & H23 & ->).
    constructor; [by eapply written_over_trans_char|by eapply IH].
Qed.

Lemma strcspn_char s d :
  is_nul (char_at s (strcspn s d)) = true ∨ is_delim d (char_at s (strcspn s d)) = true.
Proof.
  induction s as [|c s IH]; simpl; [by left|].
  destruct (is_nul c) eqn:En; [by left|].
  destruct (is_delim d c) eqn:Ed; [by right|]. exact IH.
Qed.

Lemma char_at_drop buf s k : char_at (drop s buf) k = char_at buf (s + k).
Proof.
  unfold char_at. revert buf. induction s as [|s IH]; intros buf; [by rewrite drop_0|].
  destruct buf as [|c buf]; [by destruct k|]. simpl. apply IH.
Qed.

Lemma written_over_insert_nul buf e :
  is_delim dep_delim (char_at buf e) = true →
  Forall2 written_over buf (<[e := NUL]> buf).
Proof.
  revert e. induction buf as [|c buf IH]; intros e He; [constructor|].
  destruct e as [|e]; simpl.
  - constructor; [|apply written_over_refl]. right. left. split; [done|by right].
  - constructor; [by left|]. by apply IH.
Qed.

Lemma strtok_r_written buf s :
  Forall2 written_over buf (strtok_r buf s dep_delim).1.2.
Proof.
  unfold strtok_r. destruct (is_nul (char_at buf s)); [apply written_over_refl|].
  set (s1 := (s + strspn (drop s buf) dep_delim)%nat).
  destruct (is_nul (char_at buf s1)); [apply written_over_refl|].
  set (e := (s1 + strcspn (drop s1 buf) dep_delim)%nat).
  destruct (is_nul (char_at buf e)) eqn:En; [apply written_over_refl|].
  cbn [fst snd]. apply written_over_insert_nul.
  destruct (strcspn_char (drop s1 buf) dep_delim) as [H|H];
    rewrite char_at_drop in H; fold e in H; congruence.
Qed.

Lemma modname_scan_written s : Forall2 written_over s (modname_scan s).
Proof.
  induction s as [|c s IH]; [constructor|]. cbn [modname_scan].
  destruct (is_nul c) eqn:En.
  { apply is_nul_true in En as ->. apply written_over_refl. }
  destruct (Ascii.eqb c "."%char) eqn:Ed.
  { apply Ascii.eqb_eq in Ed as ->.
    constructor; [|apply written_over_refl]. right. left. split; [done|by left]. }
  constructor; [|done].
  destruct (Ascii.eqb c "-"%char) eqn:Em; [|by left].
  apply Ascii.eqb_eq in Em as ->. right. by right.
Qed.

Lemma path_to_modname_written buf p :
  Forall2 written_over buf (path_to_modname buf p false).2.
Proof.
  unfold path_to_modname. destruct (is_nul _); [apply written_over_refl|]. cbn [snd].
  rewrite <- (take_drop (p + basename (drop p buf)) buf) at 1.
  apply Forall2_app; [apply written_over_refl|apply modname_scan_written].
Qed.

Lemma parse_dep_loop_written fuel : ∀ ctx buf save lst n w r buf' w',
  parse_dep_loop fuel ctx buf save lst n w = Ok (r, buf') w' →
  Forall2 written_over buf buf'.
Proof.
  induction fuel as [|fuel IH]; intros ctx buf save lst n w r buf' w' H; [done|].
  cbn [parse_dep_loop] in H.
  pose proof (strtok_r_written buf save) as H1.
  destruct (strtok_r buf save dep_delim) as [[p buf1] save1]. cbn [fst snd] in H1.
  destruct p as [p|]; [|by injection H as _ <- _].
  pose proof (path_to_modname_written buf1 p) as H2.
  destruct (path_to_modname buf1 p false) as [modname buf2]. cbn [snd] in H2.
  assert (H12 := written_over_trans _ _ _ H1 H2).
  apply bind_Ok_inv in H as (res & w1 & _ & H).
  destruct (res.1 <? 0); [by injection H as _ <- _|].
  destruct res.2 as [depmod|]; [|done].
  apply bind_Ok_inv in H as (l & w2 & _ & H).
  apply IH in H. by eapply written_over_trans.
Qed.

Lemma parse_dep_written md buf w r buf' w' :
  kmod_module_parse_dep md buf w = Ok (r, buf') w' → Forall2 written_over buf buf'.
Proof.
  unfold kmod_module_parse_dep. intros H.
  apply bind_Ok_inv in H as (m & w1 & _ & H).
  destruct (_ || _); [done|].
  apply bind_Ok_inv in H as (? & w2 & _ & H).
  destruct (strchr buf ":"%char) as [i|]; [|injection H as _ <- _; apply written_over_refl].
  apply bind_Ok_inv in H as ([e buf1] & w3 & Hloop & H).
  apply parse_dep_loop_written in Hloop.
  destruct e as [lst n|err lst].
  - apply bind_Ok_inv in H as (? & ? & _ & H).
    apply bind_Ok_inv in H as (? & ? & _ & H). by injection H as _ <- _.
  - apply bind_Ok_inv in H as (? & ? & _ & H).
    apply bind_Ok_inv in H as (? & ? & _ & H).
    apply bind_Ok_inv in H as (? & ? & _ & H). by injection H as _ <- _.
Qed.

Lemma is_dep_delim c : is_delim dep_delim c = true → c = " "%char ∨ c = "009"%char.
Proof.
  unfold is_delim, dep_delim. simpl. rewrite !orb_true_iff, !Ascii.eqb_eq.
  intros [?|[?|?]]; [by left|by right|done].
Qed.

(** ** The caller's array after the call (C10) *)












(** The second case above, run: the first call fails on ["b/"] and leaves
    the string ["mod: a"] in the array; the second call on that array
    succeeds with the one dependency [a]. *)
Example parse_dep_retry_after_failure :
  match kmod_module_parse_dep 10 (cs "mod: a b/ c" ++ [NUL]) (sample_world []) with
  | Ok (r, buf') w' =>
      r = - ENOENT ∧ cstr buf' = cs "mod: a" ∧
      match kmod_module_parse_dep 10 buf' w' with
      | Ok (r2, _) w2 =>
          r2 = 1 ∧
          (l ← mod_dep <$> mods w2 !! 10%positive; Some (map (handle_name w2) l))
          = Some [Some (cs "a")]
      | Crash _ => False
      end
  | Crash _ => False
  end.
Proof. vm_compute. split_and!; reflexivity. Qed.


(** X22.  What [kmod_module_parse_dep] writes into the caller's array.  For
    a handle in the not-started state and a line without NUL the call
    returns, under every allocation outcome and with success or failure,
    and the array it leaves has the length it had.  Every character that
    has changed lies after the first colon and before the terminator, and
    has changed in one of two ways: a space, a tab or a ['.'] has become
    NUL, or a ['-'] has become ['_'].  Nothing is written into a line
    without a colon. *)
Theorem parse_dep_writes (w : world) (md : ptr) (m : kmod_module) (line : list ascii) :
  mods w !! md = Some m → mod_init_dep m = false → mod_dep m = [] → NUL ∉ line →
  ∃ r buf' w',
    kmod_module_parse_dep md (line ++ [NUL]) w = Ok (r, buf') w' ∧
    length buf' = length (line ++ [NUL]) ∧
    ∀ i c c',
      (line ++ [NUL]) !! i = Some c → buf' !! i = Some c' → c ≠ c' →
      (∃ deps, after_colon line = Some deps ∧
               (length line - length deps ≤ i < length line)%nat) ∧
      ((c' = NUL ∧ (c = "."%char ∨ c = " "%char ∨ c = "009"%char)) ∨
       (c = "-"%char ∧ c' = "_"%char)).
Proof.
  intros Hm Hi Hd Hn. destruct (after_colon line) as [deps|] eqn:Hac.
  - destruct (parse_dep_total w md m line deps Hm Hi Hd Hn Hac)
      as (subject & r & buf' & w' & x & Hline & Hrun & Hbuf & _).
    pose proof (parse_dep_written _ _ _ _ _ _ Hrun) as Hw.
    exists r, buf', w'. split; [done|]. split; [symmetry; by eapply Forall2_length|].
    intros i c c' Hc Hc' Hne.
    pose proof (Forall2_lookup_lr _ _ _ _ _ _ Hw Hc Hc') as Hcc.
    assert (Hlen : length line = (length subject + 1 + length deps)%nat).
    { rewrite Hline, length_app. simpl. lia. }
    assert (Hpre : (length (subject ++ [":"%char]) ≤ i)%nat).
    { destruct (decide (i < length (subject ++ [":"%char]))%nat) as [Hlt|]; [|lia].
      exfalso. apply Hne.
      rewrite Hbuf, lookup_app_l in Hc' by done.
      rewrite Hline in Hc.
      replace ((subject ++ ":"%char :: deps) ++ [NUL])
        with ((subject ++ [":"%char]) ++ deps ++ [NUL]) in Hc
        by (by rewrite <- !app_assoc).
      rewrite lookup_app_l in Hc by done. congruence. }
    rewrite length_app in Hpre. simpl in Hpre.
    assert (Hend : (i < length line)%nat).
    { destruct (decide (i < length line)%nat) as [|Hge]; [done|]. exfalso.
      apply lookup_lt_Some in Hc as Hi'. rewrite length_app in Hi'. simpl in Hi'.
      assert (i = length line) as -> by lia.
      rewrite list_lookup_middle in Hc by done. injection Hc as <-.
      destruct Hcc as [?|[[-> _]|[? _]]]; done. }
    split; [exists deps; split; [done|lia]|].
    destruct Hcc as [?|[[-> H]|[-> ->]]]; [done| |by right].
    left. split; [done|]. destruct H as [->|H]; [by left|].
    right. by apply is_dep_delim.
  - rewrite (parse_dep_no_colon w md m line) by done.
    eexists _, _, _. split; [done|]. split; [done|].
    intros i c c' Hc Hc' Hne. congruence.
Qed.

Lemma parse_dep_writes_witness :
  ∃ r buf' w',
    kmod_module_parse_dep 10 (cs "m: a-b.ko c" ++ [NUL]) (sample_world [])
    = Ok (r, buf') w' ∧
    length buf' = length (cs "m: a-b.ko c" ++ [NUL]).
Proof.
  destruct (parse_dep_writes (sample_world []) 10
              (KmodModule 1 None (Some 5%positive) [] 1 false) (cs "m: a-b.ko c"))
    as (r & buf' & w' & Hrun & Hlen & _).
  - reflexivity.
  - reflexivity.
  - reflexivity.
  - no_nul_literal.
  - exists r, buf', w'. split; [exact Hrun|exact Hlen].
Defined.

(** The array of the witness after the call. *)
Example parse_dep_writes_example :
  match kmod_module_parse_dep 10 (cs "m: a-b.ko c" ++ [NUL]) (sample_world []) with
  | Ok (r, buf') _ =>
      r = 2 ∧
      buf' = cs "m: a_b" ++ [NUL] ++ cs "ko" ++ [NUL] ++ cs "c" ++ [NUL]
  | Crash _ => False
  end.
Proof. vm_compute. split; reflexivity. Qed.

(** ** The section accessors on what [kmod_module_get_sections] lists *)

(** X21.  The accessors read back what sysfs gave.  For every entry of a
    list that [kmod_module_get_sections] returned,
    [kmod_module_section_get_name] gives the name of an entry of the
    [sections] directory other than ["."] and [".."], whose file opened and
    parsed, and [kmod_module_section_get_address] gives the number parsed
    from that file.  For a NULL entry they give NULL and
    [(unsigned long)-1]. *)
Theorem section_accessors_read_back (fs : sysfs) (ULONG_MAX : Z) (w : world) (p : ptr)
  (m : kmod_module) (q : ptr) (name : list ascii) (entries : list (list ascii))
  (l : list kmod_module_section) (w' : world) :
  mods w !! p = Some m → mod_name m = Some q → strs w !! q = Some name →
  fs_opendir fs (snd (sysfs_path name "/sections")) = Some entries →
  kmod_module_get_sections fs (Some p) w = Ok l w' →
  (∀ i, (i < length l)%nat →
     ∃ e err,
       kmod_module_section_get_name (l !! i) = Some e ∧
       e ∈ entries ∧ is_dot_entry e = false ∧
       fs_section fs (snd (sysfs_path name "/sections")) e
       = SectionOpened err (kmod_module_section_get_address ULONG_MAX (l !! i)) ∧
       0 ≤ err) ∧
  kmod_module_section_get_name None = None ∧
  kmod_module_section_get_address ULONG_MAX None = ULONG_MAX.
Proof.
  intros Hm Hn Hs Hd Hrun.
  pose proof (get_sections_cases fs w p m q name entries Hm Hn Hs Hd) as H.
  rewrite Hrun in H. destruct H as (Hsub & _).
  split; [|done]. intros i Hi.
  destruct (lookup_lt_is_Some_2 l i Hi) as [s Hl]. rewrite Hl.
  assert (Hin : s ∈ omap (section_of fs (snd (sysfs_path name "/sections"))) entries).
  { eapply elem_of_submseteq; [by eapply list_elem_of_lookup_2|by apply sublist_submseteq]. }
  apply list_elem_of_omap in Hin as (e & He & Hsec).
  unfold section_of in Hsec.
  destruct (is_dot_entry e) eqn:Hdot; [done|].
  destruct (fs_section fs _ e) as [|err addr] eqn:Hfs; [done|].
  destruct (err <? 0) eqn:Herr; [done|]. injection Hsec as <-.
  exists e, err. simpl. split_and!; try done. by apply Z.ltb_ge.
Qed.

Lemma section_accessors_read_back_witness :
  ∃ e err,
    kmod_module_section_get_name
      ([KmodSection 4096 (cs ".text"); KmodSection 8192 (cs ".bss")] !! 1%nat) = Some e ∧
    e ∈ three_entries ∧
    fs_section sample_sections_fs (snd (sysfs_path (cs "mod") "/sections")) e
    = SectionOpened err 8192.
Proof.
  destruct (section_accessors_read_back sample_sections_fs 18446744073709551615
              (sample_world []) 10 (KmodModule 1 None (Some 5%positive) [] 1 false) 5
              (cs "mod") three_entries
              [KmodSection 4096 (cs ".text"); KmodSection 8192 (cs ".bss")]
              (sample_world [])) as (H & _).
  - reflexivity.
  - reflexivity.
  - reflexivity.
  - reflexivity.
  - vm_compute. reflexivity.
  - destruct (H 1%nat) as (e & err & Hname & Hin & _ & Hsec & _); [simpl; lia|].
    exists e, err. split_and!; [exact Hname|exact Hin|exact Hsec].
Defined.

(** ** The holders list, made and released *)

Lemma holders_loop_owned c entries : ∀ lst qs w,
  allocs_ok (3 * length (real_entries entries)) w →
  owned c lst qs (mods w) (strs w) →
  ∃ lst' qs' w',
    holders_loop c entries lst w = Ok lst' w' ∧
    owned c lst' qs' (mods w') (strs w') ∧
    foldr delete (mods w') lst' = foldr delete (mods w) lst ∧
    foldr delete (strs w') qs' = foldr delete (strs w) qs ∧
    length lst' = (length lst + length (real_entries entries))%nat ∧
    ctx_count w' c = ctx_count w c + Z.of_nat (length (real_entries entries)) ∧
    (∀ c', c' ≠ c → ctxs w' !! c' = ctxs w !! c') ∧
    fds w' = fds w ∧ maps w' = maps w.
Proof.
  induction entries as [|e entries IH]; intros lst qs w Ha Ho.
  - exists lst, qs, w. simpl. split_and!; try done; lia.
  - cbn [holders_loop]. rewrite real_entries_cons in *.
    destruct (is_dot_entry e); [by apply IH|].
    cbn [length] in *.
    replace (3 * S (length (real_entries entries)))%nat
      with (S (S (S (3 * length (real_entries entries))))) in * by lia.
    destruct (new_from_name_ok _ w c e Ha) as [Hnew Ha1].
    rewrite (bind_Ok _ _ _ _ _ Hnew). cbn [fst snd Z.ltb Z.compare].
    destruct (list_append_ok _ _ lst (fresh (dom (mods w))) Ha1) as [Happ Ha2].
    rewrite (bind_Ok _ _ _ _ _ Happ).
    set (w2 := set_oom (drop 1) (add_handle c e w)) in *.
    assert (Ho2 : owned c (lst ++ [fresh (dom (mods w))]) (qs ++ [fresh (dom (strs w))])
                        (mods w2) (strs w2)).
    { apply owned_snoc; [done|apply fresh_mod_None|apply fresh_str_None]. }
    destruct (IH _ _ w2 Ha2 Ho2)
      as (lst' & qs' & w' & Hloop & Howned & Hm' & Hs' & Hl' & Hc' & Hco' & Hf' & Hmp').
    rewrite Hloop. exists lst', qs', w'. split_and!; try done.
    + rewrite Hm'. unfold w2. simpl. rewrite foldr_snoc. simpl.
      by rewrite delete_insert_id by apply fresh_mod_None.
    + rewrite Hs'. unfold w2. simpl. rewrite foldr_snoc. simpl.
      by rewrite delete_insert_id by apply fresh_str_None.
    + rewrite Hl', length_app. simpl. lia.
    + rewrite Hc'. unfold w2, ctx_count at 1. simpl. rewrite lookup_insert_eq. simpl. lia.
    + intros c' Hne. rewrite Hco' by done. unfold w2. simpl.
      by rewrite lookup_insert_ne.
Qed.

(** X23.  The holders list is the caller's to release, and releasing it is
    all there is to do.  For a live handle with a name whose [holders]
    directory opens, when no allocation fails,
    [kmod_module_get_holders] returns one handle per entry other than ["."]
    and [".."], and [kmod_module_unref_list] on that list returns 0 and
    leaves the handle heap, the string heap, the counts of the contexts,
    the descriptors and the mappings exactly as they were before the
    enumeration. *)
Theorem holders_then_release (fs : sysfs) (w : world) (p : ptr) (m : kmod_module)
  (q : ptr) (name : list ascii) (entries : list (list ascii)) :
  mods w !! p = Some m → mod_name m = Some q → strs w !! q = Some name →
  fs_opendir fs (snd (sysfs_path name "/holders")) = Some entries →
  allocs_ok (3 * length (real_entries entries)) w →
  0 < ctx_count w (mod_ctx m) →
  ∃ l w1 w2,
    kmod_module_get_holders fs (Some p) w = Ok l w1 ∧
    length l = length (real_entries entries) ∧
    kmod_module_unref_list l w1 = Ok 0 w2 ∧
    mods w2 = mods w ∧ strs w2 = strs w ∧ ctxs w2 = ctxs w ∧
    fds w2 = fds w ∧ maps w2 = maps w.
Proof.
  intros Hm Hn Hs Hd Ha Hpos. unfold kmod_module_get_holders.
  rewrite (bind_Ok _ _ _ _ _ (load_mod_Ok _ _ _ Hm)).
  unfold name_arg. rewrite Hn. unfold load_str, bind at 1. rewrite Hs, Hd.
  unfold sys_open, bind at 1.
  set (w0 := set_fds _ w).
  destruct (holders_loop_owned (mod_ctx m) entries [] [] w0 Ha I)
    as (l & qs & w' & Hloop & Ho & Hm' & Hs' & Hl' & Hc' & Hco' & Hf' & Hmp').
  rewrite (bind_Ok _ _ _ _ _ Hloop). unfold sys_close, modify, bind, ret.
  set (w1 := set_fds _ w').
  simpl in Hm', Hs', Hl'.
  destruct (unref_list_of_owned (mod_ctx m) l qs w1 Ho) as
    (w2 & Hun & Hm2 & Hs2 & Hc2 & Hco2 & Hf2 & Hmp2 & _).
  { change (ctx_count w1 (mod_ctx m)) with (ctx_count w' (mod_ctx m)).
    rewrite Hc', Hl'. change (ctx_count w0 (mod_ctx m)) with (ctx_count w (mod_ctx m)). lia. }
  exists l, w1, w2. split_and!; try done.
  - by rewrite Hm2.
  - by rewrite Hs2.
  - apply map_eq. intros c'. destruct (decide (c' = mod_ctx m)) as [->|Hne].
    + apply ctxs_lookup_of_count; [|done]. rewrite Hc2.
      change (ctx_count w1 (mod_ctx m)) with (ctx_count w' (mod_ctx m)).
      rewrite Hc', Hl'. change (ctx_count w0 (mod_ctx m)) with (ctx_count w (mod_ctx m)).
      lia.
    + rewrite Hco2 by done. change (ctxs w1) with (ctxs w'). by rewrite Hco'.
  - rewrite Hf2. unfold w1. simpl. rewrite Hf'. unfold w0. simpl. apply open_close_fds.
  - rewrite Hmp2. change (maps w1) with (maps w'). by rewrite Hmp'.
Qed.

Lemma holders_then_release_witness :
  ∃ l w1 w2,
    kmod_module_get_holders sample_sections_fs (Some 10%positive) (sample_world [])
    = Ok l w1 ∧
    length l = length (real_entries three_entries) ∧
    kmod_module_unref_list l w1 = Ok 0 w2 ∧
    mods w2 = mods (sample_world []) ∧ strs w2 = strs (sample_world []) ∧
    ctxs w2 = ctxs (sample_world []).
Proof.
  destruct (holders_then_release sample_sections_fs (sample_world []) 10
              (KmodModule 1 None (Some 5%positive) [] 1 false) 5 (cs "mod") three_entries)
    as (l & w1 & w2 & Hrun & Hlen & Hun & Hm & Hs & Hc & _).
  - reflexivity.
  - reflexivity.
  - reflexivity.
  - reflexivity.
  - reflexivity.
  - reflexivity.
  - exists l, w1, w2.
    split_and!; [exact Hrun|exact Hlen|exact Hun|exact Hm|exact Hs|exact Hc].
Defined.
